(** * The order-line derivation pipeline of app_sales.py ([load_data])

    A shallow embedding of the data-loading function of the sales
    dashboard: CSV ingestion with an encoding fallback, de-duplication on
    (주문번호, 상품코드), the financial columns GP and 마진율, region
    extraction, RFM scoring and segmentation, purchase intervals and churn
    labels.

    Conventions of the embedding.
    - A pandas column is a [list] aligned with the rows of the frame; a
      missing cell (NaN / NaT) is [None].
    - Amounts are won, held as [Z]: the cells of int64 columns, the dtype
      [pd.read_csv] gives a column of whole numbers. Sums and differences
      of two such columns wrap around modulo 2^64 ([int64]). A column with
      a missing cell is held in float64 by pandas, where whole numbers are
      exact up to 2^53; amounts beyond that are outside the embedding. The
      quotients pandas computes in float64 are computed in [Q], so rounding
      is not represented.
    - A timestamp is the number of nanoseconds since the epoch, as pandas
      stores it; 주문일 is taken after [pd.to_datetime(errors='coerce')].
    - Identifiers (주문번호, 상품코드, 주문자연락처) are [string]s compared
      bytewise, which for UTF-8 is Python's code-point order.
    - A Python [str] that is split on whitespace (주소) is the list of its
      code points.
    - A Python exception is the [Raise] branch of [result]. *)

From Stdlib Require Import ZArith QArith Qround List String Bool Lia Permutation.
From Stdlib Require Import Sorted OrderedTypeEx.
From Stdlib Require Decimal DecimalN DecimalPos.
Import ListNotations.

Local Open Scope Z_scope.

(** ** Exceptions and the result monad *)

Inductive Exception : Set :=
| UnicodeDecodeError
| ParserError
| EmptyDataError
| IndexError
| ValueError.

Inductive result (A : Type) : Type :=
| Ok (a : A)
| Raise (e : Exception).

Arguments Ok {A} a.
Arguments Raise {A} e.

Definition bind {A B : Type} (m : result A) (k : A -> result B) : result B :=
  match m with
  | Ok a => k a
  | Raise e => Raise e
  end.

Notation "x <- m ;; k" := (bind m (fun x => k))
  (at level 61, m at next level, right associativity).

(** [Series.apply(f)] with a function that may raise: the first exception
    in row order leaves the loop. *)
Fixpoint Series_apply {A B : Type} (f : A -> result B) (l : list A) : result (list B) :=
  match l with
  | [] => Ok []
  | a :: t => b <- f a ;; bs <- Series_apply f t ;; Ok (b :: bs)
  end.

(** ** Data model *)

(** A Python [str] as its code points. *)
Definition pystr : Set := list N.

(** Nanoseconds since the epoch. *)
Definition Timestamp : Set := Z.

Definition NS_PER_DAY : Z := 86400 * 1000000000.

(** [Timedelta.days]: whole days, rounded towards minus infinity. *)
Definition days (td : Z) : Z := td / NS_PER_DAY.

(** One order line; the columns [load_data] reads for the features below. *)
Record Row : Set := mkRow {
  주문번호 : string;
  상품코드 : string;
  주문자연락처 : option string;
  주문일 : option Timestamp;
  결제금액 : option Z;          (* 결제금액(상품별) *)
  공급가 : option Z;
  주소 : option pystr;
  _source_file : string
}.

(** What [pd.read_csv] returns: the rows, and whether the optional column
    주문자연락처 is among the columns. *)
Record DataFrame : Set := mkFrame {
  has_주문자연락처 : bool;
  rows : list Row
}.

Inductive Encoding : Set := cp949 | utf_8.

(** A file of the data directory: its base name and the outcome of
    [pd.read_csv(file, encoding=e)] for each encoding. *)
Record CsvFile : Type := mkFile {
  basename : string;
  read_csv : Encoding -> result DataFrame
}.

(** ** Ingestion (lines 45-60) *)

Definition set_source_file (name : string) (r : Row) : Row :=
  mkRow (주문번호 r) (상품코드 r) (주문자연락처 r) (주문일 r)
        (결제금액 r) (공급가 r) (주소 r) name.

Definition tag_source (file : CsvFile) (d : DataFrame) : DataFrame :=
  mkFrame (has_주문자연락처 d) (map (set_source_file (basename file)) (rows d)).

(** The body of the loop for one file: the [try] reads with cp949, the
    bare [except] reads with utf-8 and has no handler of its own. *)
Definition read_file (file : CsvFile) : result DataFrame :=
  match read_csv file cp949 with
  | Ok temp_df => Ok (tag_source file temp_df)
  | Raise _ =>
      temp_df <- read_csv file utf_8 ;;
      Ok (tag_source file temp_df)
  end.

(** The [for file in csv_files] loop building [df_list]. *)
Fixpoint read_files (csv_files : list CsvFile) : result (list DataFrame) :=
  match csv_files with
  | [] => Ok []
  | file :: rest =>
      temp_df <- read_file file ;;
      df_list <- read_files rest ;;
      Ok (temp_df :: df_list)
  end.

Definition clear_주문자연락처 (r : Row) : Row :=
  mkRow (주문번호 r) (상품코드 r) None (주문일 r)
        (결제금액 r) (공급가 r) (주소 r) (_source_file r).

(** [pd.concat(df_list, ignore_index=True)]: rows in list order; a column
    present in some frame is present in the result, with NaN on the rows of
    the frames that lack it. *)
Definition concat (df_list : list DataFrame) : result DataFrame :=
  match df_list with
  | [] => Raise ValueError          (* No objects to concatenate *)
  | _ =>
      Ok (mkFrame (existsb has_주문자연락처 df_list)
            (flat_map (fun d => if has_주문자연락처 d then rows d
                                else map clear_주문자연락처 (rows d)) df_list))
  end.

(** The subset of [drop_duplicates]: (주문번호, 상품코드). *)
Definition key (r : Row) : string * string := (주문번호 r, 상품코드 r).

Definition key_eqb (r1 r2 : Row) : bool :=
  (String.eqb (주문번호 r1) (주문번호 r2) && String.eqb (상품코드 r1) (상품코드 r2))%bool.

(** [drop_duplicates(subset=..., keep='last')]: a row is dropped exactly
    when a later row has the same key; the order of the rest is kept. *)
Fixpoint drop_duplicates (l : list Row) : list Row :=
  match l with
  | [] => []
  | r :: t => if existsb (key_eqb r) t then drop_duplicates t
              else r :: drop_duplicates t
  end.

(** Lines 45-60: the frame after reading, concatenating and de-duplicating. *)
Definition ingest (csv_files : list CsvFile) : result DataFrame :=
  df_list <- read_files csv_files ;;
  df <- concat df_list ;;
  Ok (mkFrame (has_주문자연락처 df) (drop_duplicates (rows df))).

(** ** Cleansing and financial columns (lines 67-74) *)

(** [Series.fillna(0)]. *)
Definition fillna0 (x : option Z) : option Z :=
  match x with
  | Some v => Some v
  | None => Some 0
  end.

Definition fill_amounts (r : Row) : Row :=
  mkRow (주문번호 r) (상품코드 r) (주문자연락처 r) (주문일 r)
        (fillna0 (결제금액 r)) (fillna0 (공급가 r)) (주소 r) (_source_file r).

(** The int64 cell that numpy stores for the exact result [z]: the
    arithmetic of int64 columns wraps around modulo 2^64 without an
    error. *)
Definition int64 (z : Z) : Z := (z + 2 ^ 63) mod 2 ^ 64 - 2 ^ 63.

(** Elementwise subtraction of two int64 columns; NaN propagates. *)
Definition sub_na (a b : option Z) : option Z :=
  match a, b with
  | Some x, Some y => Some (int64 (x - y))
  | _, _ => None
  end.

(** A float64 cell that is the outcome of a division. *)
Inductive fval : Set :=
| Fin (q : Q)
| PosInf
| NegInf
| NaN.

(** Elementwise [/] of two numeric columns: pandas does not raise on a zero
    divisor, it yields an infinity or NaN. *)
Definition truediv (a b : option Z) : fval :=
  match a, b with
  | Some x, Some y =>
      if y =? 0 then
        (if x =? 0 then NaN else if 0 <? x then PosInf else NegInf)
      else Fin (inject_Z x / inject_Z y)
  | _, _ => NaN
  end.

(** Elementwise [> 0]; a comparison with NaN is False. *)
Definition gt0 (a : option Z) : bool :=
  match a with
  | Some x => 0 <? x
  | None => false
  end.

(** [np.where(cond, a, b)] on one cell: both branches have been computed. *)
Definition np_where {A : Type} (cond : bool) (a b : A) : A :=
  if cond then a else b.

Definition GP_of (r : Row) : option Z := sub_na (결제금액 r) (공급가 r).

Definition 마진율_of (r : Row) : fval :=
  np_where (gt0 (결제금액 r)) (truediv (GP_of r) (결제금액 r)) (Fin 0).

(** ** Region (lines 85-89) *)

(** The code points for which [str.isspace] holds; [str.split()] splits on
    runs of them. *)
Definition is_space (c : N) : bool :=
  ((9 <=? c) && (c <=? 13) || (28 <=? c) && (c <=? 32)
   || (c =? 133) || (c =? 160) || (c =? 5760)
   || (8192 <=? c) && (c <=? 8202) || (c =? 8232) || (c =? 8233)
   || (c =? 8239) || (c =? 8287) || (c =? 12288))%N%bool.

(** [str.split()]: the maximal runs of non-space code points, in order.
    [cur] is the run being read, reversed. *)
Fixpoint split_from (cur : pystr) (s : pystr) : list pystr :=
  match s with
  | [] => match cur with [] => [] | _ => [rev cur] end
  | c :: t =>
      if is_space c then
        match cur with
        | [] => split_from [] t
        | _ => rev cur :: split_from [] t
        end
      else split_from (c :: cur) t
  end.

Definition split (s : pystr) : list pystr := split_from [] s.

(** The sentinel "기타" (U+AE30 U+D0C0). *)
Definition 기타 : pystr := [44592; 53440]%N.

Definition extract_region (address : option pystr) : result pystr :=
  match address with
  | None => Ok 기타                      (* pd.isna(address) *)
  | Some [] => Ok 기타                   (* address == "" *)
  | Some a =>
      match split a with
      | [] => Raise IndexError          (* str(address).split()[0] *)
      | tok :: _ => Ok tok
      end
  end.

(** ** Customers (lines 92-100, 126) *)

Definition opt_eqb (a : option string) (c : string) : bool :=
  match a with
  | Some s => String.eqb s c
  | None => false
  end.

(** The rows of one group of [groupby('주문자연락처')], in frame order. *)
Definition group (df : list Row) (c : string) : list Row :=
  filter (fun r => opt_eqb (주문자연락처 r) c) df.

Fixpoint insert_string (s : string) (l : list string) : list string :=
  match l with
  | [] => [s]
  | x :: t => if String.leb s x then s :: l else x :: insert_string s t
  end.

Definition sort_strings (l : list string) : list string :=
  fold_right insert_string [] l.

Fixpoint dropna {A : Type} (l : list (option A)) : list A :=
  match l with
  | [] => []
  | Some a :: t => a :: dropna t
  | None :: t => dropna t
  end.

(** The group keys of [groupby('주문자연락처')]: the distinct non-missing
    values, sorted. *)
Definition customers (df : list Row) : list string :=
  sort_strings (nodup string_dec (dropna (map 주문자연락처 df))).

(** [nunique] of 주문번호 within a list of rows. *)
Definition nunique_orders (g : list Row) : Z :=
  Z.of_nat (List.length (nodup string_dec (map 주문번호 g))).

(** [max] of a datetime column, skipping NaT; NaT when there is none. *)
Fixpoint max_date (l : list (option Timestamp)) : option Timestamp :=
  match l with
  | [] => None
  | None :: t => max_date t
  | Some d :: t =>
      match max_date t with
      | Some m => Some (Z.max d m)
      | None => Some d
      end
  end.

(** [sum] of a numeric column, skipping NaN. *)
Definition sum_na (l : list (option Z)) : Z := fold_right Z.add 0 (dropna l).

(** [(a - b).days] on timestamps; NaN when either is NaT. *)
Definition days_between (a b : option Timestamp) : option Z :=
  match a, b with
  | Some x, Some y => Some (days (x - y))
  | _, _ => None
  end.

Definition 재구매고객 : string := "재구매고객".
Definition 신규고객 : string := "신규고객".
Definition 분석불가 : string := "분석불가".

(** [customer_orders] merged back with [how='left']: the number of distinct
    orders of the row's customer, NaN on a row without a customer. *)
Definition 총주문횟수_of (df : list Row) (r : Row) : option Z :=
  match 주문자연락처 r with
  | Some c => Some (nunique_orders (group df c))
  | None => None
  end.

Definition gt1 (a : option Z) : bool :=
  match a with
  | Some x => 1 <? x
  | None => false
  end.

Definition 고객유형_of (df : list Row) (r : Row) : string :=
  np_where (gt1 (총주문횟수_of df r)) 재구매고객 신규고객.

(** ** RFM scoring (lines 123-148) *)

Definition ltb_na (v : Z) (y : option Z) : bool :=
  match y with
  | Some w => w <? v
  | None => false
  end.

Definition eqb_na (v : Z) (y : option Z) : bool :=
  match y with
  | Some w => w =? v
  | None => false
  end.

Definition count {A : Type} (p : A -> bool) (l : list A) : Z :=
  Z.of_nat (List.length (filter p l)).

(** [Series.rank(method='first')] at position [i]: one more than the number
    of smaller values plus the number of equal values that come earlier;
    NaN keeps NaN. *)
Definition rank_at (x : list (option Z)) (i : nat) : option Z :=
  match nth_error x i with
  | Some (Some v) => Some (1 + count (ltb_na v) x + count (eqb_na v) (firstn i x))
  | _ => None
  end.

Definition rank_first (x : list (option Z)) : list (option Z) :=
  map (rank_at x) (seq 0 (List.length x)).

Fixpoint insert_Z (v : Z) (l : list Z) : list Z :=
  match l with
  | [] => [v]
  | y :: t => if v <=? y then v :: l else y :: insert_Z v t
  end.

Definition sort_Z (l : list Z) : list Z := fold_right insert_Z [] l.

(** [Series.quantile(q)] with linear interpolation, on the sorted non-missing
    values [v] (not empty): position [q * (len - 1)], interpolated between
    its two neighbours. *)
Definition quantile (v : list Z) (q : Q) : Q :=
  let pos := (q * inject_Z (Z.of_nat (List.length v) - 1)%Z)%Q in
  let lo := Qfloor pos in
  let hi := Qceiling pos in
  let v_lo := inject_Z (nth (Z.to_nat lo) v 0) in
  let v_hi := inject_Z (nth (Z.to_nat hi) v 0) in
  (v_lo + (v_hi - v_lo) * (pos - inject_Z lo))%Q.

(** [np.linspace(0, 1, 6)]. *)
Definition quantiles_5 : list Q := [0; 1#5; 2#5; 3#5; 4#5; 1]%Q.

Fixpoint has_duplicates (bins : list Q) : bool :=
  match bins with
  | [] => false
  | b :: t => (existsb (Qeq_bool b) t || has_duplicates t)%bool
  end.

Definition Qltb (a b : Q) : bool := negb (Qle_bool b a).

(** [bins.searchsorted(x, side='left')] on increasing [bins]: the number of
    edges below [x]. *)
Fixpoint searchsorted_left (bins : list Q) (x : Q) : nat :=
  match bins with
  | [] => 0
  | b :: t => if Qltb b x then S (searchsorted_left t x) else 0
  end.

(** One cell of [_bins_to_cuts(..., include_lowest=True)]: the bin number,
    then the label of that bin; NaN outside the edges. *)
Definition cut_one (bins : list Q) (labels : list Z) (x : option Z) : option Z :=
  match x with
  | None => None
  | Some r =>
      let ids := if Qeq_bool (inject_Z r) (hd 0%Q bins) then 1%nat
                 else searchsorted_left bins (inject_Z r) in
      if ((ids =? 0) || (ids =? List.length bins))%nat%bool then None
      else nth_error labels (ids - 1)
  end.

(** [pd.qcut(x, 5, labels=labels)]: the edges are the quantiles of the
    non-missing values; equal edges raise ("Bin edges must be unique"), and
    so does a column with no value, whose edges are all NaN. *)
Definition qcut (x : list (option Z)) (labels : list Z) : result (list (option Z)) :=
  match sort_Z (dropna x) with
  | [] => Raise ValueError
  | v =>
      let bins := map (quantile v) quantiles_5 in
      if has_duplicates bins then Raise ValueError
      else Ok (map (cut_one bins labels) x)
  end.

(** [.astype(int)] on the categorical result: NaN cannot be converted. *)
Definition astype_int (x : list (option Z)) : result (list Z) :=
  Series_apply (fun c => match c with
                         | Some z => Ok z
                         | None => Raise ValueError
                         end) x.

Definition score (x : list (option Z)) (labels : list Z) : result (list Z) :=
  cats <- qcut (rank_first x) labels ;;
  astype_int cats.

Definition VIP : string := "VIP (최우수)".
Definition 우수_고객 : string := "우수 고객".
Definition 잠재_고객 : string := "잠재 고객".
Definition 집중_관리 : string := "집중 관리".

Definition segment_customer (total : Z) : string :=
  if 13 <=? total then VIP
  else if 10 <=? total then 우수_고객
  else if 7 <=? total then 잠재_고객
  else 집중_관리.

(** One row of [rfm]. *)
Record Customer : Set := mkCustomer {
  rfm_주문자연락처 : string;
  Recency : option Z;
  Frequency : Z;
  Monetary : Z;
  R_score : Z;
  F_score : Z;
  M_score : Z;
  RFM_Total : Z;
  rfm_고객세그먼트 : string
}.

Definition Recency_of (df : list Row) (c : string) : option Z :=
  days_between (max_date (map 주문일 df)) (max_date (map 주문일 (group df c))).

Definition Frequency_of (df : list Row) (c : string) : Z :=
  nunique_orders (group df c).

Definition Monetary_of (df : list Row) (c : string) : Z :=
  sum_na (map 결제금액 (group df c)).

(** The row of [rfm] at position [i], from the columns. *)
Definition rfm_row (df : list Row) (cs : list string) (r f m : list Z) (i : nat)
  : Customer :=
  let c := nth i cs EmptyString in
  let total := nth i r 0 + nth i f 0 + nth i m 0 in
  mkCustomer c (Recency_of df c) (Frequency_of df c) (Monetary_of df c)
             (nth i r 0) (nth i f 0) (nth i m 0) total (segment_customer total).

Definition rfm_table (df : list Row) : result (list Customer) :=
  let cs := customers df in
  r <- score (map (Recency_of df) cs) [5; 4; 3; 2; 1] ;;
  f <- score (map (fun c => Some (Frequency_of df c)) cs) [1; 2; 3; 4; 5] ;;
  m <- score (map (fun c => Some (Monetary_of df c)) cs) [1; 2; 3; 4; 5] ;;
  Ok (map (rfm_row df cs r f m) (seq 0 (List.length cs))).

(** The column a left merge on 주문자연락처 brings to a row. *)
Definition merge_left {A B : Type} (keyf : A -> string) (val : A -> B)
  (table : list A) (c : option string) : option B :=
  match c with
  | Some k =>
      match find (fun a => String.eqb (keyf a) k) table with
      | Some a => Some (val a)
      | None => None
      end
  | None => None
  end.

(** ** Purchase interval (lines 179-182) *)

(** Order of a column in [sort_values]: missing values last. *)
Definition cmp_na {A : Type} (cmp : A -> A -> comparison) (a b : option A)
  : comparison :=
  match a, b with
  | Some x, Some y => cmp x y
  | Some _, None => Lt
  | None, Some _ => Gt
  | None, None => Eq
  end.

(** The order of [sort_values(['주문자연락처', '주문일'])]. *)
Definition sort_cmp (r1 r2 : Row) : comparison :=
  match cmp_na String.compare (주문자연락처 r1) (주문자연락처 r2) with
  | Eq => cmp_na Z.compare (주문일 r1) (주문일 r2)
  | c => c
  end.

Definition sort_le (a b : nat * Row) : bool :=
  match sort_cmp (snd a) (snd b) with
  | Gt => false
  | _ => true
  end.

Fixpoint insert_row (a : nat * Row) (l : list (nat * Row)) : list (nat * Row) :=
  match l with
  | [] => [a]
  | b :: t => if sort_le a b then a :: l else b :: insert_row a t
  end.

(** [sort_values] on rows paired with their index label; rows that compare
    equal keep their order (the multi-column sort is stable). *)
Definition sort_values (l : list (nat * Row)) : list (nat * Row) :=
  fold_right insert_row [] l.

Definition same_customer (c : string) (p : nat * Row) : bool :=
  opt_eqb (주문자연락처 (snd p)) c.

(** [groupby('주문자연락처')['주문일'].shift(1)] over the rows in the order
    given: each row gets the 주문일 of the row before it in its group, NaT
    for the first row of a group and for a row without a customer. [seen]
    holds the rows already passed, nearest first. *)
Fixpoint groupby_shift (seen l : list (nat * Row)) : list (nat * option Timestamp) :=
  match l with
  | [] => []
  | p :: t =>
      let prev :=
        match 주문자연락처 (snd p) with
        | Some c =>
            match find (same_customer c) seen with
            | Some q => 주문일 (snd q)
            | None => None
            end
        | None => None
        end in
      (fst p, prev) :: groupby_shift (p :: seen) t
  end.

(** The cell of a series at index label [i] (assignment to a column aligns
    on the index); NaT when the label is absent. *)
Definition at_index (s : list (nat * option Timestamp)) (i : nat) : option Timestamp :=
  match find (fun p => Nat.eqb (fst p) i) s with
  | Some p => snd p
  | None => None
  end.

(** The frame with its RangeIndex. *)
Definition with_index (df : list Row) : list (nat * Row) :=
  combine (seq 0 (List.length df)) df.

Definition 이전구매일_series (df : list Row) : list (nat * option Timestamp) :=
  groupby_shift [] (sort_values (with_index df)).

Definition 구매간격_column (df : list Row) : list (option Z) :=
  map (fun p => days_between (주문일 (snd p)) (at_index (이전구매일_series df) (fst p)))
      (with_index df).

(** ** Churn risk (lines 185-199) *)

Definition mean (l : list Z) : Q :=
  (inject_Z (fold_right Z.add 0%Z l) / inject_Z (Z.of_nat (List.length l)))%Q.

(** Line 191: the mean of the positive purchase intervals, 30 without one. *)
Definition avg_cycle (intervals : list (option Z)) : Q :=
  match filter (fun d => 0 <? d) (dropna intervals) with
  | [] => 30%Q
  | positive => mean positive
  end.

(** [days > bound]; False when [days] is NaN. *)
Definition gt_na (days : option Z) (bound : Q) : bool :=
  match days with
  | Some d => Qltb bound (inject_Z d)
  | None => false
  end.

Definition 완전_이탈 : string := "완전 이탈".
Definition 이탈_위험 : string := "이탈 위험".
Definition 주의_요망 : string := "주의 요망".
Definition 활동_고객 : string := "활동 고객".

Definition classify_churn (avg_cycle : Q) (days : option Z) : string :=
  if gt_na days (avg_cycle * 3)%Q then 완전_이탈
  else if gt_na days (avg_cycle * 2)%Q then 이탈_위험
  else if gt_na days avg_cycle then 주의_요망
  else 활동_고객.

(** One row of [last_purchase]. *)
Record LastPurchase : Set := mkLastPurchase {
  lp_주문자연락처 : string;
  lp_주문일 : option Timestamp;
  lp_미구매기간 : option Z;
  lp_이탈위험도 : string
}.

Definition last_purchase_row (df : list Row) (avg : Q) (c : string) : LastPurchase :=
  let last := max_date (map 주문일 (group df c)) in
  let idle := days_between (max_date (map 주문일 df)) last in
  mkLastPurchase c last idle (classify_churn avg idle).

Definition last_purchase (df : list Row) : list LastPurchase :=
  map (last_purchase_row df (avg_cycle (구매간격_column df))) (customers df).

(** ** The enriched table *)

Record EnrichedRow : Set := mkEnriched {
  line : Row;
  GP : option Z;
  마진율 : fval;
  지역 : pystr;
  고객유형 : string;
  고객세그먼트 : option string;
  구매간격 : option Z;
  이탈위험도 : option string;
  미구매기간 : option Z
}.

Definition enrich_customer (df : list Row) (rfm : list Customer)
  (lp : list LastPurchase) (x : Row * (pystr * option Z)) : EnrichedRow :=
  let r := fst x in
  let c := 주문자연락처 r in
  mkEnriched r (GP_of r) (마진율_of r) (fst (snd x)) (고객유형_of df r)
    (merge_left rfm_주문자연락처 rfm_고객세그먼트 rfm c)
    (snd (snd x))
    (merge_left lp_주문자연락처 lp_이탈위험도 lp c)
    (match merge_left lp_주문자연락처 lp_미구매기간 lp c with
     | Some d => d
     | None => None
     end).

(** Without the column 주문자연락처 the customer features are not computed. *)
Definition enrich_plain (x : Row * pystr) : EnrichedRow :=
  let r := fst x in
  mkEnriched r (GP_of r) (마진율_of r) (snd x) 분석불가 None None None None.

(** [load_data], for the columns above. The remaining derived columns
    (weight and grade tags, weekday, discounts, cohort, lifetime value,
    anchor product, turnover, price band) are not represented. *)
Definition load_data (csv_files : list CsvFile) : result (list EnrichedRow) :=
  match csv_files with
  | [] => Ok []                                  (* return pd.DataFrame() *)
  | _ =>
      raw <- ingest csv_files ;;
      let df := map fill_amounts (rows raw) in
      regions <- Series_apply extract_region (map 주소 df) ;;
      if has_주문자연락처 raw then
        rfm <- rfm_table df ;;
        Ok (map (enrich_customer df rfm (last_purchase df))
                (combine df (combine regions (구매간격_column df))))
      else
        Ok (map enrich_plain (combine df regions))
  end.

(** ** Sample inputs *)

Definition day (n : Z) : Timestamp := n * NS_PER_DAY.

(** "서울특별시 강남구" and "제주특별자치도 제주시". *)
Definition 서울_강남 : pystr :=
  [49436; 50872; 53945; 48324; 49884; 32; 44053; 45224; 44396]%N.
Definition 제주_제주 : pystr :=
  [51228; 51452; 53945; 48324; 51088; 52824; 46020; 32; 51228; 51452; 49884]%N.

Definition line_a1 : Row :=
  mkRow "1001" "P-01" (Some "010-1111-2222"%string) (Some (day 0))
        (Some 30000) (Some 21000) (Some 서울_강남) "".
Definition line_b1 : Row :=
  mkRow "1002" "P-02" (Some "010-3333-4444"%string) (Some (day 10))
        (Some 0) (Some 5000) None "".
Definition line_a2 : Row :=
  mkRow "1003" "P-01" (Some "010-1111-2222"%string) (Some (day 20))
        None (Some 12000) (Some 제주_제주) "".

Definition sample_frame : DataFrame := mkFrame true [line_a1; line_b1; line_a2].

(** A file that reads under cp949. *)
Definition sample_file : CsvFile :=
  mkFile "orders_2024.csv" (fun _ => Ok sample_frame).

(** A file that reads under utf-8 only. *)
Definition utf8_file : CsvFile :=
  mkFile "orders_utf8.csv"
         (fun enc => match enc with
                     | cp949 => Raise UnicodeDecodeError
                     | utf_8 => Ok sample_frame
                     end).




(** The rank at position [i] of a column [xs] without missing values. *)
Definition rankZ (xs : list Z) (i : nat) : Z :=
  1 + count (ltb_na (nth i xs 0)) (map Some xs)
    + count (eqb_na (nth i xs 0)) (firstn i (map Some xs)).

(** The ranks 1, ..., n in increasing order. *)
Definition iotaZ (n : nat) : list Z := map Z.of_nat (seq 1 n).

(** The edge of rank [k] fifths of the way through the ranks of [n] values:
    [1 + k (n - 1) / 5]. *)
Definition edge (n : nat) (k : Z) : Q := (1 + ((k * (Z.of_nat n - 1)) # 5))%Q.

Definition edges (n : nat) : list Q := map (edge n) [0; 1; 2; 3; 4; 5].

(** The bin number [qcut] gives rank [r] among [n] values. *)
Definition bucket (n : nat) (r : Z) : nat :=
  if r =? 1 then 1%nat else searchsorted_left (edges n) (inject_Z r).
(** The score [qcut] with [labels] gives position [i] of a column [xs]
    without missing values. *)
Definition score_at (labels : list Z) (xs : list Z) (i : nat) : Z :=
  nth (bucket (List.length xs) (rankZ xs i) - 1) labels 0.

Definition labels_R : list Z := [5; 4; 3; 2; 1].
Definition labels_FM : list Z := [1; 2; 3; 4; 5].

(** The table [rfm] when the recencies of the customers are [rs]. *)
Definition rfm_rows (df : list Row) (rs : list Z) : list Customer :=
  let cs := customers df in
  let idx := seq 0 (List.length cs) in
  map (rfm_row df cs
         (map (score_at labels_R rs) idx)
         (map (score_at labels_FM (map (Frequency_of df) cs)) idx)
         (map (score_at labels_FM (map (Monetary_of df) cs)) idx))
      idx.

(** The cleansed rows of [sample_frame], their [rfm] table and its two
    customers, 010-1111-2222 (two orders, the latest on the last day) and
    010-3333-4444 (one order, ten days before). *)
Definition sample_df : list Row := map fill_amounts (rows sample_frame).

Definition sample_rfm : list Customer :=
  match rfm_table sample_df with
  | Ok rfm => rfm
  | Raise _ => []
  end.

Definition customer_a : Customer :=
  nth 0 sample_rfm (mkCustomer "" None 0 0 0 0 0 0 "").
Definition customer_b : Customer :=
  nth 1 sample_rfm (mkCustomer "" None 0 0 0 0 0 0 "").

(** A file whose rows all belong to one customer. *)
Definition single_customer_file : CsvFile :=
  mkFile "one_customer.csv" (fun _ => Ok (mkFrame true [line_a1; line_a2])).

(** The label [qcut] gives rank [r] among [n] values. *)
Definition label_of_rank (labels : list Z) (n : nat) (r : Z) : Z :=
  nth (bucket n r - 1) labels 0.

(** An order of one line: order id, customer, day and paid amount. *)
Definition order (id customer : string) (d paid : Z) : Row :=
  mkRow id "P-01" (Some customer) (Some (day d)) (Some paid) (Some 0) None "".

(** Five customers with one order each. *)
Definition five_customers : list Row :=
  [order "2001" "010-0000-0001" 1 10000;
   order "2002" "010-0000-0002" 2 20000;
   order "2003" "010-0000-0003" 3 30000;
   order "2004" "010-0000-0004" 4 40000;
   order "2005" "010-0000-0005" 5 50000].

(** Seven customers with one order each. *)
Definition seven_customers : list Row :=
  five_customers ++
  [order "2006" "010-0000-0006" 6 60000;
   order "2007" "010-0000-0007" 7 70000].

(** The rows of customer [c] with their index labels, in the order of
    [sort_values(['주문자연락처', '주문일'])]. *)
Definition customer_rows (df : list Row) (c : string) : list (nat * Row) :=
  filter (same_customer c) (sort_values (with_index df)).

(** The 구매간격 of the row with index label [i]. *)
Definition 구매간격_at (df : list Row) (i : nat) : option Z :=
  nth i (구매간격_column df) None.








(** [r] holds the cells of [r0]: every column but _source_file, with the
    customer either that of [r0] or missing. *)
Definition same_cells (r r0 : Row) : Prop :=
  key r = key r0 /\ 주문일 r = 주문일 r0 /\ 결제금액 r = 결제금액 r0 /\
  공급가 r = 공급가 r0 /\ 주소 r = 주소 r0 /\
  (주문자연락처 r = 주문자연락처 r0 \/ 주문자연락처 r = None).

(** The days a customer has been idle: from its last order to the latest
    order date of the table. *)
Definition idle_days (df : list Row) (c : string) : option Z :=
  days_between (max_date (map 주문일 df)) (max_date (map 주문일 (group df c))).

(** A line whose address is a space, an ideographic space and a tab, and a
    file holding it. *)
Definition blank_address_line : Row :=
  mkRow "1004" "P-03" (Some "010-3333-4444"%string) (Some (day 21))
        (Some 12000) (Some 8000) (Some [32; 12288; 9]%N) "".

Definition blank_address_file : CsvFile :=
  mkFile "blank_address.csv"
         (fun _ => Ok (mkFrame true [line_a1; line_b1; blank_address_line])).

(** ** Weight and grade tags (lines 77-82) *)

(** [str(name)] of a cell of 상품명: the text, "nan" for a missing cell. *)
Definition str_of (name : option pystr) : pystr :=
  match name with
  | Some s => s
  | None => [110; 97; 110]%N
  end.

Fixpoint starts_with (p s : pystr) : bool :=
  match p, s with
  | [], _ => true
  | _ :: _, [] => false
  | a :: p', b :: s' => (N.eqb a b && starts_with p' s')%bool
  end.

(** [re.search]: the match at the leftmost position that has one.
    [match_at] gives the match of the pattern at the start of a text. *)
Fixpoint re_search (match_at : pystr -> option pystr) (s : pystr) : option pystr :=
  match s with
  | [] => match_at []
  | _ :: t =>
      match match_at s with
      | Some m => Some m
      | None => re_search match_at t
      end
  end.

(** A pattern [(w1|w2|...)] of literal words at the start of a text: the
    first alternative, in the order written, that the text starts with. *)
Definition match_words (words : list pystr) (s : pystr) : option pystr :=
  find (fun w => starts_with w s) words.

(** 로얄과, 소과, 중대과, 대과, 특대과, 가정용, in the order of the pattern. *)
Definition grade_words : list pystr :=
  [[47196; 50564; 44284]; [49548; 44284]; [51473; 45824; 44284];
   [45824; 44284]; [53945; 45824; 44284]; [44032; 51221; 50857]]%N.

(** The longest prefix of code points satisfying [p], and the rest. *)
Fixpoint span (p : N -> bool) (s : pystr) : pystr * pystr :=
  match s with
  | [] => ([], [])
  | c :: t =>
      if p c then let (a, b) := span p t in (c :: a, b) else ([], s)
  end.

(** The pattern [\d+\.?\d*kg] at the start of a text. [is_decimal] is the
    class [\d], the decimal digits of the Unicode database. *)
Definition match_weight (is_decimal : N -> bool) (s : pystr) : option pystr :=
  let (d1, r1) := span is_decimal s in
  match d1 with
  | [] => None
  | _ =>
      let (dot, r2) := match r1 with
                       | c :: t => if N.eqb c 46 then ([46%N], t) else ([], r1)
                       | [] => ([], r1)
                       end in
      let (d2, r3) := span is_decimal r2 in
      match r3 with
      | k :: g :: _ =>
          if (N.eqb k 107 && N.eqb g 103)%bool
          then Some (d1 ++ dot ++ d2 ++ [107; 103]%N)
          else None
      | _ => None
      end
  end.

(** [extract_option(name, pattern)], the pattern given by its matcher. *)
Definition extract_option (match_at : pystr -> option pystr) (name : option pystr)
  : pystr :=
  match re_search match_at (str_of name) with
  | Some m => m
  | None => 기타
  end.

Definition 중량_of (is_decimal : N -> bool) (name : option pystr) : pystr :=
  extract_option (match_weight is_decimal) name.

Definition 등급_of (name : option pystr) : pystr :=
  extract_option (match_words grade_words) name.

(** The texts of the pattern [\d+\.?\d*kg]. *)
Definition weight_text (is_decimal : N -> bool) (m : pystr) : Prop :=
  exists d1 dot d2,
    m = d1 ++ dot ++ d2 ++ [107; 103]%N /\
    d1 <> [] /\ Forall (fun c => is_decimal c = true) d1 /\
    (dot = [] \/ dot = [46%N]) /\
    Forall (fun c => is_decimal c = true) d2.

(** [m] occurs in [s] after [pre], and no text of [lang] occurs in [s] at
    an earlier position. *)
Definition leftmost (lang : pystr -> Prop) (s pre m : pystr) : Prop :=
  (exists post, s = pre ++ m ++ post) /\ lang m /\
  forall pre' m' post',
    s = pre' ++ m' ++ post' -> lang m' ->
    (List.length pre <= List.length pre')%nat.

(** The ASCII digits. *)
Definition ascii_digit (c : N) : bool := ((48 <=? c) && (c <=? 57))%N%bool.

(** "감귤 3kg 대과" and "제주 감귤 특대과 2.5kg". *)
Definition 감귤_3kg_대과 : pystr :=
  [44048; 44516; 32; 51; 107; 103; 32; 45824; 44284]%N.
Definition 감귤_특대과_2_5kg : pystr :=
  [51228; 51452; 32; 44048; 44516; 32; 53945; 45824; 44284; 32; 50; 46; 53; 107; 103]%N.

(** A file with the column 주문자연락처 and no row (a header line only). *)
Definition header_only_file : CsvFile :=
  mkFile "header_only.csv" (fun _ => Ok (mkFrame true [])).

(** A file without the column 주문자연락처. *)
Definition no_contact_file : CsvFile :=
  mkFile "no_contact.csv"
         (fun _ => Ok (mkFrame false [line_a1; line_b1; line_a2])).

(** ** Weekday, hour and weekend (lines 103-108, 172) *)

(** [dt.dayofweek]: Monday is 0; the epoch, 1970-01-01, is a Thursday. *)
Definition dayofweek (t : Timestamp) : Z := (t / NS_PER_DAY + 3) mod 7.

Definition day_order : list string :=
  ["Monday"; "Tuesday"; "Wednesday"; "Thursday"; "Friday"; "Saturday"; "Sunday"]%string.

(** [dt.day_name()]. *)
Definition day_name (t : Timestamp) : string :=
  nth (Z.to_nat (dayofweek t)) day_order EmptyString.

Definition NS_PER_HOUR : Z := 3600 * 1000000000.

(** [dt.hour]. *)
Definition hour (t : Timestamp) : Z := (t mod NS_PER_DAY) / NS_PER_HOUR.

(** The column 주문요일: the day name, kept by [pd.Categorical] when it is
    one of [day_order]; NaN for NaT. *)
Definition 주문요일_of (d : option Timestamp) : option string :=
  match d with
  | Some t => if existsb (String.eqb (day_name t)) day_order
              then Some (day_name t) else None
  | None => None
  end.

Definition 주문시_of (d : option Timestamp) : option Z := option_map hour d.

Definition 주말 : string := "주말".
Definition 평일 : string := "평일".

(** Elementwise [>= 5]; False for NaN. *)
Definition ge5 (a : option Z) : bool :=
  match a with
  | Some x => 5 <=? x
  | None => false
  end.

Definition 주말여부_of (d : option Timestamp) : string :=
  np_where (ge5 (option_map dayofweek d)) 주말 평일.

(** ** Lifetime value (lines 159-166) *)

(** [min] of a datetime column, skipping NaT. *)
Fixpoint min_date (l : list (option Timestamp)) : option Timestamp :=
  match l with
  | [] => None
  | None :: t => min_date t
  | Some d :: t =>
      match min_date t with
      | Some m => Some (Z.min d m)
      | None => Some d
      end
  end.

(** The three columns of [cust_life] for customer [c]. *)
Definition 수명일수_of (df : list Row) (c : string) : option Z :=
  days_between (max_date (map 주문일 (group df c))) (min_date (map 주문일 (group df c))).

(** ['count'] of 주문일: the lines of the customer with an order date. *)
Definition 총구매건수_of (df : list Row) (c : string) : Z :=
  Z.of_nat (List.length (dropna (map 주문일 (group df c)))).

Definition 누적매출_of (df : list Row) (c : string) : Z :=
  sum_na (map 결제금액 (group df c)).

(** ** The sidebar filter (lines 240-260) *)

(** Streamlit refuses a widget whose key is already the key of a widget of
    the same run. *)
Inductive StreamlitError : Set := DuplicateWidgetID.

(** [st.checkbox(..., key=key)]: [keys] are the keys of the widgets made so
    far in the run and [state key] is the state of the box with that key;
    the call registers the key and returns the state. *)
Definition st_checkbox (state : string -> bool) (key : string) (keys : list string)
  : StreamlitError + bool * list string :=
  if existsb (String.eqb key) keys then inl DuplicateWidgetID
  else inr (state key, key :: keys).

(** The loop over [options]: a box per option, under the key
    [f"{key_prefix}_{opt}"]; the option is selected when "select all" is
    checked or its own box is. *)
Fixpoint option_boxes (all_checked : bool) (state : string -> bool)
  (key_prefix : string) (options : list string) (keys : list string)
  : StreamlitError + list string * list string :=
  match options with
  | [] => inr ([], keys)
  | opt :: rest =>
      match st_checkbox state (key_prefix ++ "_" ++ opt)%string keys with
      | inl e => inl e
      | inr (checked, keys1) =>
          match option_boxes all_checked state key_prefix rest keys1 with
          | inl e => inl e
          | inr (selected, keys2) =>
              inr (if (all_checked || checked)%bool then opt :: selected
                   else selected, keys2)
          end
      end
  end.

(** [checkbox_filter]: the selection and the keys of the run after the
    call, or the error of the first box whose key is taken. *)
Definition checkbox_filter (state : string -> bool) (options : list string)
  (key_prefix : string) (keys : list string)
  : StreamlitError + list string * list string :=
  match st_checkbox state (key_prefix ++ "_all")%string keys with
  | inl e => inl e
  | inr (all_checked, keys1) =>
      match option_boxes all_checked state key_prefix options keys1 with
      | inl e => inl e
      | inr ([], keys2) => inr (options, keys2)
      | inr (selected, keys2) => inr (selected, keys2)
      end
  end.

(** ** Unit price and price band (lines 212-213), and its sort key (line 887) *)

(** Line 212: the unit price of a line; 0 when the quantity is not
    positive. *)
Definition 단가_of (순매출 주문수량 : option Z) : fval :=
  np_where (gt0 주문수량) (truediv 순매출 주문수량) (Fin 0).

(** The decimal digits of a number, as code points. *)
Fixpoint uint_str (u : Decimal.uint) : pystr :=
  match u with
  | Decimal.Nil => []
  | Decimal.D0 u => 48%N :: uint_str u
  | Decimal.D1 u => 49%N :: uint_str u
  | Decimal.D2 u => 50%N :: uint_str u
  | Decimal.D3 u => 51%N :: uint_str u
  | Decimal.D4 u => 52%N :: uint_str u
  | Decimal.D5 u => 53%N :: uint_str u
  | Decimal.D6 u => 54%N :: uint_str u
  | Decimal.D7 u => 55%N :: uint_str u
  | Decimal.D8 u => 56%N :: uint_str u
  | Decimal.D9 u => 57%N :: uint_str u
  end.

(** A comma after every third digit, on the digits from the last to the
    first. *)
Fixpoint commas_rev (ds : pystr) : pystr :=
  match ds with
  | a :: b :: c :: rest =>
      match rest with
      | [] => ds
      | _ => a :: b :: c :: 44%N :: commas_rev rest
      end
  | _ => ds
  end.

(** [f"{x:,.0f}"] for an integer [x]: the sign, then the digits grouped by
    thousands. *)
Definition format_thousands (x : Z) : pystr :=
  (if x <? 0 then [45%N] else [])
  ++ rev (commas_rev (rev (uint_str (N.to_uint (Z.abs_N x))))).

(** "원대". *)
Definition 원대 : pystr := [50896; 45824]%N.

(** The band of a unit price as a number: [(단가 // 10000 * 10000)]. *)
Definition band_of (q : Q) : Z := Qfloor (q / 10000) * 10000.

(** Line 213: the price band label; [astype(int)] raises on a unit price
    that is not finite. *)
Definition 가격대_of (단가 : fval) : result pystr :=
  match 단가 with
  | Fin q => Ok (format_thousands (band_of q) ++ 원대)
  | _ => Raise ValueError
  end.

(** The pattern [(\d+)] at the start of a text. *)
Definition match_digits (is_decimal : N -> bool) (s : pystr) : option pystr :=
  match fst (span is_decimal s) with
  | [] => None
  | d => Some d
  end.

(** [int(s)] on a text of decimal digits. *)
Definition int_of_digits (digit_value : N -> N) (ds : pystr) : N :=
  fold_left (fun acc c => (10 * acc + digit_value c)%N) ds 0%N.

(** Line 887: the sort key of a band label: commas removed, then the first
    run of digits as an integer; no digit gives NaN, which [astype(int)]
    refuses. *)
Definition price_val (is_decimal : N -> bool) (digit_value : N -> N) (label : pystr)
  : result Z :=
  match re_search (match_digits is_decimal)
                  (filter (fun c => negb (N.eqb c 44)) label) with
  | Some ds => Ok (Z.of_N (int_of_digits digit_value ds))
  | None => Raise ValueError
  end.

Definition ascii_digit_value (c : N) : N := (c - 48)%N.

(** ** Discounts (lines 111-119, 169) *)

(** One cell of a discount column after lines 112-116:
    [pd.to_numeric(errors='coerce').fillna(0)] when the column is present
    ([x] is the parsed cell, NaN when it does not parse), 0 when it is
    not. *)
Definition discount_cell (present : bool) (x : option Z) : option Z :=
  if present then fillna0 x else Some 0.

(** Elementwise addition of two int64 columns; NaN propagates. *)
Definition add_na (a b : option Z) : option Z :=
  match a, b with
  | Some x, Some y => Some (int64 (x + y))
  | _, _ => None
  end.

Definition 총할인액_of (쿠폰 포인트 : option Z) : option Z := add_na 쿠폰 포인트.

(** Line 169. *)
Definition 개별할인율_of (결제 총할인액 : option Z) : fval :=
  np_where (gt0 결제) (truediv 총할인액 (add_na 결제 총할인액)) (Fin 0).

(** ** Growth matrix (lines 762-772) *)

Definition Star : string := "Star (주력성장)".
Definition Cash_Cow : string := "Cash Cow (수익효자)".
Definition Wild_Card : string := "Wild Card (박리다매)".
Definition Dog : string := "Dog (관리대상)".

(** [classify_growth] on a row of [prod_growth]: its revenue and its
    quantity, against the two means. *)
Definition classify_growth (avg_sales avg_qty : Q) (row : Z * Z) : string :=
  let sales := inject_Z (fst row) in
  let qty := inject_Z (snd row) in
  if (Qle_bool avg_sales sales && Qle_bool avg_qty qty)%bool then Star
  else if (Qle_bool avg_sales sales && Qltb qty avg_qty)%bool then Cash_Cow
  else if (Qltb sales avg_sales && Qle_bool avg_qty qty)%bool then Wild_Card
  else Dog.

(** The column 성장단계 of [prod_growth]. *)
Definition 성장단계_column (prod_growth : list (Z * Z)) : list string :=
  map (classify_growth (mean (map fst prod_growth)) (mean (map snd prod_growth)))
      prod_growth.

(** ** ABC analysis (lines 540-549) *)

(** The revenue column after [sort_values(ascending=False)]. *)
Definition sort_desc (l : list Z) : list Z := rev (sort_Z l).

(** Line 541: each revenue over the sum of the column. *)
Definition 매출비중_column (sales : list Z) : list fval :=
  map (fun s => truediv (Some s) (Some (fold_right Z.add 0 sales))) sales.

(** Float addition: NaN propagates, opposite infinities give NaN. *)
Definition fadd (a b : fval) : fval :=
  match a, b with
  | NaN, _ | _, NaN => NaN
  | Fin x, Fin y => Fin (x + y)
  | PosInf, NegInf | NegInf, PosInf => NaN
  | PosInf, _ | _, PosInf => PosInf
  | NegInf, _ | _, NegInf => NegInf
  end.

(** [Series.cumsum()] (skipna): a NaN cell stays NaN and adds nothing to
    the running sum. *)
Fixpoint cumsum_from (acc : fval) (l : list fval) : list fval :=
  match l with
  | [] => []
  | NaN :: t => NaN :: cumsum_from acc t
  | x :: t => fadd acc x :: cumsum_from (fadd acc x) t
  end.

Definition cumsum (l : list fval) : list fval := cumsum_from (Fin 0) l.

(** [x <= bound] on a float cell; False for NaN. *)
Definition fle (x : fval) (bound : Q) : bool :=
  match x with
  | Fin q => Qle_bool q bound
  | NegInf => true
  | PosInf | NaN => false
  end.

Definition grade_A : string := "A (핵심)".
Definition grade_B : string := "B (전략)".
Definition grade_C : string := "C (관리)".

(** [classify_abc] on the 누적비중 of a row. *)
Definition classify_abc (누적비중 : fval) : string :=
  if fle 누적비중 (7 # 10) then grade_A
  else if fle 누적비중 (9 # 10) then grade_B
  else grade_C.

(** The column ABC등급 of [abc_df], from the revenue column of
    [prod_agg]. *)
Definition ABC등급_column (sales : list Z) : list string :=
  map classify_abc (cumsum (매출비중_column (sort_desc sales))).

(** The running sums of [l] over [total], from [acc]. *)
Fixpoint running (total : Z) (acc : Q) (l : list Z) : list Q :=
  match l with
  | [] => []
  | s :: t =>
      let acc' := (acc + inject_Z s / inject_Z total)%Q in
      acc' :: running total acc' t
  end.

(** * Properties *)

(** ** The result monad and [Series_apply] *)

Lemma bind_Ok {A B : Type} (m : result A) (k : A -> result B) (b : B) :
  bind m k = Ok b -> exists a, m = Ok a /\ k a = Ok b.
Proof.
  destruct m as [a|e]; simpl; intros H; [eauto | discriminate].
Qed.

Lemma Series_apply_Ok {A B : Type} (f : A -> result B) (l : list A) (bs : list B) :
  Series_apply f l = Ok bs -> Forall2 (fun a b => f a = Ok b) l bs.
Proof.
  revert bs; induction l as [|a t IH]; simpl; intros bs H.
  - inversion H; constructor.
  - apply bind_Ok in H as (b & Hb & H).
    apply bind_Ok in H as (bs' & Hbs & H).
    inversion H; subst. constructor; auto.
Qed.

Lemma Series_apply_length {A B : Type} (f : A -> result B) (l : list A) (bs : list B) :
  Series_apply f l = Ok bs -> List.length bs = List.length l.
Proof.
  intros H. apply Series_apply_Ok in H.
  induction H; simpl; congruence.
Qed.

(** An exception of one element leaves [Series_apply] with an exception. *)
Lemma Series_apply_Raise {A B : Type} (f : A -> result B) (l : list A) (a : A) (e : Exception) :
  In a l -> f a = Raise e -> exists e', Series_apply f l = Raise e'.
Proof.
  induction l as [|x t IH]; simpl; intros Hin Hf; [contradiction|].
  destruct Hin as [->|Hin].
  - rewrite Hf. simpl. eauto.
  - destruct (f x); simpl; [|eauto].
    destruct (IH Hin Hf) as (e' & ->). simpl. eauto.
Qed.

(** When every exception of [f] is [e], so is that of [Series_apply f]. *)
Lemma Series_apply_Raise_only {A B : Type} (f : A -> result B) (e : Exception) :
  (forall a e', f a = Raise e' -> e' = e) ->
  forall l e', Series_apply f l = Raise e' -> e' = e.
Proof.
  intros Hf l; induction l as [|x t IH]; simpl; intros e' H; [discriminate|].
  destruct (f x) eqn:Hx; simpl in H.
  - destruct (Series_apply f t); simpl in H; [discriminate|].
    inversion H; subst. now apply IH.
  - inversion H; subst. eapply Hf; eauto.
Qed.

(** ** Ingestion *)

Lemma read_files_app (l1 l2 : list CsvFile) :
  read_files (l1 ++ l2) =
  (d1 <- read_files l1 ;; d2 <- read_files l2 ;; Ok (d1 ++ d2)).
Proof.
  induction l1 as [|f t IH]; simpl.
  - destruct (read_files l2); reflexivity.
  - destruct (read_file f); simpl; [|reflexivity].
    rewrite IH. destruct (read_files t); simpl; [|reflexivity].
    destruct (read_files l2); reflexivity.
Qed.



Lemma read_files_In (csv_files : list CsvFile) (ds : list DataFrame) (d : DataFrame) :
  read_files csv_files = Ok ds -> In d ds ->
  exists f, In f csv_files /\ read_file f = Ok d.
Proof.
  revert ds; induction csv_files as [|f t IH]; simpl; intros ds H Hd.
  - inversion H; subst. contradiction.
  - apply bind_Ok in H as (d0 & Hf & H). apply bind_Ok in H as (ds0 & Ht & H).
    inversion H; subst. destruct Hd as [<-|Hd]; [eauto|].
    destruct (IH ds0 Ht Hd) as (f' & Hin & Hr). eauto.
Qed.

Lemma read_file_Ok (f : CsvFile) (d : DataFrame) :
  read_file f = Ok d ->
  exists enc frame, read_csv f enc = Ok frame /\ d = tag_source f frame.
Proof.
  unfold read_file. destruct (read_csv f cp949) as [frame|e] eqn:E1.
  - intros H. inversion H. eauto.
  - intros H. apply bind_Ok in H as (frame & E2 & H). inversion H. eauto.
Qed.

Lemma concat_rows (ds : list DataFrame) (df : DataFrame) :
  concat ds = Ok df ->
  rows df = flat_map (fun d => if has_주문자연락처 d then rows d
                               else map clear_주문자연락처 (rows d)) ds.
Proof.
  unfold concat. destruct ds; [discriminate|].
  intros H. inversion H. reflexivity.
Qed.

(** ** Financial columns *)




Lemma int64_exact (z : Z) : - 2 ^ 63 <= z < 2 ^ 63 -> int64 z = z.
Proof.
  intros H. unfold int64. rewrite Z.mod_small; [lia|].
  change (2 ^ 64) with (2 * 2 ^ 63). lia.
Qed.





(** ** Region *)

Lemma split_from_spaces (a : pystr) :
  Forall (fun c => is_space c = true) a -> split_from [] a = [].
Proof.
  induction 1 as [|c t Hc _ IH]; simpl; [reflexivity|].
  rewrite Hc. exact IH.
Qed.

Lemma extract_region_Raise (address : option pystr) (e : Exception) :
  extract_region address = Raise e -> e = IndexError.
Proof.
  unfold extract_region.
  destruct address as [[|c t]|]; try discriminate.
  destruct (split (c :: t)); [|discriminate].
  intros H; inversion H; reflexivity.
Qed.

Lemma ingest_nonempty (csv_files : list CsvFile) (raw : DataFrame) :
  ingest csv_files = Ok raw -> csv_files <> [].
Proof.
  intros H ->. vm_compute in H. discriminate.
Qed.

(** C9. A non-empty address made of whitespace only passes the guard of
    [extract_region], splits into no token, and raises IndexError; a table
    holding such a row after de-duplication makes [load_data] raise it
    instead of giving the region "기타". *)
Theorem extract_region_whitespace_only :
  forall a : pystr,
    a <> [] ->
    Forall (fun c => is_space c = true) a ->
    split a = [] /\
    extract_region (Some a) = Raise IndexError /\
    (forall (csv_files : list CsvFile) (raw : DataFrame) (r : Row),
        ingest csv_files = Ok raw -> In r (rows raw) -> 주소 r = Some a ->
        load_data csv_files = Raise IndexError).
Proof.
  intros a Hne Hws.
  assert (Hsplit : split a = []) by (apply split_from_spaces; exact Hws).
  assert (Hreg : extract_region (Some a) = Raise IndexError).
  { unfold extract_region. destruct a as [|c t]; [congruence|]. now rewrite Hsplit. }
  repeat split; auto.
  intros csv_files raw r Hing Hin Haddr.
  unfold load_data. pose proof (ingest_nonempty _ _ Hing) as Hfiles.
  destruct csv_files as [|f fs]; [congruence|].
  rewrite Hing. simpl.
  assert (Hrow : In (Some a) (map 주소 (map fill_amounts (rows raw)))).
  { rewrite map_map. apply in_map_iff. exists r. split; [exact Haddr | exact Hin]. }
  destruct (Series_apply_Raise extract_region _ _ _ Hrow Hreg) as (e' & He').
  rewrite He'. simpl. f_equal.
  eapply Series_apply_Raise_only; [|exact He'].
  intros x e. apply extract_region_Raise.
Qed.

Lemma extract_region_whitespace_only_witness :
  extract_region (Some [32; 12288; 9]%N) = Raise IndexError /\
  load_data [blank_address_file] = Raise IndexError.
Proof.
  destruct (extract_region_whitespace_only [32; 12288; 9]%N) as (_ & Hreg & Hload).
  - discriminate.
  - repeat constructor.
  - split; [exact Hreg|].
    apply (Hload [blank_address_file]
                 (mkFrame true (map (set_source_file "blank_address.csv")
                                    [line_a1; line_b1; blank_address_line]))
                 (set_source_file "blank_address.csv" blank_address_line)).
    + vm_compute. reflexivity.
    + simpl. auto.
    + reflexivity.
Defined.

(** ** De-duplication *)

Lemma key_eqb_eq (r1 r2 : Row) : key_eqb r1 r2 = true <-> key r1 = key r2.
Proof.
  unfold key_eqb, key. rewrite andb_true_iff, !String.eqb_eq.
  split; [intros (-> & ->); reflexivity | intros H; inversion H; auto].
Qed.

Lemma later_key_In (r : Row) (t : list Row) :
  existsb (key_eqb r) t = true <-> In (key r) (map key t).
Proof.
  rewrite existsb_exists, in_map_iff. split.
  - intros (x & Hx & E). exists x. apply key_eqb_eq in E. auto.
  - intros (x & E & Hx). exists x. split; [exact Hx | now apply key_eqb_eq].
Qed.

Lemma later_key_not_In (r : Row) (t : list Row) :
  existsb (key_eqb r) t = false <-> ~ In (key r) (map key t).
Proof.
  rewrite <- later_key_In. destruct (existsb (key_eqb r) t); split; congruence.
Qed.

Lemma drop_duplicates_keys (l : list Row) (k : string * string) :
  In k (map key (drop_duplicates l)) <-> In k (map key l).
Proof.
  induction l as [|r t IH]; simpl; [tauto|].
  destruct (existsb (key_eqb r) t) eqn:E; simpl; rewrite IH.
  - apply later_key_In in E. split; [tauto|]. intros [<-|H]; auto.
  - tauto.
Qed.

Lemma drop_duplicates_NoDup (l : list Row) : NoDup (map key (drop_duplicates l)).
Proof.
  induction l as [|r t IH]; simpl; [constructor|].
  destruct (existsb (key_eqb r) t) eqn:E; simpl; [exact IH|].
  constructor; [|exact IH].
  rewrite drop_duplicates_keys. now apply later_key_not_In.
Qed.

Lemma drop_duplicates_fixed (l : list Row) :
  NoDup (map key l) -> drop_duplicates l = l.
Proof.
  induction l as [|r t IH]; simpl; intros H; [reflexivity|].
  inversion H as [|? ? Hnotin Hnd]; subst.
  apply later_key_not_In in Hnotin. rewrite Hnotin. f_equal. auto.
Qed.

(** The survivors are the last occurrences. *)
Lemma drop_duplicates_In (l : list Row) (r : Row) :
  In r (drop_duplicates l) <->
  exists l1 l2, l = l1 ++ r :: l2 /\ ~ In (key r) (map key l2).
Proof.
  induction l as [|x t IH]; simpl.
  - split; [contradiction|]. intros (l1 & l2 & H & _). destruct l1; discriminate.
  - destruct (existsb (key_eqb x) t) eqn:E.
    + rewrite IH. split.
      * intros (l1 & l2 & -> & Hn). exists (x :: l1), l2. auto.
      * intros (l1 & l2 & H & Hn). destruct l1 as [|y l1]; simpl in H; inversion H; subst.
        -- apply later_key_In in E. contradiction.
        -- eauto.
    + split.
      * intros [<-|H].
        -- exists [], t. split; [reflexivity | now apply later_key_not_In].
        -- apply IH in H as (l1 & l2 & -> & Hn). exists (x :: l1), l2. auto.
      * intros (l1 & l2 & H & Hn). destruct l1 as [|y l1]; simpl in H; inversion H; subst.
        -- now left.
        -- right. apply IH. eauto.
Qed.

Lemma drop_duplicates_app (l1 l2 : list Row) :
  drop_duplicates (l1 ++ l2) =
  filter (fun r => negb (existsb (key_eqb r) l2)) (drop_duplicates l1)
  ++ drop_duplicates l2.
Proof.
  induction l1 as [|r t IH]; simpl; [reflexivity|].
  rewrite existsb_app.
  destruct (existsb (key_eqb r) t) eqn:E; simpl; [exact IH|].
  destruct (existsb (key_eqb r) l2); simpl; rewrite IH; reflexivity.
Qed.

Lemma filter_none {A : Type} (f : A -> bool) (l : list A) :
  (forall a, In a l -> f a = false) -> filter f l = [].
Proof.
  induction l as [|a t IH]; simpl; intros H; [reflexivity|].
  rewrite (H a (or_introl eq_refl)). apply IH. intros b Hb. apply H. now right.
Qed.

Lemma ingest_twice (csv_files : list CsvFile) :
  ingest (csv_files ++ csv_files) = ingest csv_files.
Proof.
  unfold ingest. rewrite read_files_app.
  destruct (read_files csv_files) as [ds|e]; simpl; [|reflexivity].
  destruct ds as [|d ds]; [reflexivity|].
  unfold concat. simpl app.
  cbv beta iota. 
  change (d :: ds ++ d :: ds) with ((d :: ds) ++ (d :: ds)).
  rewrite existsb_app, orb_diag, flat_map_app.
  simpl bind. rewrite drop_duplicates_app, filter_none; [reflexivity|].
  intros r Hr. apply negb_false_iff.
  apply later_key_In. apply drop_duplicates_keys.
  apply in_map. exact Hr.
Qed.

(** *** De-duplication of the ingested table *)

(** The rows after [pd.concat] are the rows of the frames in order, cell
    by cell. *)
Lemma concat_cells (ds : list DataFrame) (df : DataFrame) :
  concat ds = Ok df ->
  Forall2 (fun r r0 => same_cells r r0 /\ _source_file r = _source_file r0)
          (rows df) (flat_map rows ds).
Proof.
  intros H. rewrite (concat_rows _ _ H). clear H.
  induction ds as [|d t IH]; simpl; [constructor|].
  apply Forall2_app; [|exact IH].
  destruct (has_주문자연락처 d).
  - induction (rows d) as [|r l IHl]; constructor; [|exact IHl].
    unfold same_cells. repeat split; auto.
  - induction (rows d) as [|r l IHl]; simpl; constructor; [|exact IHl].
    unfold same_cells. repeat split; auto.
Qed.

Lemma cells_keys (l l' : list Row) :
  Forall2 (fun r r0 => same_cells r r0 /\ _source_file r = _source_file r0) l l' ->
  map key l = map key l'.
Proof.
  induction 1 as [|r r0 l l' ((Hk & _) & _) _ IH]; simpl; [reflexivity|].
  now rewrite Hk, IH.
Qed.

Lemma ingest_Ok (csv_files : list CsvFile) (frames : list DataFrame) :
  read_files csv_files = Ok frames -> csv_files <> [] ->
  exists df, concat frames = Ok df /\
             ingest csv_files
             = Ok (mkFrame (has_주문자연락처 df) (drop_duplicates (rows df))).
Proof.
  intros Hread Hne. unfold ingest. rewrite Hread. simpl.
  destruct frames as [|d t].
  - destruct csv_files as [|f fs]; [congruence|]. simpl in Hread.
    destruct (read_file f); simpl in Hread; [|discriminate].
    destruct (read_files fs); simpl in Hread; discriminate.
  - eexists. split; reflexivity.
Qed.

(** The keys of the ingested table are those of the rows read. *)
Lemma ingest_keys (csv_files : list CsvFile) (frames : list DataFrame)
      (table : DataFrame) (k : string * string) :
  read_files csv_files = Ok frames -> ingest csv_files = Ok table ->
  In k (map key (rows table)) <-> In k (map key (flat_map rows frames)).
Proof.
  intros Hread Hing.
  destruct (ingest_Ok _ _ Hread (ingest_nonempty _ _ Hing)) as (df & Hdf & E).
  rewrite E in Hing. injection Hing as <-. cbn [rows].
  rewrite drop_duplicates_keys, (cells_keys _ _ (concat_cells _ _ Hdf)). tauto.
Qed.

(** The last row read with a key is in the ingested table, cell by cell. *)
Lemma ingest_last (csv_files : list CsvFile) (frames : list DataFrame)
      (table : DataFrame) (l1 l2 : list Row) (r0 : Row) :
  read_files csv_files = Ok frames -> ingest csv_files = Ok table ->
  flat_map rows frames = l1 ++ r0 :: l2 -> ~ In (key r0) (map key l2) ->
  exists r, In r (rows table) /\ same_cells r r0 /\ _source_file r = _source_file r0.
Proof.
  intros Hread Hing Hsplit Hlast.
  destruct (ingest_Ok _ _ Hread (ingest_nonempty _ _ Hing)) as (df & Hdf & E).
  rewrite E in Hing. injection Hing as <-. cbn [rows].
  pose proof (concat_cells _ _ Hdf) as Hcells. rewrite Hsplit in Hcells.
  apply Forall2_app_inv_r in Hcells as (m1 & m2 & _ & Hm2 & Hrows).
  inversion Hm2 as [|r ? m2' ? (Hc & Hs) Hrest]; subst.
  exists r. split; [|split; assumption].
  apply drop_duplicates_In. exists m1, m2'. split; [exact Hrows|].
  rewrite (cells_keys _ _ Hrest). destruct Hc as (-> & _). exact Hlast.
Qed.

(** A row of the ingested table is the last row read with its key. *)
Lemma ingest_is_last (csv_files : list CsvFile) (frames : list DataFrame)
      (table : DataFrame) (r : Row) :
  read_files csv_files = Ok frames -> ingest csv_files = Ok table ->
  In r (rows table) ->
  exists l1 r0 l2,
    flat_map rows frames = l1 ++ r0 :: l2 /\ ~ In (key r0) (map key l2) /\
    same_cells r r0 /\ _source_file r = _source_file r0.
Proof.
  intros Hread Hing Hr.
  destruct (ingest_Ok _ _ Hread (ingest_nonempty _ _ Hing)) as (df & Hdf & E).
  rewrite E in Hing. injection Hing as <-. cbn [rows] in Hr.
  apply drop_duplicates_In in Hr as (m1 & m2 & Hrows & Hlast).
  pose proof (concat_cells _ _ Hdf) as Hcells. rewrite Hrows in Hcells.
  apply Forall2_app_inv_l in Hcells as (l1 & l2 & _ & Hl2 & Hsplit).
  inversion Hl2 as [|? r0 ? l2' (Hc & Hs) Hrest]; subst.
  exists l1, r0, l2'. split; [exact Hsplit|]. split; [|split; assumption].
  rewrite <- (cells_keys _ _ Hrest). destruct Hc as (<- & _). exact Hlast.
Qed.

(** C3. Ingesting the same files a second time on top of the first gives
    the same table. The ingested table has every key (주문번호, 상품코드) of
    the rows read, each exactly once, and the row it keeps for a key is the
    last row read with that key, in the order of the files and of their
    rows, with the cells of that row; de-duplicating the table again
    changes nothing. *)
Theorem drop_duplicates_keep_last :
  (forall csv_files : list CsvFile,
      ingest (csv_files ++ csv_files) = ingest csv_files) /\
  (forall (csv_files : list CsvFile) (frames : list DataFrame),
      read_files csv_files = Ok frames -> csv_files <> [] ->
      exists table : DataFrame,
        ingest csv_files = Ok table /\
        NoDup (map key (rows table)) /\
        (forall k, In k (map key (rows table)) <->
                   In k (map key (flat_map rows frames))) /\
        (forall l1 r0 l2,
            flat_map rows frames = l1 ++ r0 :: l2 ->
            ~ In (key r0) (map key l2) ->
            exists r, In r (rows table) /\ same_cells r r0 /\
                      _source_file r = _source_file r0) /\
        (forall r, In r (rows table) ->
            exists l1 r0 l2,
              flat_map rows frames = l1 ++ r0 :: l2 /\
              ~ In (key r0) (map key l2) /\
              same_cells r r0 /\ _source_file r = _source_file r0) /\
        drop_duplicates (rows table) = rows table).
Proof.
  split; [exact ingest_twice|].
  intros csv_files frames Hread Hne.
  destruct (ingest_Ok _ _ Hread Hne) as (df & Hdf & E).
  eexists. split; [exact E|]. split; [|split; [|split; [|split]]].
  - apply drop_duplicates_NoDup.
  - intros k. exact (ingest_keys _ _ _ k Hread E).
  - intros l1 r0 l2. exact (ingest_last _ _ _ l1 l2 r0 Hread E).
  - intros r. exact (ingest_is_last _ _ _ r Hread E).
  - apply drop_duplicates_fixed, drop_duplicates_NoDup.
Qed.

Lemma drop_duplicates_keep_last_witness :
  exists table : DataFrame,
    ingest [sample_file; utf8_file] = Ok table /\
    NoDup (map key (rows table)) /\
    (forall k, In k (map key (rows table)) <->
               In k (map key (flat_map rows
                         [tag_source sample_file sample_frame;
                          tag_source utf8_file sample_frame]))) /\
    (forall l1 r0 l2,
        flat_map rows [tag_source sample_file sample_frame;
                       tag_source utf8_file sample_frame] = l1 ++ r0 :: l2 ->
        ~ In (key r0) (map key l2) ->
        exists r, In r (rows table) /\ same_cells r r0 /\
                  _source_file r = _source_file r0) /\
    (forall r, In r (rows table) ->
        exists l1 r0 l2,
          flat_map rows [tag_source sample_file sample_frame;
                         tag_source utf8_file sample_frame] = l1 ++ r0 :: l2 /\
          ~ In (key r0) (map key l2) /\
          same_cells r r0 /\ _source_file r = _source_file r0) /\
    drop_duplicates (rows table) = rows table.
Proof.
  apply (proj2 drop_duplicates_keep_last [sample_file; utf8_file]).
  - reflexivity.
  - discriminate.
Defined.


(** ** Counting and ranks *)

Lemma count_app {A : Type} (p : A -> bool) (l1 l2 : list A) :
  count p (l1 ++ l2) = count p l1 + count p l2.
Proof.
  unfold count. rewrite filter_app, length_app. lia.
Qed.

Lemma count_cons {A : Type} (p : A -> bool) (a : A) (l : list A) :
  count p (a :: l) = (if p a then 1 else 0) + count p l.
Proof.
  unfold count. simpl. destruct (p a); simpl List.length; lia.
Qed.

Lemma count_bounds {A : Type} (p : A -> bool) (l : list A) :
  0 <= count p l <= Z.of_nat (List.length l).
Proof.
  unfold count. pose proof (filter_length_le p l). lia.
Qed.

(** Two disjoint predicates below a third: the counts add up below it. *)
Lemma count_sum_le {A : Type} (p q r : A -> bool) (l : list A) :
  (forall a, (if p a then 1 else 0) + (if q a then 1 else 0) <= (if r a then 1 else 0)) ->
  count p l + count q l <= count r l.
Proof.
  intros H. induction l as [|a t IH].
  - unfold count; simpl; lia.
  - rewrite !count_cons. specialize (H a). lia.
Qed.

Lemma split_at {A : Type} (l : list A) (i : nat) (d : A) :
  (i < List.length l)%nat ->
  l = firstn i l ++ nth i l d :: skipn (S i) l.
Proof.
  revert i; induction l as [|a t IH]; simpl; intros i Hi; [lia|].
  destruct i as [|i]; simpl; [reflexivity|].
  f_equal. apply IH. lia.
Qed.

Lemma firstn_split_at {A : Type} (l : list A) (i j : nat) (d : A) :
  (i < j)%nat -> (j <= List.length l)%nat ->
  firstn j l = firstn i l ++ nth i l d :: skipn (S i) (firstn j l).
Proof.
  intros Hij Hj.
  rewrite (split_at (firstn j l) i d) at 1 by (rewrite length_firstn; lia).
  rewrite firstn_firstn, nth_firstn.
  replace (Nat.min i j) with i by lia.
  destruct (i <? j)%nat eqn:E; [reflexivity|]. apply Nat.ltb_ge in E. lia.
Qed.

Lemma eqb_na_refl (a : Z) : eqb_na a (Some a) = true.
Proof. apply Z.eqb_refl. Qed.

Lemma ltb_na_irrefl (a : Z) : ltb_na a (Some a) = false.
Proof. apply Z.ltb_irrefl. Qed.

(** The rank of position [i] in a column without missing values. *)
Lemma rank_at_Some (xs : list Z) (i : nat) :
  (i < List.length xs)%nat ->
  rank_at (map Some xs) i =
  Some (1 + count (ltb_na (nth i xs 0)) (map Some xs)
          + count (eqb_na (nth i xs 0)) (firstn i (map Some xs))).
Proof.
  intros Hi. unfold rank_at.
  rewrite nth_error_map, (nth_error_nth' xs 0 Hi). reflexivity.
Qed.

Lemma rank_first_Some (xs : list Z) :
  rank_first (map Some xs) = map Some (map (rankZ xs) (seq 0 (List.length xs))).
Proof.
  unfold rank_first. rewrite length_map, map_map.
  apply map_ext_in. intros i Hi. apply in_seq in Hi.
  apply rank_at_Some. lia.
Qed.

(** Ranks follow the values, and among equal values the positions. *)
Lemma rankZ_lt (xs : list Z) (i j : nat) :
  (i < List.length xs)%nat -> (j < List.length xs)%nat ->
  nth i xs 0 < nth j xs 0 \/ (nth i xs 0 = nth j xs 0 /\ (i < j)%nat) ->
  rankZ xs i < rankZ xs j.
Proof.
  intros Hi Hj H. unfold rankZ.
  remember (nth i xs 0) as a eqn:Ha. remember (nth j xs 0) as b eqn:Hb.
  remember (map Some xs) as ys eqn:Hys.
  assert (Hlen : List.length ys = List.length xs) by (subst ys; apply length_map).
  assert (Hnth : nth i ys None = Some a).
  { subst ys a. rewrite (nth_indep _ None (Some 0)) by (rewrite length_map; lia).
    apply (map_nth Some xs 0 i). }
  destruct H as [Hlt | (Heq & Hij)].
  - (* smaller value *)
    assert (H1 : count (eqb_na a) (firstn i ys) + 1 <= count (eqb_na a) ys).
    { rewrite (split_at ys i None) at 2 by lia.
      rewrite count_app, count_cons, Hnth, eqb_na_refl.
      pose proof (count_bounds (eqb_na a) (skipn (S i) ys)). lia. }
    assert (H2 : count (ltb_na a) ys + count (eqb_na a) ys <= count (ltb_na b) ys).
    { apply count_sum_le. intros [w|]; simpl; [|lia].
      destruct (w <? a) eqn:E1; destruct (w =? a) eqn:E2; destruct (w <? b) eqn:E3;
        lia. }
    pose proof (count_bounds (eqb_na b) (firstn j ys)). lia.
  - (* equal value, earlier position *)
    rewrite <- Heq.
    assert (H1 : count (eqb_na a) (firstn i ys) + 1 <= count (eqb_na a) (firstn j ys)).
    { rewrite (firstn_split_at ys i j None) at 1 by lia.
      rewrite count_app, count_cons, Hnth, eqb_na_refl.
      pose proof (count_bounds (eqb_na a) (skipn (S i) (firstn j ys))). lia. }
    lia.
Qed.

Lemma rankZ_range (xs : list Z) (i : nat) :
  (i < List.length xs)%nat -> 1 <= rankZ xs i <= Z.of_nat (List.length xs).
Proof.
  intros Hi. unfold rankZ.
  remember (nth i xs 0) as a eqn:Ha. remember (map Some xs) as ys eqn:Hys.
  assert (Hlen : List.length ys = List.length xs) by (subst ys; apply length_map).
  assert (Hnth : nth i ys None = Some a).
  { subst ys a. rewrite (nth_indep _ None (Some 0)) by (rewrite length_map; lia).
    apply (map_nth Some xs 0 i). }
  pose proof (count_bounds (ltb_na a) ys).
  pose proof (count_bounds (eqb_na a) (firstn i ys)).
  split; [lia|].
  rewrite (split_at ys i None) at 1 by lia.
  rewrite !count_app, count_cons, Hnth, ltb_na_irrefl.
  assert (count (ltb_na a) (firstn i ys) + count (eqb_na a) (firstn i ys)
          <= Z.of_nat (List.length (firstn i ys))).
  { etransitivity; [|apply (count_bounds (fun _ => true))].
    apply count_sum_le. intros [w|]; simpl; [|lia].
    destruct (w <? a) eqn:E1; destruct (w =? a) eqn:E2; lia. }
  pose proof (count_bounds (ltb_na a) (skipn (S i) ys)).
  rewrite length_firstn in *. rewrite length_skipn in *. lia.
Qed.

Lemma rankZ_inj (xs : list Z) (i j : nat) :
  (i < List.length xs)%nat -> (j < List.length xs)%nat ->
  rankZ xs i = rankZ xs j -> i = j.
Proof.
  intros Hi Hj E.
  destruct (Z.lt_trichotomy (nth i xs 0) (nth j xs 0)) as [H|[H|H]].
  - pose proof (rankZ_lt xs i j Hi Hj (or_introl H)). lia.
  - destruct (Nat.lt_trichotomy i j) as [L|[L|L]]; [|exact L|].
    + pose proof (rankZ_lt xs i j Hi Hj (or_intror (conj H L))). lia.
    + pose proof (rankZ_lt xs j i Hj Hi (or_intror (conj (eq_sym H) L))). lia.
  - pose proof (rankZ_lt xs j i Hj Hi (or_introl H)). lia.
Qed.

Lemma In_iotaZ (n : nat) (z : Z) : In z (iotaZ n) <-> 1 <= z <= Z.of_nat n.
Proof.
  unfold iotaZ. rewrite in_map_iff. split.
  - intros (k & <- & Hk). apply in_seq in Hk. lia.
  - intros H. exists (Z.to_nat z). split; [lia|]. apply in_seq. lia.
Qed.

(** The ranks of a column of [n] values are 1, ..., n in some order. *)
Lemma ranks_Permutation (xs : list Z) :
  Permutation (map (rankZ xs) (seq 0 (List.length xs))) (iotaZ (List.length xs)).
Proof.
  apply NoDup_Permutation_bis.
  - apply NoDup_map_NoDup_ForallPairs; [|apply seq_NoDup].
    intros i j Hi Hj E. apply in_seq in Hi, Hj.
    apply (rankZ_inj xs); [lia | lia | exact E].
  - unfold iotaZ. rewrite !length_map, !length_seq. lia.
  - intros z Hz. apply in_map_iff in Hz as (i & <- & Hi). apply in_seq in Hi.
    apply In_iotaZ. apply rankZ_range. lia.
Qed.

(** ** Sorting the ranks *)

Lemma insert_Z_Permutation (v : Z) (l : list Z) : Permutation (insert_Z v l) (v :: l).
Proof.
  induction l as [|y t IH]; simpl; [reflexivity|].
  destruct (v <=? y); [reflexivity|].
  rewrite IH. apply perm_swap.
Qed.

Lemma sort_Z_Permutation (l : list Z) : Permutation (sort_Z l) l.
Proof.
  induction l as [|v t IH]; simpl; [reflexivity|].
  rewrite insert_Z_Permutation. now apply perm_skip.
Qed.

Lemma insert_Z_sorted (v : Z) (l : list Z) :
  StronglySorted Z.le l -> StronglySorted Z.le (insert_Z v l).
Proof.
  induction 1 as [|y t Hs IH Hy]; simpl.
  - repeat constructor.
  - destruct (v <=? y) eqn:E.
    + apply Z.leb_le in E. constructor; [now constructor|].
      constructor; [exact E|].
      eapply Forall_impl; [|exact Hy]. intros; lia.
    + apply Z.leb_gt in E. constructor; [exact IH|].
      apply Forall_forall. intros z Hz.
      apply (Permutation_in _ (insert_Z_Permutation v t)) in Hz.
      destruct Hz as [<-|Hz]; [lia|].
      rewrite Forall_forall in Hy. now apply Hy.
Qed.

Lemma sort_Z_sorted (l : list Z) : StronglySorted Z.le (sort_Z l).
Proof.
  induction l as [|v t IH]; simpl; [constructor | now apply insert_Z_sorted].
Qed.

(** A list has one sorted arrangement. *)
Lemma sorted_Permutation_eq (l1 l2 : list Z) :
  StronglySorted Z.le l1 -> StronglySorted Z.le l2 -> Permutation l1 l2 -> l1 = l2.
Proof.
  intros H1; revert l2; induction H1 as [|a t1 Hs1 IH Ha]; intros l2 H2 HP.
  - apply Permutation_nil in HP. now subst.
  - destruct H2 as [|b t2 Hs2 Hb].
    + apply Permutation_sym, Permutation_nil in HP. discriminate.
    + assert (a = b).
      { rewrite Forall_forall in Ha, Hb.
        assert (Hb1 : In b (a :: t1))
          by (apply (Permutation_in _ (Permutation_sym HP)); now left).
        assert (Ha1 : In a (b :: t2))
          by (apply (Permutation_in _ HP); now left).
        destruct Hb1 as [E|Hb1]; [exact E|].
        destruct Ha1 as [E|Ha1]; [now symmetry|].
        specialize (Ha _ Hb1). specialize (Hb _ Ha1). lia. }
      subst b. f_equal. apply IH; [exact Hs2|].
      now apply Permutation_cons_inv in HP.
Qed.

Lemma iotaZ_sorted (n : nat) : StronglySorted Z.le (iotaZ n).
Proof.
  unfold iotaZ. generalize 1%nat as s.
  induction n as [|n IH]; intros s; simpl; constructor; [apply IH|].
  apply Forall_forall. intros z Hz.
  apply in_map_iff in Hz as (k & <- & Hk). apply in_seq in Hk. lia.
Qed.

Lemma dropna_map_Some {A : Type} (l : list A) : dropna (map Some l) = l.
Proof.
  induction l as [|a t IH]; simpl; congruence.
Qed.

(** The sorted ranks of a column of [n] values are 1, ..., n. *)
Lemma sort_ranks (xs : list Z) :
  sort_Z (dropna (rank_first (map Some xs))) = iotaZ (List.length xs).
Proof.
  rewrite rank_first_Some, dropna_map_Some.
  apply sorted_Permutation_eq.
  - apply sort_Z_sorted.
  - apply iotaZ_sorted.
  - rewrite sort_Z_Permutation. apply ranks_Permutation.
Qed.

Lemma length_iotaZ n : List.length (iotaZ n) = n.
Proof. unfold iotaZ. now rewrite length_map, length_seq. Qed.

Lemma nth_iotaZ n k : (k < n)%nat -> nth k (iotaZ n) 0 = Z.of_nat k + 1.
Proof.
  intros H. unfold iotaZ.
  change 0 with (Z.of_nat 0). rewrite map_nth, seq_nth by lia. lia.
Qed.

Lemma quantile_iotaZ (n : nat) (a : Z) (b : positive) :
  (1 <= n)%nat -> 0 <= a <= Zpos b ->
  (quantile (iotaZ n) (a # b) == 1 + ((a * (Z.of_nat n - 1)) # b))%Q.
Proof.
  intros Hn Ha. unfold quantile. rewrite length_iotaZ.
  remember (Z.of_nat n - 1) as m eqn:Hm.
  assert (Hm0 : 0 <= m) by lia.
  assert (Hpos : ((a # b) * inject_Z m == a * m # b)%Q).
  { unfold Qeq, Qmult, inject_Z. cbn [Qnum Qden]. rewrite Pos.mul_1_r. reflexivity. }
  remember ((a # b) * inject_Z m)%Q as pos eqn:Hp.
  assert (Hlo : Qfloor pos = a * m / Zpos b) by (rewrite Hpos; reflexivity).
  assert (Hhi : Qceiling pos = - (- (a * m) / Zpos b)) by (rewrite Hpos; reflexivity).
  rewrite Hlo, Hhi.
  remember (a * m / Zpos b) as f eqn:Hf.
  remember (- (a * m) / Zpos b) as g eqn:Hg.
  assert (Hf1 : Zpos b * f <= a * m < Zpos b * f + Zpos b).
  { subst f. pose proof (Z.mul_div_le (a*m) (Zpos b) ltac:(lia)).
    pose proof (Z.mul_succ_div_gt (a*m) (Zpos b) ltac:(lia)). lia. }
  assert (Hg1 : Zpos b * g <= - (a * m) < Zpos b * g + Zpos b).
  { subst g. pose proof (Z.mul_div_le (-(a*m)) (Zpos b) ltac:(lia)).
    pose proof (Z.mul_succ_div_gt (-(a*m)) (Zpos b) ltac:(lia)). lia. }
  assert (Hf0 : 0 <= f <= m) by nia.
  assert (Hg0 : f <= - g <= m) by nia.
  assert (Hg2 : (- g = f /\ Zpos b * f = a * m) \/ - g = f + 1) by nia.
  rewrite !nth_iotaZ by lia. rewrite !Z2Nat.id by lia.
  rewrite Hpos.
  destruct Hg2 as [[E L]|E]; rewrite E.
  - transitivity (inject_Z (f + 1)); [ring|].
    unfold Qeq, Qplus, inject_Z. cbn [Qnum Qden]. rewrite ?Pos.mul_1_l. nia.
  - rewrite !inject_Z_plus. change (inject_Z 1) with 1%Q. ring.
Qed.

(** ** The edges of the five bins *)

Lemma bins_edges (n : nat) :
  (1 <= n)%nat ->
  Forall2 Qeq (map (quantile (iotaZ n)) quantiles_5) (edges n).
Proof.
  intros Hn. unfold quantiles_5, edges, edge. cbn [map].
  repeat (constructor; [rewrite quantile_iotaZ by (try exact Hn; lia);
                        unfold Qeq, Qplus; cbn [Qnum Qden]; lia|]).
  constructor.
Qed.

Lemma Qltb_lt (a b : Q) : Qltb a b = true <-> (a < b)%Q.
Proof.
  unfold Qltb. rewrite negb_true_iff. split; intros H.
  - apply Qnot_le_lt. intros L. apply Qle_bool_iff in L. congruence.
  - destruct (Qle_bool b a) eqn:E; [|reflexivity].
    apply Qle_bool_iff in E. exfalso. exact (Qlt_not_le _ _ H E).
Qed.

Lemma Qltb_edge (n : nat) (k r : Z) :
  Qltb (edge n k) (inject_Z r) = (k * (Z.of_nat n - 1) <? 5 * (r - 1)).
Proof.
  apply eq_true_iff_eq. rewrite Qltb_lt, Z.ltb_lt.
  unfold edge, Qlt, Qplus, inject_Z. cbn [Qnum Qden]. lia.
Qed.

Lemma searchsorted_left_compat (b1 b2 : list Q) (x : Q) :
  Forall2 Qeq b1 b2 -> searchsorted_left b1 x = searchsorted_left b2 x.
Proof.
  induction 1 as [|a1 a2 t1 t2 Ha _ IH]; simpl; [reflexivity|].
  unfold Qltb. rewrite IH.
  rewrite (Qleb_comp x x (Qeq_refl x) a1 a2 Ha). reflexivity.
Qed.

Lemma existsb_Qeq_compat (a1 a2 : Q) (t1 t2 : list Q) :
  (a1 == a2)%Q -> Forall2 Qeq t1 t2 ->
  existsb (Qeq_bool a1) t1 = existsb (Qeq_bool a2) t2.
Proof.
  intros Ha. induction 1 as [|x y t1 t2 Hx _ IH]; simpl; [reflexivity|].
  rewrite IH, (Qeqb_comp a1 a2 Ha x y Hx). reflexivity.
Qed.

Lemma has_duplicates_compat (b1 b2 : list Q) :
  Forall2 Qeq b1 b2 -> has_duplicates b1 = has_duplicates b2.
Proof.
  induction 1 as [|a1 a2 t1 t2 Ha Ht IH]; simpl; [reflexivity|].
  rewrite (existsb_Qeq_compat a1 a2 t1 t2 Ha Ht), IH. reflexivity.
Qed.

Lemma cut_one_compat (b1 b2 : list Q) (labels : list Z) (x : option Z) :
  Forall2 Qeq b1 b2 -> cut_one b1 labels x = cut_one b2 labels x.
Proof.
  intros H. unfold cut_one. destruct x as [r|]; [|reflexivity].
  rewrite (searchsorted_left_compat b1 b2 _ H), (Forall2_length H).
  assert (Hhd : (hd 0 b1 == hd 0 b2)%Q) by (destruct H; simpl; [reflexivity | assumption]).
  rewrite (Qeqb_comp _ _ (Qeq_refl (inject_Z r)) _ _ Hhd). reflexivity.
Qed.

Lemma edges_no_duplicates (n : nat) :
  (2 <= n)%nat -> has_duplicates (edges n) = false.
Proof.
  intros Hn.
  assert (Hneq : forall j k, j <> k -> Qeq_bool (edge n j) (edge n k) = false).
  { intros j k Hjk. destruct (Qeq_bool (edge n j) (edge n k)) eqn:E; [|reflexivity].
    apply Qeq_bool_eq in E. unfold edge, Qeq, Qplus in E. cbn [Qnum Qden] in E. nia. }
  unfold edges. cbn [map has_duplicates existsb].
  rewrite !Hneq by lia. reflexivity.
Qed.

Lemma bucket_range (n : nat) (r : Z) :
  (2 <= n)%nat -> 1 <= r <= Z.of_nat n -> (1 <= bucket n r <= 5)%nat.
Proof.
  intros Hn Hr. unfold bucket.
  destruct (r =? 1) eqn:E; [lia|]. apply Z.eqb_neq in E.
  unfold edges. cbn [map searchsorted_left]. rewrite !Qltb_edge.
  repeat match goal with
         | |- context [if ?b then _ else _] => destruct b eqn:?
         end; lia.
Qed.

Lemma cut_one_edges (n : nat) (labels : list Z) (r : Z) :
  (2 <= n)%nat -> 1 <= r <= Z.of_nat n -> List.length labels = 5%nat ->
  cut_one (edges n) labels (Some r) = Some (nth (bucket n r - 1) labels 0).
Proof.
  intros Hn Hr Hl. unfold cut_one.
  assert (Hhd : Qeq_bool (inject_Z r) (hd 0%Q (edges n)) = (r =? 1)).
  { apply eq_true_iff_eq. rewrite Qeq_bool_iff, Z.eqb_eq.
    unfold edges, edge, Qeq, Qplus, inject_Z. cbn [map hd Qnum Qden]. lia. }
  rewrite Hhd. fold (bucket n r).
  pose proof (bucket_range n r Hn Hr) as Hb.
  replace (List.length (edges n)) with 6%nat by reflexivity.
  destruct (bucket n r =? 0)%nat eqn:E0; [apply Nat.eqb_eq in E0; lia|].
  destruct (bucket n r =? 6)%nat eqn:E6; [apply Nat.eqb_eq in E6; lia|].
  simpl orb. cbv iota.
  apply nth_error_nth'. lia.
Qed.

(** ** Scores *)

Lemma astype_int_Some (l : list Z) : astype_int (map Some l) = Ok l.
Proof.
  unfold astype_int. induction l as [|z t IH]; simpl; [reflexivity|].
  rewrite IH. reflexivity.
Qed.

Lemma astype_int_Ok (x : list (option Z)) (s : list Z) :
  astype_int x = Ok s -> x = map Some s.
Proof.
  unfold astype_int. intros H. apply Series_apply_Ok in H.
  induction H as [|a b t s' Hab _ IH]; simpl; [reflexivity|].
  destruct a as [z|]; [|discriminate]. inversion Hab; subst. now f_equal.
Qed.

Lemma qcut_ranks (xs : list Z) (labels : list Z) :
  (2 <= List.length xs)%nat -> List.length labels = 5%nat ->
  qcut (rank_first (map Some xs)) labels =
  Ok (map Some (map (score_at labels xs) (seq 0 (List.length xs)))).
Proof.
  intros Hn Hl. unfold qcut. rewrite sort_ranks.
  pose proof (bins_edges (List.length xs) ltac:(lia)) as Hbins.
  destruct (iotaZ (List.length xs)) as [|a t] eqn:Hv.
  { apply (f_equal (@List.length Z)) in Hv. rewrite length_iotaZ in Hv.
    simpl in Hv. lia. }
  rewrite (has_duplicates_compat _ _ Hbins), edges_no_duplicates by exact Hn.
  f_equal. rewrite rank_first_Some, !map_map.
  apply map_ext_in. intros i Hi. apply in_seq in Hi.
  rewrite (cut_one_compat _ _ _ _ Hbins).
  apply cut_one_edges; [exact Hn | apply rankZ_range; lia | exact Hl].
Qed.

Lemma score_ranks (xs : list Z) (labels : list Z) :
  (2 <= List.length xs)%nat -> List.length labels = 5%nat ->
  score (map Some xs) labels = Ok (map (score_at labels xs) (seq 0 (List.length xs))).
Proof.
  intros Hn Hl. unfold score. rewrite (qcut_ranks xs labels Hn Hl). simpl.
  apply astype_int_Some.
Qed.

Lemma qcut_Ok (x : list (option Z)) (labels : list Z) (cats : list (option Z)) :
  qcut x labels = Ok cats -> exists bins, cats = map (cut_one bins labels) x.
Proof.
  unfold qcut. destruct (sort_Z (dropna x)); [discriminate|].
  destruct (has_duplicates _); [discriminate|].
  intros H; inversion H. eauto.
Qed.

Lemma no_missing (x : list (option Z)) :
  ~ In None x -> x = map Some (dropna x).
Proof.
  induction x as [|[a|] t IH]; simpl; intros H.
  - reflexivity.
  - f_equal. apply IH. tauto.
  - tauto.
Qed.

(** A column of less than two values cannot be scored. *)
Lemma score_short (x : list (option Z)) (labels : list Z) :
  (List.length x <= 1)%nat -> score x labels = Raise ValueError.
Proof.
  intros Hx. destruct x as [|[v|] [|y t]]; simpl in Hx; try lia.
  - reflexivity.
  - change [Some v] with (map Some [v]). unfold score, qcut.
    rewrite (sort_ranks [v]). reflexivity.
  - reflexivity.
Qed.

Lemma score_Ok (x : list (option Z)) (labels : list Z) (s : list Z) :
  score x labels = Ok s ->
  exists xs, x = map Some xs /\ (2 <= List.length xs)%nat.
Proof.
  intros H.
  assert (Hlen : (2 <= List.length x)%nat).
  { destruct (le_lt_dec (List.length x) 1) as [L|L]; [|lia].
    rewrite (score_short x labels L) in H. discriminate. }
  unfold score in H. apply bind_Ok in H as (cats & Hq & Ha).
  apply qcut_Ok in Hq as (bins & ->).
  apply astype_int_Ok in Ha.
  assert (Hnone : ~ In None (rank_first x)).
  { intros Hin. apply (in_map (cut_one bins labels)) in Hin. simpl in Hin.
    rewrite Ha in Hin. apply in_map_iff in Hin as (z & Hz & _). discriminate. }
  assert (Hx : ~ In None x).
  { intros Hin. apply Hnone. apply In_nth_error in Hin as (i & Hi).
    unfold rank_first. apply in_map_iff. exists i. split.
    - unfold rank_at. rewrite Hi. reflexivity.
    - apply in_seq. assert (nth_error x i <> None) by congruence.
      apply nth_error_Some in H. lia. }
  exists (dropna x). split; [now apply no_missing|].
  rewrite (no_missing x Hx) in Hlen. now rewrite length_map in Hlen.
Qed.

Lemma rfm_table_rows (df : list Row) (rs : list Z) :
  map (Recency_of df) (customers df) = map Some rs ->
  (2 <= List.length (customers df))%nat ->
  rfm_table df = Ok (rfm_rows df rs).
Proof.
  intros Hrs Hn. unfold rfm_table, rfm_rows.
  assert (Hlen : List.length rs = List.length (customers df)).
  { apply (f_equal (@List.length _)) in Hrs. now rewrite !length_map in Hrs. }
  rewrite Hrs.
  rewrite <- (map_map (Frequency_of df) Some), <- (map_map (Monetary_of df) Some).
  rewrite !score_ranks by (rewrite ?length_map; (lia || reflexivity)).
  rewrite !length_map, Hlen. reflexivity.
Qed.

Lemma rfm_table_Ok (df : list Row) (rfm : list Customer) :
  rfm_table df = Ok rfm ->
  exists rs, map (Recency_of df) (customers df) = map Some rs /\
             (2 <= List.length (customers df))%nat /\
             rfm = rfm_rows df rs.
Proof.
  intros H. pose proof H as H0. unfold rfm_table in H.
  apply bind_Ok in H as (r & Hr & _).
  apply score_Ok in Hr as (rs & Hrs & Hn).
  assert (Hlen : (2 <= List.length (customers df))%nat).
  { apply (f_equal (@List.length _)) in Hrs. rewrite !length_map in Hrs. lia. }
  exists rs. repeat split; auto.
  rewrite (rfm_table_rows df rs Hrs Hlen) in H0. now inversion H0.
Qed.

Lemma nth_map_seq {A : Type} (f : nat -> A) (n i : nat) (d : A) :
  (i < n)%nat -> nth i (map f (seq 0 n)) d = f i.
Proof.
  intros Hi. rewrite (nth_indep _ d (f 0%nat)) by (rewrite length_map, length_seq; lia).
  rewrite map_nth, seq_nth by lia. reflexivity.
Qed.

(** The fields of the row of [rfm] at position [i]. *)
Lemma rfm_rows_nth_error (df : list Row) (rs : list Z) (i : nat) (a : Customer) :
  nth_error (rfm_rows df rs) i = Some a ->
  (i < List.length (customers df))%nat /\
  rfm_주문자연락처 a = nth i (customers df) EmptyString /\
  Recency a = Recency_of df (nth i (customers df) EmptyString) /\
  Frequency a = nth i (map (Frequency_of df) (customers df)) 0 /\
  Monetary a = nth i (map (Monetary_of df) (customers df)) 0 /\
  R_score a = score_at labels_R rs i /\
  F_score a = score_at labels_FM (map (Frequency_of df) (customers df)) i /\
  M_score a = score_at labels_FM (map (Monetary_of df) (customers df)) i /\
  RFM_Total a = R_score a + F_score a + M_score a /\
  rfm_고객세그먼트 a = segment_customer (RFM_Total a).
Proof.
  intros Hi.
  assert (Hlt : (i < List.length (customers df))%nat).
  { assert (Hs : nth_error (rfm_rows df rs) i <> None) by congruence.
    apply nth_error_Some in Hs. unfold rfm_rows in Hs.
    now rewrite length_map, length_seq in Hs. }
  split; [exact Hlt|].
  unfold rfm_rows in Hi. rewrite nth_error_map in Hi.
  rewrite (nth_error_nth' _ 0%nat) in Hi by (rewrite length_seq; exact Hlt).
  rewrite seq_nth in Hi by exact Hlt. simpl in Hi. inversion Hi; subst a; clear Hi.
  unfold rfm_row. cbn [rfm_주문자연락처 Recency Frequency Monetary R_score F_score
                       M_score RFM_Total rfm_고객세그먼트].
  rewrite !nth_map_seq by exact Hlt.
  rewrite (nth_indep (map (Frequency_of df) _) _ (Frequency_of df EmptyString))
    by (rewrite length_map; exact Hlt).
  rewrite (nth_indep (map (Monetary_of df) _) _ (Monetary_of df EmptyString))
    by (rewrite length_map; exact Hlt).
  rewrite !map_nth. repeat split; reflexivity.
Qed.

Lemma rfm_rows_In (df : list Row) (rs : list Z) (a : Customer) :
  In a (rfm_rows df rs) ->
  exists i, (i < List.length (customers df))%nat /\
    rfm_주문자연락처 a = nth i (customers df) EmptyString /\
    Recency a = Recency_of df (nth i (customers df) EmptyString) /\
    Frequency a = nth i (map (Frequency_of df) (customers df)) 0 /\
    Monetary a = nth i (map (Monetary_of df) (customers df)) 0 /\
    R_score a = score_at labels_R rs i /\
    F_score a = score_at labels_FM (map (Frequency_of df) (customers df)) i /\
    M_score a = score_at labels_FM (map (Monetary_of df) (customers df)) i /\
    RFM_Total a = R_score a + F_score a + M_score a /\
    rfm_고객세그먼트 a = segment_customer (RFM_Total a).
Proof.
  intros Hin. apply In_nth_error in Hin as (i & Hi).
  exists i. now apply rfm_rows_nth_error.
Qed.

(** ** Monotonicity of the scores *)

Lemma searchsorted_left_mono (bins : list Q) (x y : Q) :
  (x <= y)%Q -> (searchsorted_left bins x <= searchsorted_left bins y)%nat.
Proof.
  intros Hxy. induction bins as [|b t IH]; simpl; [lia|].
  destruct (Qltb b x) eqn:Ex; [|lia].
  apply Qltb_lt in Ex.
  assert (Ey : Qltb b y = true) by (apply Qltb_lt; eapply Qlt_le_trans; eauto).
  rewrite Ey. lia.
Qed.

Lemma bucket_mono (n : nat) (r1 r2 : Z) :
  (2 <= n)%nat -> 1 <= r1 -> r1 <= r2 <= Z.of_nat n ->
  (bucket n r1 <= bucket n r2)%nat.
Proof.
  intros Hn H1 H2.
  pose proof (bucket_range n r2 Hn ltac:(lia)) as Hb2.
  unfold bucket in *.
  destruct (r1 =? 1) eqn:E1; [lia|]. apply Z.eqb_neq in E1.
  destruct (r2 =? 1) eqn:E2; [apply Z.eqb_eq in E2; lia|].
  apply searchsorted_left_mono. rewrite <- Zle_Qle. lia.
Qed.

Lemma labels_R_nth (b : nat) :
  (1 <= b <= 5)%nat -> nth (b - 1) labels_R 0 = 6 - Z.of_nat b.
Proof.
  intros H. do 6 (destruct b as [|b]; [simpl; lia|]). lia.
Qed.

Lemma labels_FM_nth (b : nat) :
  (1 <= b <= 5)%nat -> nth (b - 1) labels_FM 0 = Z.of_nat b.
Proof.
  intros H. do 6 (destruct b as [|b]; [simpl; lia|]). lia.
Qed.

Lemma score_at_R (xs : list Z) (i : nat) :
  (2 <= List.length xs)%nat -> (i < List.length xs)%nat ->
  score_at labels_R xs i = 6 - Z.of_nat (bucket (List.length xs) (rankZ xs i)).
Proof.
  intros Hn Hi. apply labels_R_nth, bucket_range; [exact Hn | now apply rankZ_range].
Qed.

Lemma score_at_FM (xs : list Z) (i : nat) :
  (2 <= List.length xs)%nat -> (i < List.length xs)%nat ->
  score_at labels_FM xs i = Z.of_nat (bucket (List.length xs) (rankZ xs i)).
Proof.
  intros Hn Hi. apply labels_FM_nth, bucket_range; [exact Hn | now apply rankZ_range].
Qed.

Lemma bucket_rank_mono (xs : list Z) (i j : nat) :
  (2 <= List.length xs)%nat -> (i < List.length xs)%nat -> (j < List.length xs)%nat ->
  nth i xs 0 < nth j xs 0 \/ (nth i xs 0 = nth j xs 0 /\ (i < j)%nat) ->
  (bucket (List.length xs) (rankZ xs i) <= bucket (List.length xs) (rankZ xs j))%nat.
Proof.
  intros Hn Hi Hj H.
  pose proof (rankZ_lt xs i j Hi Hj H).
  pose proof (rankZ_range xs i Hi). pose proof (rankZ_range xs j Hj).
  apply bucket_mono; lia.
Qed.

Lemma map_Some_nth {A : Type} (f : A -> option Z) (l : list A) (rs : list Z)
  (i : nat) (d : A) :
  map f l = map Some rs -> (i < List.length l)%nat ->
  f (nth i l d) = Some (nth i rs 0).
Proof.
  intros H Hi.
  assert (Hlen : List.length rs = List.length l).
  { apply (f_equal (@List.length _)) in H. now rewrite !length_map in H. }
  assert (E : nth_error (map f l) i = nth_error (map Some rs) i) by now rewrite H.
  rewrite !nth_error_map in E.
  rewrite (nth_error_nth' l d Hi) in E.
  rewrite (nth_error_nth' rs 0) in E by lia.
  simpl in E. now inversion E.
Qed.

(** C6. In a scored [rfm] table every customer has a recency, a customer
    with strictly fewer recency days than another has an R score at least
    as high, and a customer with strictly more distinct orders has an F
    score at least as high. *)
Theorem RFM_scores_monotone :
  forall (df : list Row) (rfm : list Customer) (a b : Customer),
    rfm_table df = Ok rfm -> In a rfm -> In b rfm ->
    exists ra rb : Z,
      Recency a = Some ra /\ Recency b = Some rb /\
      (ra < rb -> R_score a >= R_score b) /\
      (Frequency a > Frequency b -> F_score a >= F_score b).
Proof.
  intros df rfm a b Hrfm Ha Hb.
  apply rfm_table_Ok in Hrfm as (rs & Hrs & Hn & ->).
  assert (Hlen : List.length rs = List.length (customers df)).
  { apply (f_equal (@List.length _)) in Hrs. now rewrite !length_map in Hrs. }
  apply (rfm_rows_In df rs a) in Ha
    as (i & Hi & _ & HRa & HFa & _ & HRsa & HFsa & _).
  apply (rfm_rows_In df rs b) in Hb
    as (j & Hj & _ & HRb & HFb & _ & HRsb & HFsb & _).
  rewrite (map_Some_nth _ _ rs i _ Hrs Hi) in HRa.
  rewrite (map_Some_nth _ _ rs j _ Hrs Hj) in HRb.
  exists (nth i rs 0), (nth j rs 0).
  split; [exact HRa|]. split; [exact HRb|]. split.
  - intros Hlt. rewrite HRsa, HRsb.
    rewrite !score_at_R by lia.
    pose proof (bucket_rank_mono rs i j ltac:(lia) ltac:(lia) ltac:(lia) (or_introl Hlt)).
    lia.
  - intros Hgt. rewrite HFsa, HFsb.
    set (fs := map (Frequency_of df) (customers df)) in *.
    assert (Hfl : List.length fs = List.length (customers df)) by apply length_map.
    rewrite !score_at_FM by (rewrite Hfl; lia).
    assert (Hlt : nth j fs 0 < nth i fs 0) by lia.
    pose proof (bucket_rank_mono fs j i) as Hm.
    rewrite Hfl in Hm. specialize (Hm ltac:(lia) Hj Hi (or_introl Hlt)).
    rewrite Hfl. lia.
Qed.

Lemma RFM_scores_monotone_witness :
  exists ra rb : Z,
    Recency customer_a = Some ra /\ Recency customer_b = Some rb /\
    (ra < rb -> R_score customer_a >= R_score customer_b) /\
    (Frequency customer_a > Frequency customer_b ->
     F_score customer_a >= F_score customer_b).
Proof.
  apply (RFM_scores_monotone sample_df sample_rfm customer_a customer_b).
  - vm_compute. reflexivity.
  - vm_compute. auto.
  - vm_compute. auto.
Defined.

(** ** Segments *)

Lemma score_at_range (labels : list Z) (xs : list Z) (i : nat) :
  labels = labels_R \/ labels = labels_FM ->
  (2 <= List.length xs)%nat -> (i < List.length xs)%nat ->
  1 <= score_at labels xs i <= 5.
Proof.
  intros [->| ->] Hn Hi.
  - rewrite score_at_R by assumption.
    pose proof (bucket_range _ _ Hn (rankZ_range xs i Hi)). lia.
  - rewrite score_at_FM by assumption.
    pose proof (bucket_range _ _ Hn (rankZ_range xs i Hi)). lia.
Qed.

(** C4. The segment is decided by the thresholds 13, 10 and 7 on the RFM
    total: "VIP (최우수)" from 13, "우수 고객" for 10 to 12, "잠재 고객" for 7
    to 9 and "집중 관리" below 7; and every row of [rfm] carries the segment
    of its total, the sum of its three scores, which lies between 3 and
    15. *)
Theorem segment_customer_thresholds :
  (forall total : Z,
      (13 <= total -> segment_customer total = "VIP (최우수)"%string) /\
      (10 <= total <= 12 -> segment_customer total = "우수 고객"%string) /\
      (7 <= total <= 9 -> segment_customer total = "잠재 고객"%string) /\
      (total < 7 -> segment_customer total = "집중 관리"%string)) /\
  (forall (df : list Row) (rfm : list Customer) (c : Customer),
      rfm_table df = Ok rfm -> In c rfm ->
      RFM_Total c = R_score c + F_score c + M_score c /\
      3 <= RFM_Total c <= 15 /\
      rfm_고객세그먼트 c = segment_customer (RFM_Total c)).
Proof.
  split.
  - intros total. unfold segment_customer.
    destruct (13 <=? total) eqn:E13; destruct (10 <=? total) eqn:E10;
      destruct (7 <=? total) eqn:E7;
      repeat split; intros H; try reflexivity; lia.
  - intros df rfm c Hrfm Hc.
    apply rfm_table_Ok in Hrfm as (rs & Hrs & Hn & ->).
    assert (Hlen : List.length rs = List.length (customers df)).
    { apply (f_equal (@List.length _)) in Hrs. now rewrite !length_map in Hrs. }
    apply (rfm_rows_In df rs c) in Hc
      as (i & Hi & _ & _ & _ & _ & HR & HF & HM & HT & HS).
    split; [exact HT|]. split; [|exact HS].
    rewrite HT, HR, HF, HM.
    pose proof (score_at_range labels_R rs i (or_introl eq_refl) ltac:(lia) ltac:(lia)).
    pose proof (score_at_range labels_FM (map (Frequency_of df) (customers df)) i
                  (or_intror eq_refl)) as H2.
    pose proof (score_at_range labels_FM (map (Monetary_of df) (customers df)) i
                  (or_intror eq_refl)) as H3.
    rewrite length_map in H2, H3.
    specialize (H2 Hn Hi). specialize (H3 Hn Hi). lia.
Qed.

Lemma segment_customer_thresholds_witness :
  segment_customer 13 = "VIP (최우수)"%string /\
  segment_customer 12 = "우수 고객"%string /\
  segment_customer 7 = "잠재 고객"%string /\
  segment_customer 6 = "집중 관리"%string /\
  RFM_Total customer_a = 15 /\
  rfm_고객세그먼트 customer_a = "VIP (최우수)"%string.
Proof.
  pose proof (proj1 segment_customer_thresholds) as H.
  destruct (proj2 segment_customer_thresholds sample_df sample_rfm customer_a)
    as (_ & _ & HS).
  { vm_compute. reflexivity. }
  { vm_compute. auto. }
  split; [apply (proj1 (H 13)); lia|].
  split; [apply (proj1 (proj2 (H 12))); lia|].
  split; [apply (proj1 (proj2 (proj2 (H 7)))); lia|].
  split; [apply (proj2 (proj2 (proj2 (H 6)))); lia|].
  split; [reflexivity|].
  rewrite HS. apply (proj1 (H (RFM_Total customer_a))). vm_compute. discriminate.
Defined.

(** ** A single customer *)

Lemma customers_fill_amounts (l : list Row) :
  customers (map fill_amounts l) = customers l.
Proof.
  unfold customers. rewrite map_map. reflexivity.
Qed.

Lemma rfm_table_short (df : list Row) :
  (List.length (customers df) <= 1)%nat -> rfm_table df = Raise ValueError.
Proof.
  intros H. unfold rfm_table.
  rewrite score_short by (rewrite length_map; exact H). reflexivity.
Qed.

(** C10. With the column 주문자연락처 present and one distinct customer, RFM
    scoring raises ValueError (the six bin edges coincide), so [load_data]
    ends with an exception instead of a table; a scored [rfm] table has at
    least two customers. *)
Theorem rfm_single_customer_raises :
  forall (csv_files : list CsvFile) (raw : DataFrame),
    ingest csv_files = Ok raw ->
    has_주문자연락처 raw = true ->
    List.length (customers (rows raw)) = 1%nat ->
    rfm_table (map fill_amounts (rows raw)) = Raise ValueError /\
    (exists e, load_data csv_files = Raise e) /\
    (forall regions,
        Series_apply extract_region (map 주소 (map fill_amounts (rows raw))) = Ok regions ->
        load_data csv_files = Raise ValueError) /\
    (forall (df : list Row) (rfm : list Customer),
        rfm_table df = Ok rfm -> (2 <= List.length (customers df))%nat).
Proof.
  intros csv_files raw Hing Hcol Hone.
  assert (Hrfm : rfm_table (map fill_amounts (rows raw)) = Raise ValueError).
  { apply rfm_table_short. rewrite customers_fill_amounts. lia. }
  assert (Hload : forall regions,
             Series_apply extract_region (map 주소 (map fill_amounts (rows raw))) = Ok regions ->
             load_data csv_files = Raise ValueError).
  { intros regions Hreg. unfold load_data.
    pose proof (ingest_nonempty _ _ Hing) as Hne.
    destruct csv_files as [|f fs]; [congruence|].
    rewrite Hing. simpl. rewrite Hreg. simpl. rewrite Hcol, Hrfm. reflexivity. }
  split; [exact Hrfm|]. split; [|split; [exact Hload|]].
  - destruct (Series_apply extract_region (map 주소 (map fill_amounts (rows raw))))
      as [regions|e] eqn:Hreg.
    + exists ValueError. eapply Hload. reflexivity.
    + exists e. unfold load_data.
      pose proof (ingest_nonempty _ _ Hing) as Hne.
      destruct csv_files as [|f fs]; [congruence|].
      rewrite Hing. simpl. rewrite Hreg. reflexivity.
  - intros df rfm H. apply rfm_table_Ok in H as (_ & _ & Hn & _). exact Hn.
Qed.

Lemma rfm_single_customer_raises_witness :
  load_data [single_customer_file] = Raise ValueError.
Proof.
  destruct (rfm_single_customer_raises [single_customer_file]
              (mkFrame true (map (set_source_file "one_customer.csv") [line_a1; line_a2])))
    as (_ & _ & H & _).
  - vm_compute. reflexivity.
  - reflexivity.
  - vm_compute. reflexivity.
  - eapply H. vm_compute. reflexivity.
Defined.

(** ** Bucket sizes *)

(** With 5q values, the ranks jq + 1, ..., (j + 1)q fall in bin j + 1. *)
Lemma bucket_block (q j : nat) (r : Z) :
  (1 <= q)%nat -> (j <= 4)%nat ->
  Z.of_nat j * Z.of_nat q + 1 <= r <= (Z.of_nat j + 1) * Z.of_nat q ->
  bucket (5 * q) r = S j.
Proof.
  intros Hq Hj Hr. unfold bucket.
  assert (Hn : Z.of_nat (5 * q) - 1 = 5 * Z.of_nat q - 1) by lia.
  destruct (r =? 1) eqn:E1.
  { apply Z.eqb_eq in E1. subst r.
    do 5 (destruct j as [|j]; [try reflexivity; nia|]). lia. }
  apply Z.eqb_neq in E1.
  unfold edges. cbn [map searchsorted_left]. rewrite !Qltb_edge, Hn.
  do 5 (destruct j as [|j];
        [repeat match goal with
                | |- context [if ?b then _ else _] => destruct b eqn:?
                end; lia|]).
  lia.
Qed.

Lemma map_block (g : Z -> Z) (start len : nat) (v : Z) :
  (forall r, Z.of_nat start <= r < Z.of_nat (start + len) -> g r = v) ->
  map g (map Z.of_nat (seq start len)) = repeat v len.
Proof.
  revert start; induction len as [|len IH]; intros start H; simpl; [reflexivity|].
  f_equal.
  - apply H. lia.
  - apply IH. intros r Hr. apply H. lia.
Qed.

Lemma label_blocks (labels : list Z) (q : nat) :
  (1 <= q)%nat ->
  map (label_of_rank labels (5 * q)) (iotaZ (5 * q)) =
  repeat (nth 0 labels 0) q ++ repeat (nth 1 labels 0) q ++ repeat (nth 2 labels 0) q
  ++ repeat (nth 3 labels 0) q ++ repeat (nth 4 labels 0) q.
Proof.
  intros Hq. unfold iotaZ.
  replace (5 * q)%nat with (q + (q + (q + (q + q))))%nat at 2 by lia.
  rewrite !seq_app, !map_app.
  repeat f_equal; apply map_block; intros r Hr; unfold label_of_rank.
  - rewrite (bucket_block q 0 r) by lia. reflexivity.
  - rewrite (bucket_block q 1 r) by lia. reflexivity.
  - rewrite (bucket_block q 2 r) by lia. reflexivity.
  - rewrite (bucket_block q 3 r) by lia. reflexivity.
  - rewrite (bucket_block q 4 r) by lia. reflexivity.
Qed.

Lemma count_occ_repeat (x y : Z) (n : nat) :
  count_occ Z.eq_dec (repeat y n) x = if x =? y then n else 0%nat.
Proof.
  destruct (x =? y) eqn:E.
  - apply Z.eqb_eq in E. now apply count_occ_repeat_eq.
  - apply Z.eqb_neq in E. now apply count_occ_repeat_neq.
Qed.

Lemma scores_Permutation (labels xs : list Z) :
  Permutation (map (score_at labels xs) (seq 0 (List.length xs)))
              (map (label_of_rank labels (List.length xs)) (iotaZ (List.length xs))).
Proof.
  change (score_at labels xs)
    with (fun i => label_of_rank labels (List.length xs) (rankZ xs i)).
  rewrite <- (map_map (rankZ xs) (label_of_rank labels (List.length xs))).
  apply Permutation_map, ranks_Permutation.
Qed.

(** With 5q values every score is given q times. *)
Lemma scores_count (labels xs : list Z) (q : nat) (s : Z) :
  labels = labels_R \/ labels = labels_FM ->
  (1 <= q)%nat -> List.length xs = (5 * q)%nat -> 1 <= s <= 5 ->
  count_occ Z.eq_dec (map (score_at labels xs) (seq 0 (List.length xs))) s = q.
Proof.
  intros Hl Hq Hn Hs.
  rewrite (proj1 (Permutation_count_occ Z.eq_dec _ _) (scores_Permutation labels xs)).
  rewrite Hn, label_blocks by exact Hq.
  rewrite !count_occ_app, !count_occ_repeat.
  assert (Hc : s = 1 \/ s = 2 \/ s = 3 \/ s = 4 \/ s = 5) by lia.
  destruct Hl as [-> | ->]; destruct Hc as [->|[->|[->|[->| ->]]]]; simpl; lia.
Qed.

Lemma rfm_rows_scores (df : list Row) (rs : list Z) :
  map R_score (rfm_rows df rs)
  = map (score_at labels_R rs) (seq 0 (List.length (customers df))) /\
  map F_score (rfm_rows df rs)
  = map (score_at labels_FM (map (Frequency_of df) (customers df)))
        (seq 0 (List.length (customers df))) /\
  map M_score (rfm_rows df rs)
  = map (score_at labels_FM (map (Monetary_of df) (customers df)))
        (seq 0 (List.length (customers df))).
Proof.
  unfold rfm_rows. rewrite !map_map.
  repeat split; apply map_ext_in; intros i Hi; apply in_seq in Hi;
    unfold rfm_row; simpl; apply nth_map_seq; lia.
Qed.

(** C7 (as amended). When the number of customers is a multiple of five,
    5q with q >= 1, and each has a recency, scoring succeeds and each of the
    R, F and M scores 1 to 5 is given to exactly q customers; among
    customers with equal values of a metric the one that comes first in
    [rfm] has the lower rank, so an R score at least as high and F and M
    scores at most as high. *)
Theorem RFM_buckets_equal_size :
  forall (df : list Row) (q : nat),
    (1 <= q)%nat ->
    List.length (customers df) = (5 * q)%nat ->
    (forall c, In c (customers df) -> Recency_of df c <> None) ->
    exists rfm,
      rfm_table df = Ok rfm /\
      List.length rfm = (5 * q)%nat /\
      (forall s, 1 <= s <= 5 ->
         count_occ Z.eq_dec (map R_score rfm) s = q /\
         count_occ Z.eq_dec (map F_score rfm) s = q /\
         count_occ Z.eq_dec (map M_score rfm) s = q) /\
      (forall i j a b,
         (i < j)%nat -> nth_error rfm i = Some a -> nth_error rfm j = Some b ->
         (Recency a = Recency b -> R_score a >= R_score b) /\
         (Frequency a = Frequency b -> F_score a <= F_score b) /\
         (Monetary a = Monetary b -> M_score a <= M_score b)).
Proof.
  intros df q Hq Hn Hrec.
  set (cs := customers df) in *.
  assert (Hnone : ~ In None (map (Recency_of df) cs)).
  { intros Hin. apply in_map_iff in Hin as (c & Hc & Hin). exact (Hrec c Hin Hc). }
  apply no_missing in Hnone. set (rs := dropna (map (Recency_of df) cs)) in *.
  assert (Hlen : List.length rs = List.length cs).
  { apply (f_equal (@List.length _)) in Hnone. now rewrite !length_map in Hnone. }
  assert (Hfl : List.length (map (Frequency_of df) cs) = List.length cs) by apply length_map.
  assert (Hml : List.length (map (Monetary_of df) cs) = List.length cs) by apply length_map.
  exists (rfm_rows df rs).
  split; [apply rfm_table_rows; [exact Hnone | fold cs; lia]|].
  split; [unfold rfm_rows; fold cs; now rewrite length_map, length_seq|].
  destruct (rfm_rows_scores df rs) as (ER & EF & EM). fold cs in ER, EF, EM.
  split.
  - intros s Hs.
    rewrite <- Hlen in ER. rewrite <- Hfl in EF. rewrite <- Hml in EM.
    rewrite ER, EF, EM.
    repeat split; apply scores_count; auto; lia.
  - intros i j a b Hij Ha Hb.
    apply rfm_rows_nth_error in Ha as (Hi & _ & HRa & HFa & HMa & HRsa & HFsa & HMsa & _).
    apply rfm_rows_nth_error in Hb as (Hj & _ & HRb & HFb & HMb & HRsb & HFsb & HMsb & _).
    fold cs in Hi, Hj, HRa, HRb, HFa, HFb, HMa, HMb, HFsa, HFsb, HMsa, HMsb.
    rewrite (map_Some_nth _ _ rs i _ Hnone Hi) in HRa.
    rewrite (map_Some_nth _ _ rs j _ Hnone Hj) in HRb.
    repeat split.
    + intros E. rewrite HRa, HRb in E. inversion E as [E'].
      rewrite HRsa, HRsb, !score_at_R by lia.
      pose proof (bucket_rank_mono rs i j ltac:(lia) ltac:(lia) ltac:(lia)
                    (or_intror (conj E' Hij))). lia.
    + intros E. rewrite HFa, HFb in E.
      rewrite HFsa, HFsb, !score_at_FM by (rewrite Hfl; lia).
      pose proof (bucket_rank_mono _ i j ltac:(rewrite Hfl; lia) ltac:(rewrite Hfl; lia)
                    ltac:(rewrite Hfl; lia) (or_intror (conj E Hij))). lia.
    + intros E. rewrite HMa, HMb in E.
      rewrite HMsa, HMsb, !score_at_FM by (rewrite Hml; lia).
      pose proof (bucket_rank_mono _ i j ltac:(rewrite Hml; lia) ltac:(rewrite Hml; lia)
                    ltac:(rewrite Hml; lia) (or_intror (conj E Hij))). lia.
Qed.

Lemma RFM_buckets_equal_size_witness :
  exists rfm,
    rfm_table five_customers = Ok rfm /\
    List.length rfm = (5 * 1)%nat /\
    (forall s, 1 <= s <= 5 ->
       count_occ Z.eq_dec (map R_score rfm) s = 1%nat /\
       count_occ Z.eq_dec (map F_score rfm) s = 1%nat /\
       count_occ Z.eq_dec (map M_score rfm) s = 1%nat) /\
    (forall i j a b,
       (i < j)%nat -> nth_error rfm i = Some a -> nth_error rfm j = Some b ->
       (Recency a = Recency b -> R_score a >= R_score b) /\
       (Frequency a = Frequency b -> F_score a <= F_score b) /\
       (Monetary a = Monetary b -> M_score a <= M_score b)).
Proof.
  apply (RFM_buckets_equal_size five_customers 1).
  - lia.
  - vm_compute. reflexivity.
  - intros c Hc. vm_compute in Hc.
    repeat (destruct Hc as [<-|Hc]; [vm_compute; discriminate|]). contradiction.
Defined.

(** C7 (as stated) fails: with seven customers scoring succeeds, two
    customers get the F score 1 and one customer the F score 2, so the
    buckets are not of one size, 7/5. *)
Lemma RFM_buckets_counterexample :
  exists rfm,
    rfm_table seven_customers = Ok rfm /\
    List.length rfm = 7%nat /\
    count_occ Z.eq_dec (map F_score rfm) 1 = 2%nat /\
    count_occ Z.eq_dec (map F_score rfm) 2 = 1%nat /\
    map R_score rfm = [1; 1; 2; 3; 4; 5; 5].
Proof.
  eexists. split; [vm_compute; reflexivity|]. vm_compute. auto.
Qed.

(** ** The order of [sort_values] *)

Section Comparison.
Variable A : Type.
Variable cmp : A -> A -> comparison.
Hypothesis cmp_eq : forall x y, cmp x y = Eq <-> x = y.
Hypothesis cmp_antisym : forall x y, cmp x y = CompOpp (cmp y x).
Hypothesis cmp_lt_trans : forall x y z, cmp x y = Lt -> cmp y z = Lt -> cmp x z = Lt.

Lemma cmp_na_eq (a b : option A) : cmp_na cmp a b = Eq <-> a = b.
Proof.
  destruct a as [x|], b as [y|]; simpl; try (split; congruence).
  rewrite cmp_eq. split; congruence.
Qed.

Lemma cmp_na_antisym (a b : option A) : cmp_na cmp a b = CompOpp (cmp_na cmp b a).
Proof.
  destruct a as [x|], b as [y|]; simpl; auto.
Qed.

Lemma cmp_na_lt_trans (a b c : option A) :
  cmp_na cmp a b = Lt -> cmp_na cmp b c = Lt -> cmp_na cmp a c = Lt.
Proof.
  destruct a as [x|], b as [y|], c as [z|]; simpl; try congruence.
  apply cmp_lt_trans.
Qed.
End Comparison.

Lemma string_compare_eq (x y : string) : String.compare x y = Eq <-> x = y.
Proof. apply String_as_OT.cmp_eq. Qed.

Lemma string_compare_lt_trans (x y z : string) :
  String.compare x y = Lt -> String.compare y z = Lt -> String.compare x z = Lt.
Proof.
  intros H1 H2. apply String_as_OT.cmp_lt.
  apply String_as_OT.cmp_lt in H1, H2.
  eapply String_as_OT.lt_trans; eauto.
Qed.

Lemma Z_compare_antisym (x y : Z) : (x ?= y) = CompOpp (y ?= x).
Proof. apply Z.compare_antisym. Qed.

Lemma Z_compare_lt_trans (x y z : Z) :
  (x ?= y) = Lt -> (y ?= z) = Lt -> (x ?= z) = Lt.
Proof. rewrite !Z.compare_lt_iff. lia. Qed.

Lemma sort_cmp_Eq (r1 r2 : Row) :
  sort_cmp r1 r2 = Eq <->
  주문자연락처 r1 = 주문자연락처 r2 /\ 주문일 r1 = 주문일 r2.
Proof.
  unfold sort_cmp.
  pose proof (cmp_na_eq _ _ string_compare_eq (주문자연락처 r1) (주문자연락처 r2)) as H1.
  pose proof (cmp_na_eq _ _ Z.compare_eq_iff (주문일 r1) (주문일 r2)) as H2.
  destruct (cmp_na String.compare _ _); split; intros H; try discriminate.
  - split; [now apply H1 | now apply H2].
  - now apply H2.
  - destruct H as (H & _). apply H1 in H. discriminate.
  - destruct H as (H & _). apply H1 in H. discriminate.
Qed.

Lemma sort_cmp_antisym (r1 r2 : Row) : sort_cmp r1 r2 = CompOpp (sort_cmp r2 r1).
Proof.
  unfold sort_cmp.
  rewrite (cmp_na_antisym _ _ String.compare_antisym (주문자연락처 r1)).
  rewrite (cmp_na_antisym _ _ Z_compare_antisym (주문일 r1)).
  destruct (cmp_na String.compare (주문자연락처 r2) (주문자연락처 r1)); reflexivity.
Qed.

Lemma sort_cmp_Lt (r1 r2 : Row) :
  sort_cmp r1 r2 = Lt <->
  cmp_na String.compare (주문자연락처 r1) (주문자연락처 r2) = Lt \/
  (주문자연락처 r1 = 주문자연락처 r2 /\ cmp_na Z.compare (주문일 r1) (주문일 r2) = Lt).
Proof.
  unfold sort_cmp.
  pose proof (cmp_na_eq _ _ string_compare_eq (주문자연락처 r1) (주문자연락처 r2)) as H1.
  destruct (cmp_na String.compare _ _); split; intros H; try discriminate; auto.
  - right. split; [now apply H1 | exact H].
  - destruct H as [H|[_ H]]; [discriminate | exact H].
  - destruct H as [H|[H _]]; [discriminate | apply H1 in H; discriminate].
Qed.

Lemma sort_cmp_lt_trans (r1 r2 r3 : Row) :
  sort_cmp r1 r2 = Lt -> sort_cmp r2 r3 = Lt -> sort_cmp r1 r3 = Lt.
Proof.
  rewrite !sort_cmp_Lt.
  intros [H1|[E1 H1]] [H2|[E2 H2]].
  - left. eapply cmp_na_lt_trans; eauto using string_compare_lt_trans.
  - left. now rewrite <- E2.
  - left. now rewrite E1.
  - right. split; [congruence|].
    eapply cmp_na_lt_trans; eauto using Z_compare_lt_trans.
Qed.

Lemma sort_le_total (a b : nat * Row) : sort_le a b = false -> sort_le b a = true.
Proof.
  unfold sort_le. rewrite (sort_cmp_antisym (snd b)).
  destruct (sort_cmp (snd a) (snd b)); simpl; congruence.
Qed.

Lemma sort_le_trans (a b c : nat * Row) :
  sort_le a b = true -> sort_le b c = true -> sort_le a c = true.
Proof.
  unfold sort_le.
  destruct (sort_cmp (snd a) (snd b)) eqn:E1; try discriminate;
    destruct (sort_cmp (snd b) (snd c)) eqn:E2; try discriminate; intros _ _.
  - apply sort_cmp_Eq in E1 as (K1 & D1). apply sort_cmp_Eq in E2 as (K2 & D2).
    assert (E : sort_cmp (snd a) (snd c) = Eq) by (apply sort_cmp_Eq; split; congruence).
    now rewrite E.
  - apply sort_cmp_Eq in E1 as (K1 & D1).
    assert (E : sort_cmp (snd a) (snd c) = Lt).
    { apply sort_cmp_Lt. apply sort_cmp_Lt in E2. rewrite K1, D1. exact E2. }
    now rewrite E.
  - apply sort_cmp_Eq in E2 as (K2 & D2).
    assert (E : sort_cmp (snd a) (snd c) = Lt).
    { apply sort_cmp_Lt. apply sort_cmp_Lt in E1. rewrite <- K2, <- D2. exact E1. }
    now rewrite E.
  - now rewrite (sort_cmp_lt_trans _ _ _ E1 E2).
Qed.

Lemma insert_row_Permutation (a : nat * Row) (l : list (nat * Row)) :
  Permutation (insert_row a l) (a :: l).
Proof.
  induction l as [|b t IH]; simpl; [reflexivity|].
  destruct (sort_le a b); [reflexivity|].
  rewrite IH. apply perm_swap.
Qed.

Lemma sort_values_Permutation (l : list (nat * Row)) : Permutation (sort_values l) l.
Proof.
  induction l as [|a t IH]; simpl; [reflexivity|].
  rewrite insert_row_Permutation. now apply perm_skip.
Qed.

Lemma insert_row_sorted (a : nat * Row) (l : list (nat * Row)) :
  StronglySorted (fun x y => sort_le x y = true) l ->
  StronglySorted (fun x y => sort_le x y = true) (insert_row a l).
Proof.
  induction 1 as [|b t Hs IH Hb]; simpl.
  - repeat constructor.
  - destruct (sort_le a b) eqn:E.
    + constructor; [now constructor|].
      constructor; [exact E|].
      eapply Forall_impl; [|exact Hb]. intros c Hc. eapply sort_le_trans; eauto.
    + constructor; [exact IH|].
      apply Forall_forall. intros c Hc.
      apply (Permutation_in _ (insert_row_Permutation a t)) in Hc.
      destruct Hc as [<-|Hc]; [now apply sort_le_total|].
      rewrite Forall_forall in Hb. now apply Hb.
Qed.

Lemma sort_values_sorted (l : list (nat * Row)) :
  StronglySorted (fun x y => sort_le x y = true) (sort_values l).
Proof.
  induction l as [|a t IH]; simpl; [constructor | now apply insert_row_sorted].
Qed.

(** ** Purchase intervals *)

Lemma groupby_shift_app (seen l1 l2 : list (nat * Row)) :
  groupby_shift seen (l1 ++ l2) =
  groupby_shift seen l1 ++ groupby_shift (rev l1 ++ seen) l2.
Proof.
  revert seen; induction l1 as [|p t IH]; intros seen; simpl; [reflexivity|].
  f_equal. rewrite IH, <- app_assoc. reflexivity.
Qed.

Lemma groupby_shift_fst (seen l : list (nat * Row)) :
  map fst (groupby_shift seen l) = map fst l.
Proof.
  revert seen; induction l as [|p t IH]; intros seen; simpl; [reflexivity|].
  now rewrite IH.
Qed.



Lemma at_index_In (s : list (nat * option Timestamp)) (i : nat) (v : option Timestamp) :
  NoDup (map fst s) -> In (i, v) s -> at_index s i = v.
Proof.
  unfold at_index. induction s as [|[j w] t IH]; simpl; intros Hnd Hin; [contradiction|].
  inversion Hnd as [|? ? Hnotin Hnd']; subst.
  destruct (Nat.eqb j i) eqn:E.
  - apply Nat.eqb_eq in E. subst j.
    destruct Hin as [Hin|Hin]; [now inversion Hin|].
    exfalso. apply Hnotin. apply (in_map fst) in Hin. exact Hin.
  - destruct Hin as [Hin|Hin].
    + inversion Hin; subst. rewrite Nat.eqb_refl in E. discriminate.
    + now apply IH.
Qed.

Lemma with_index_fst (df : list Row) : map fst (with_index df) = seq 0 (List.length df).
Proof.
  unfold with_index.
  generalize 0%nat. induction df as [|r t IH]; intros s; simpl; [reflexivity|].
  now rewrite IH.
Qed.

Lemma with_index_In (df : list Row) (i : nat) (r : Row) :
  In (i, r) (with_index df) -> nth_error (with_index df) i = Some (i, r).
Proof.
  unfold with_index.
  assert (G : forall s, In (i, r) (combine (seq s (List.length df)) df) ->
                        (s <= i)%nat /\ nth_error (combine (seq s (List.length df)) df) (i - s)
                                        = Some (i, r)).
  { induction df as [|x t IH]; intros s H; simpl in *; [contradiction|].
    destruct H as [H|H].
    - inversion H; subst. split; [lia|]. rewrite Nat.sub_diag. reflexivity.
    - apply IH in H as (Hs & H). split; [lia|].
      replace (i - s)%nat with (S (i - S s)) by lia. exact H. }
  intros H. apply G in H as (_ & H). now rewrite Nat.sub_0_r in H.
Qed.

Lemma shifted_NoDup (df : list Row) : NoDup (map fst (이전구매일_series df)).
Proof.
  unfold 이전구매일_series. rewrite groupby_shift_fst.
  eapply Permutation_NoDup.
  - apply Permutation_map, Permutation_sym, sort_values_Permutation.
  - rewrite with_index_fst. apply seq_NoDup.
Qed.

(** The interval at a row, from the rows before it in the sorted frame. *)
Lemma interval_at_sorted (df : list Row) (s1 s2 : list (nat * Row)) (q : nat * Row) :
  sort_values (with_index df) = s1 ++ q :: s2 ->
  구매간격_at df (fst q) =
  days_between (주문일 (snd q))
    match 주문자연락처 (snd q) with
    | Some c => match find (same_customer c) (rev s1) with
                | Some p => 주문일 (snd p)
                | None => None
                end
    | None => None
    end.
Proof.
  intros Hs.
  assert (Hq : In q (with_index df)).
  { apply (Permutation_in _ (sort_values_Permutation (with_index df))).
    rewrite Hs. apply in_elt. }
  destruct q as [i r]. apply with_index_In in Hq.
  unfold 구매간격_at, 구매간격_column.
  rewrite (nth_error_nth _ _ None
             (eq_trans (nth_error_map _ _ _) (f_equal (option_map _) Hq))).
  cbn [fst snd].
  f_equal. apply at_index_In; [apply shifted_NoDup|].
  unfold 이전구매일_series. rewrite Hs, groupby_shift_app. apply in_or_app. right.
  rewrite app_nil_r. simpl. left. reflexivity.
Qed.

Lemma days_between_NaT (a : option Timestamp) : days_between a None = None.
Proof. destruct a; reflexivity. Qed.

Lemma same_customer_Some (c : string) (q : nat * Row) :
  same_customer c q = true -> 주문자연락처 (snd q) = Some c.
Proof.
  unfold same_customer, opt_eqb. destruct (주문자연락처 (snd q)) as [s|]; [|discriminate].
  intros H. apply String.eqb_eq in H. now subst.
Qed.

Lemma customer_rows_same (df : list Row) (c : string) (q : nat * Row) :
  In q (customer_rows df c) -> 주문자연락처 (snd q) = Some c.
Proof.
  intros H. apply filter_In in H as (_ & H). now apply same_customer_Some.
Qed.






(** ** Churn risk *)

Lemma find_last_purchase (df : list Row) (avg : Q) (c : string) (cs : list string) :
  In c cs ->
  find (fun a => String.eqb (lp_주문자연락처 a) c) (map (last_purchase_row df avg) cs)
  = Some (last_purchase_row df avg c).
Proof.
  induction cs as [|x t IH]; simpl; intros H; [contradiction|].
  destruct (String.eqb x c) eqn:E.
  - apply String.eqb_eq in E. now subst.
  - apply IH. destruct H as [H|H]; [|exact H].
    subst. rewrite String.eqb_refl in E. discriminate.
Qed.

Lemma Qltb_ge (a b : Q) : Qltb a b = false <-> (b <= a)%Q.
Proof.
  unfold Qltb. rewrite negb_false_iff. apply Qle_bool_iff.
Qed.

Lemma classify_churn_thresholds (avg : Q) (d : Z) :
  ((avg * 3 < inject_Z d)%Q -> classify_churn avg (Some d) = "완전 이탈"%string) /\
  ((inject_Z d <= avg * 3)%Q -> (avg * 2 < inject_Z d)%Q ->
   classify_churn avg (Some d) = "이탈 위험"%string) /\
  ((inject_Z d <= avg * 3)%Q -> (inject_Z d <= avg * 2)%Q -> (avg < inject_Z d)%Q ->
   classify_churn avg (Some d) = "주의 요망"%string) /\
  ((inject_Z d <= avg * 3)%Q -> (inject_Z d <= avg * 2)%Q -> (inject_Z d <= avg)%Q ->
   classify_churn avg (Some d) = "활동 고객"%string).
Proof.
  unfold classify_churn, gt_na.
  repeat split; intros;
    repeat match goal with
           | H : (_ < _)%Q |- _ => apply Qltb_lt in H; rewrite H
           | H : (_ <= _)%Q |- _ => apply Qltb_ge in H; rewrite H
           end; reflexivity.
Qed.

Lemma max_date_In (l : list (option Timestamp)) (m : Timestamp) :
  max_date l = Some m -> In (Some m) l /\ forall d, In (Some d) l -> d <= m.
Proof.
  revert m; induction l as [|[x|] t IH]; simpl; intros m H.
  - discriminate.
  - destruct (max_date t) as [m'|] eqn:E.
    + inversion H; subst. destruct (IH m' eq_refl) as (Hin & Hmax).
      split.
      * destruct (Z.max_spec x m') as [(_ & ->)|(_ & ->)]; auto.
      * intros d [Hd|Hd]; [inversion Hd; lia|]. specialize (Hmax d Hd). lia.
    + inversion H; subst. split; [now left|].
      intros d [Hd|Hd]; [inversion Hd; lia|].
      exfalso. clear - E Hd. induction t as [|[y|] t IH]; simpl in *.
      * contradiction.
      * destruct (max_date t); discriminate.
      * destruct Hd as [Hd|Hd]; [discriminate | auto].
  - destruct (IH m H) as (Hin & Hmax). split; [now right|].
    intros d [Hd|Hd]; [discriminate | auto].
Qed.

Lemma max_date_Some (l : list (option Timestamp)) (d : Z) :
  In (Some d) l -> exists m, max_date l = Some m.
Proof.
  induction l as [|[x|] t IH]; simpl; intros Hin.
  - contradiction.
  - destruct (max_date t); eauto.
  - destruct Hin as [Hin|Hin]; [discriminate | auto].
Qed.

Lemma max_date_latest (l : list (option Timestamp)) (m : Z) :
  In (Some m) l -> (forall d : Z, In (Some d) l -> d <= m) -> max_date l = Some m.
Proof.
  intros Hin Hmax. destruct (max_date_Some l m Hin) as (m' & E).
  destruct (max_date_In l m' E) as (Hin' & Hmax').
  rewrite E. f_equal. apply Z.le_antisymm; [apply Hmax, Hin' | apply Hmax', Hin].
Qed.

Lemma max_date_none (l : list (option Timestamp)) :
  (forall x, In x l -> x = None) -> max_date l = None.
Proof.
  induction l as [|[x|] t IH]; simpl; intros H; [reflexivity| |].
  - specialize (H (Some x) (or_introl eq_refl)). discriminate.
  - apply IH. intros y Hy. apply H. now right.
Qed.

Lemma positive_count (l : list (option Z)) :
  Z.of_nat (List.length (filter (fun d => 0 <? d) (dropna l)))
  = fold_right (fun cell k => match cell with
                              | Some d => if 0 <? d then k + 1 else k
                              | None => k
                              end) 0 l.
Proof.
  induction l as [|[d|] t IH]; simpl; [reflexivity| |exact IH].
  destruct (0 <? d); simpl List.length; [|exact IH].
  rewrite Nat2Z.inj_succ, IH. lia.
Qed.

Lemma positive_total (l : list (option Z)) :
  fold_right Z.add 0 (filter (fun d => 0 <? d) (dropna l))
  = fold_right (fun cell s => match cell with
                              | Some d => if 0 <? d then s + d else s
                              | None => s
                              end) 0 l.
Proof.
  induction l as [|[d|] t IH]; simpl; [reflexivity| |exact IH].
  destruct (0 <? d); simpl; [|exact IH]. rewrite IH. lia.
Qed.

Lemma avg_cycle_mean (intervals : list (option Z)) (n total : Z) :
  n = fold_right (fun cell k => match cell with
                                | Some d => if 0 <? d then k + 1 else k
                                | None => k
                                end) 0 intervals ->
  total = fold_right (fun cell s => match cell with
                                    | Some d => if 0 <? d then s + d else s
                                    | None => s
                                    end) 0 intervals ->
  (n = 0 -> avg_cycle intervals = 30%Q) /\
  (0 < n -> (avg_cycle intervals * inject_Z n == inject_Z total)%Q).
Proof.
  intros Hn Ht. rewrite <- positive_count in Hn. rewrite <- positive_total in Ht.
  unfold avg_cycle.
  destruct (filter (fun d => 0 <? d) (dropna intervals)) as [|x t] eqn:E.
  - split; [reflexivity|]. simpl in Hn. lia.
  - split; [intros H; rewrite H in Hn; simpl List.length in Hn; lia|].
    intros Hpos. unfold mean. rewrite <- Hn, <- Ht.
    field. change 0%Q with (inject_Z 0). rewrite inject_Z_injective. lia.
Qed.

(** C5. The churn label of a customer is relative to the data set. Its
    idle days are the whole days from the latest order date among its own
    rows to the latest order date of the table; the mean interval is the
    sum of the strictly positive purchase intervals of the table over
    their number, and 30 when there is none. The label is "완전 이탈" for
    idle days above three times the mean, else "이탈 위험" above twice the
    mean, else "주의 요망" above the mean, else "활동 고객", which is also
    the label of a customer without a dated order. *)
Theorem churn_relative_to_mean_interval :
  forall (df : list Row) (c : string),
    In c (customers df) ->
    let n := fold_right (fun cell k => match cell with
                                       | Some d => if 0 <? d then k + 1 else k
                                       | None => k
                                       end) 0 (구매간격_column df) in
    let total := fold_right (fun cell s => match cell with
                                           | Some d => if 0 <? d then s + d else s
                                           | None => s
                                           end) 0 (구매간격_column df) in
    exists (avg : Q) (idle : option Z) (label : string),
      (n = 0 -> avg = 30%Q) /\
      (0 < n -> (avg * inject_Z n == inject_Z total)%Q) /\
      merge_left lp_주문자연락처 lp_미구매기간 (last_purchase df) (Some c)
        = Some idle /\
      merge_left lp_주문자연락처 lp_이탈위험도 (last_purchase df) (Some c)
        = Some label /\
      (forall ref last : Z,
          In (Some ref) (map 주문일 df) ->
          (forall d : Z, In (Some d) (map 주문일 df) -> d <= ref) ->
          (exists r, In r df /\ 주문자연락처 r = Some c /\ 주문일 r = Some last) ->
          (forall r (d : Z), In r df -> 주문자연락처 r = Some c ->
                             주문일 r = Some d -> d <= last) ->
          idle = Some ((ref - last) / 86400000000000)) /\
      ((forall r, In r df -> 주문자연락처 r = Some c -> 주문일 r = None) ->
       idle = None) /\
      (forall d : Z, idle = Some d ->
         ((avg * 3 < inject_Z d)%Q -> label = "완전 이탈"%string) /\
         ((inject_Z d <= avg * 3)%Q -> (avg * 2 < inject_Z d)%Q ->
          label = "이탈 위험"%string) /\
         ((inject_Z d <= avg * 3)%Q -> (inject_Z d <= avg * 2)%Q ->
          (avg < inject_Z d)%Q -> label = "주의 요망"%string) /\
         ((inject_Z d <= avg * 3)%Q -> (inject_Z d <= avg * 2)%Q ->
          (inject_Z d <= avg)%Q -> label = "활동 고객"%string)) /\
      (idle = None -> label = "활동 고객"%string).
Proof.
  intros df c Hc n total.
  destruct (avg_cycle_mean (구매간격_column df) n total eq_refl eq_refl) as (H0 & Hmean).
  set (idle := days_between (max_date (map 주문일 df))
                            (max_date (map 주문일 (group df c)))).
  exists (avg_cycle (구매간격_column df)), idle,
         (classify_churn (avg_cycle (구매간격_column df)) idle).
  split; [exact H0|]. split; [exact Hmean|].
  unfold merge_left, last_purchase.
  rewrite (find_last_purchase df _ c _ Hc).
  cbn [lp_미구매기간 lp_이탈위험도 last_purchase_row]. fold idle.
  split; [reflexivity|]. split; [reflexivity|].
  split; [|split; [|split]].
  - intros ref last Href Hmax (r & Hr & Hrc & Hrd) Hlast.
    unfold idle.
    rewrite (max_date_latest _ ref Href Hmax).
    rewrite (max_date_latest (map 주문일 (group df c)) last).
    + reflexivity.
    + rewrite <- Hrd. apply in_map. apply filter_In. split; [exact Hr|].
      unfold opt_eqb. rewrite Hrc. apply String.eqb_refl.
    + intros d Hd. apply in_map_iff in Hd as (x & Hx & Hin).
      apply filter_In in Hin as (Hin & Hcx).
      apply (Hlast x d Hin); [|exact Hx].
      unfold opt_eqb in Hcx. destruct (주문자연락처 x) as [s|]; [|discriminate].
      apply String.eqb_eq in Hcx. now subst.
  - intros Hnone. unfold idle.
    rewrite (max_date_none (map 주문일 (group df c))).
    + apply days_between_NaT.
    + intros x Hx. apply in_map_iff in Hx as (r & <- & Hin).
      apply filter_In in Hin as (Hin & Hcr). apply Hnone; [exact Hin|].
      unfold opt_eqb in Hcr. destruct (주문자연락처 r) as [s|]; [|discriminate].
      apply String.eqb_eq in Hcr. now subst.
  - intros d ->. apply classify_churn_thresholds.
  - intros ->. reflexivity.
Qed.

Lemma churn_relative_to_mean_interval_witness :
    let n := fold_right (fun cell k => match cell with
                                       | Some d => if 0 <? d then k + 1 else k
                                       | None => k
                                       end) 0 (구매간격_column sample_df) in
    let total := fold_right (fun cell s => match cell with
                                           | Some d => if 0 <? d then s + d else s
                                           | None => s
                                           end) 0 (구매간격_column sample_df) in
    exists (avg : Q) (idle : option Z) (label : string),
      (n = 0 -> avg = 30%Q) /\
      (0 < n -> (avg * inject_Z n == inject_Z total)%Q) /\
      merge_left lp_주문자연락처 lp_미구매기간 (last_purchase sample_df) (Some "010-3333-4444"%string)
        = Some idle /\
      merge_left lp_주문자연락처 lp_이탈위험도 (last_purchase sample_df) (Some "010-3333-4444"%string)
        = Some label /\
      (forall ref last : Z,
          In (Some ref) (map 주문일 sample_df) ->
          (forall d : Z, In (Some d) (map 주문일 sample_df) -> d <= ref) ->
          (exists r, In r sample_df /\ 주문자연락처 r = Some "010-3333-4444"%string /\ 주문일 r = Some last) ->
          (forall r (d : Z), In r sample_df -> 주문자연락처 r = Some "010-3333-4444"%string ->
                             주문일 r = Some d -> d <= last) ->
          idle = Some ((ref - last) / 86400000000000)) /\
      ((forall r, In r sample_df -> 주문자연락처 r = Some "010-3333-4444"%string -> 주문일 r = None) ->
       idle = None) /\
      (forall d : Z, idle = Some d ->
         ((avg * 3 < inject_Z d)%Q -> label = "완전 이탈"%string) /\
         ((inject_Z d <= avg * 3)%Q -> (avg * 2 < inject_Z d)%Q ->
          label = "이탈 위험"%string) /\
         ((inject_Z d <= avg * 3)%Q -> (inject_Z d <= avg * 2)%Q ->
          (avg < inject_Z d)%Q -> label = "주의 요망"%string) /\
         ((inject_Z d <= avg * 3)%Q -> (inject_Z d <= avg * 2)%Q ->
          (inject_Z d <= avg)%Q -> label = "활동 고객"%string)) /\
      (idle = None -> label = "활동 고객"%string).
Proof.
  apply (churn_relative_to_mean_interval sample_df "010-3333-4444").
  vm_compute. auto.
Defined.


(** The examples of the specification, with a mean interval of 10 days. *)
Example classify_churn_mean_10 :
  classify_churn 10 (Some 35) = "완전 이탈"%string /\
  classify_churn 10 (Some 25) = "이탈 위험"%string /\
  classify_churn 10 (Some 15) = "주의 요망"%string /\
  classify_churn 10 (Some 5) = "활동 고객"%string /\
  classify_churn 10 (Some 30) = "이탈 위험"%string /\
  classify_churn 10 None = "활동 고객"%string.
Proof. repeat split; reflexivity. Qed.

(** * Further properties of the code *)

(** ** Region: the first token *)

Lemma split_from_token (cur tok rest : pystr) :
  Forall (fun c => is_space c = false) tok ->
  (rest = [] \/ exists c r, rest = c :: r /\ is_space c = true) ->
  (cur <> [] \/ tok <> []) ->
  split_from cur (tok ++ rest) = (rev cur ++ tok) :: split_from [] rest.
Proof.
  intros Htok. revert cur. induction Htok as [|c t Hc _ IH]; intros cur Hrest Hne.
  - simpl. destruct Hne as [Hne|Hne]; [|congruence].
    rewrite app_nil_r.
    destruct Hrest as [->|(c & r & -> & Hc)].
    + simpl. destruct cur; [congruence | reflexivity].
    + simpl. rewrite Hc. destruct cur; [congruence | reflexivity].
  - simpl. rewrite Hc. rewrite IH; [|exact Hrest | left; discriminate].
    simpl. rewrite <- app_assoc. reflexivity.
Qed.

Lemma split_from_leading (ws s : pystr) :
  Forall (fun c => is_space c = true) ws ->
  split_from [] (ws ++ s) = split_from [] s.
Proof.
  induction 1 as [|c t Hc _ IH]; simpl; [reflexivity|].
  now rewrite Hc.
Qed.

(** Every string with a non-space code point starts, after its leading
    whitespace, with a first token. *)
Lemma first_token_exists (a : pystr) :
  (exists c, In c a /\ is_space c = false) ->
  exists ws tok rest,
    a = ws ++ tok ++ rest /\
    Forall (fun c => is_space c = true) ws /\
    tok <> [] /\
    Forall (fun c => is_space c = false) tok /\
    (rest = [] \/ exists c r, rest = c :: r /\ is_space c = true).
Proof.
  induction a as [|x t IH]; intros (c & Hin & Hc); [contradiction|].
  destruct (is_space x) eqn:Ex.
  - destruct Hin as [->|Hin]; [congruence|].
    destruct (IH (ex_intro _ c (conj Hin Hc))) as (ws & tok & rest & -> & Hws & Hne & Htok & Hrest).
    exists (x :: ws), tok, rest. repeat split; auto.
  - clear IH c Hin Hc.
    assert (G : forall s : pystr, exists tok rest,
                 s = tok ++ rest /\ Forall (fun c => is_space c = false) tok /\
                 (rest = [] \/ exists c r, rest = c :: r /\ is_space c = true)).
    { induction s as [|y s IHs].
      - exists [], []. repeat split; auto.
      - destruct (is_space y) eqn:Ey.
        + exists [], (y :: s). repeat split; auto. right. eauto.
        + destruct IHs as (tok & rest & -> & Htok & Hrest).
          exists (y :: tok), rest. repeat split; auto. }
    destruct (G t) as (tok & rest & -> & Htok & Hrest).
    exists [], (x :: tok), rest. repeat split; auto. discriminate.
Qed.

Lemma extract_region_token (a ws tok rest : pystr) :
  a = ws ++ tok ++ rest ->
  Forall (fun c => is_space c = true) ws ->
  tok <> [] ->
  Forall (fun c => is_space c = false) tok ->
  (rest = [] \/ exists c r, rest = c :: r /\ is_space c = true) ->
  extract_region (Some a) = Ok tok.
Proof.
  intros E Hws Hne Htok Hrest.
  assert (Hsplit : split a = tok :: split rest).
  { unfold split. rewrite E, split_from_leading by exact Hws.
    rewrite (split_from_token [] tok rest Htok Hrest); auto. }
  unfold extract_region. destruct a as [|x t].
  - destruct ws; [|discriminate]. destruct tok; [congruence | discriminate].
  - rewrite Hsplit. reflexivity.
Qed.

(** X1. An address with at least one non-space code point never raises:
    its region is its first token, the maximal run of non-space code points
    that follows the leading whitespace. *)
Theorem extract_region_first_token :
  forall a : pystr,
    (exists c, In c a /\ is_space c = false) ->
    exists ws tok rest,
      a = ws ++ tok ++ rest /\
      Forall (fun c => is_space c = true) ws /\
      tok <> [] /\
      Forall (fun c => is_space c = false) tok /\
      (rest = [] \/ exists c r, rest = c :: r /\ is_space c = true) /\
      extract_region (Some a) = Ok tok.
Proof.
  intros a Ha.
  destruct (first_token_exists a Ha) as (ws & tok & rest & E & Hws & Hne & Htok & Hrest).
  exists ws, tok, rest. repeat split; auto.
  now apply (extract_region_token a ws tok rest).
Qed.

Lemma extract_region_first_token_witness :
  exists ws tok rest,
    서울_강남 = ws ++ tok ++ rest /\
    Forall (fun c => is_space c = true) ws /\
    tok <> [] /\
    Forall (fun c => is_space c = false) tok /\
    (rest = [] \/ exists c r, rest = c :: r /\ is_space c = true) /\
    extract_region (Some 서울_강남) = Ok tok.
Proof.
  apply (extract_region_first_token 서울_강남).
  exists 49436%N. split; [simpl; auto | reflexivity].
Defined.

(** X2. [extract_region] raises exactly on the non-empty addresses made of
    whitespace only, and then IndexError; every other address, missing and
    empty ones included, gives a region. *)
Theorem extract_region_raises_iff :
  forall (address : option pystr) (e : Exception),
    extract_region address = Raise e <->
    e = IndexError /\
    exists a, address = Some a /\ a <> [] /\ Forall (fun c => is_space c = true) a.
Proof.
  intros address e. split.
  - intros H. split; [eapply extract_region_Raise; eauto|].
    destruct address as [a|]; [|discriminate].
    exists a. split; [reflexivity|].
    destruct a as [|x t]; [discriminate|]. split; [discriminate|].
    apply Forall_forall. intros c Hc.
    destruct (is_space c) eqn:Es; [reflexivity|].
    destruct (first_token_exists (x :: t) (ex_intro _ c (conj Hc Es)))
      as (ws & tok & rest & E & Hws & Hne & Htok & Hrest).
    rewrite (extract_region_token _ ws tok rest E Hws Hne Htok Hrest) in H.
    discriminate.
  - intros (-> & a & -> & Hne & Hws).
    unfold extract_region. destruct a as [|x t]; [congruence|].
    unfold split. now rewrite split_from_spaces.
Qed.

(** ** Weight and grade tags *)

Lemma starts_with_app (p s : pystr) :
  starts_with p s = true <-> exists post, s = p ++ post.
Proof.
  revert s; induction p as [|a p IH]; intros s; simpl.
  - split; eauto.
  - destruct s as [|b s].
    + split; [discriminate | intros (post & H); discriminate].
    + rewrite andb_true_iff, N.eqb_eq, IH. split.
      * intros (-> & post & ->). eauto.
      * intros (post & H). inversion H; subst. eauto.
Qed.

(** [re_search] returns the match at the first position that has one. *)
Lemma re_search_Some (match_at : pystr -> option pystr) (s m : pystr) :
  re_search match_at s = Some m <->
  exists pre suf, s = pre ++ suf /\ match_at suf = Some m /\
    forall pre' suf', s = pre' ++ suf' ->
      (List.length pre' < List.length pre)%nat -> match_at suf' = None.
Proof.
  induction s as [|c t IH]; simpl.
  - split.
    + intros H. exists [], []. repeat split; auto. simpl. intros; lia.
    + intros (pre & suf & E & H & _).
      symmetry in E. apply app_eq_nil in E as (-> & ->). exact H.
  - destruct (match_at (c :: t)) as [m0|] eqn:E0.
    + split.
      * intros H. exists [], (c :: t). repeat split; auto; [congruence|].
        simpl. intros; lia.
      * intros (pre & suf & E & H & Hmin).
        destruct pre as [|x pre]; simpl in E.
        -- subst suf. congruence.
        -- rewrite (Hmin [] (c :: t) eq_refl) in E0 by (simpl; lia). discriminate.
    + rewrite IH. split.
      * intros (pre & suf & -> & H & Hmin).
        exists (c :: pre), suf. repeat split; auto.
        intros pre' suf' E Hlen. destruct pre' as [|x pre']; simpl in E.
        -- now subst suf'.
        -- injection E as _ E. apply (Hmin pre' suf' E). simpl in Hlen. lia.
      * intros (pre & suf & E & H & Hmin).
        destruct pre as [|x pre]; simpl in E.
        -- subst suf. congruence.
        -- injection E as <- E. exists pre, suf. repeat split; auto.
           intros pre' suf' E' Hlen.
           apply (Hmin (c :: pre') suf'); [now rewrite E' | simpl; lia].
Qed.

Lemma re_search_None (match_at : pystr -> option pystr) (s : pystr) :
  re_search match_at s = None <->
  forall pre suf, s = pre ++ suf -> match_at suf = None.
Proof.
  induction s as [|c t IH]; simpl.
  - split.
    + intros H pre suf E. symmetry in E. apply app_eq_nil in E as (-> & ->). exact H.
    + intros H. apply (H [] []). reflexivity.
  - destruct (match_at (c :: t)) as [m0|] eqn:E0.
    + split; [discriminate|]. intros H. rewrite (H [] (c :: t) eq_refl) in E0. discriminate.
    + rewrite IH. split.
      * intros H pre suf E. destruct pre as [|x pre]; simpl in E.
        -- now subst suf.
        -- injection E as _ E. now apply (H pre suf).
      * intros H pre suf E. apply (H (c :: pre) suf). now rewrite E.
Qed.

Lemma match_grade_iff (suf g : pystr) :
  match_words grade_words suf = Some g <->
  In g grade_words /\ exists post, suf = g ++ post.
Proof.
  unfold match_words. split.
  - intros H. apply find_some in H as (Hin & H). apply starts_with_app in H. auto.
  - intros (Hin & post & ->).
    unfold grade_words in Hin. simpl in Hin.
    repeat (destruct Hin as [<-|Hin]; [reflexivity|]). contradiction.
Qed.

Lemma 기타_not_grade : ~ In 기타 grade_words.
Proof.
  unfold grade_words, 기타. simpl. intros H.
  repeat (destruct H as [H|H]; [discriminate|]). exact H.
Qed.

(** [re_search] and the declarative reading: texts of [lang] at the
    leftmost position, when the match at a position is [lang] itself. *)
Lemma re_search_leftmost (match_at : pystr -> option pystr) (lang : pystr -> Prop) :
  (forall suf m, match_at suf = Some m <-> lang m /\ exists post, suf = m ++ post) ->
  forall s,
    (re_search match_at s = None <->
     forall pre m post, lang m -> s <> pre ++ m ++ post) /\
    (forall pre m, leftmost lang s pre m -> re_search match_at s = Some m) /\
    (forall m, re_search match_at s = Some m -> exists pre, leftmost lang s pre m).
Proof.
  intros Hm s. split; [|split].
  - rewrite re_search_None. split.
    + intros H pre m post Hl E.
      assert (Hs : match_at (m ++ post) = Some m) by (apply Hm; eauto).
      rewrite (H pre (m ++ post) E) in Hs. discriminate.
    + intros H pre suf E. destruct (match_at suf) as [m|] eqn:Em; [|reflexivity].
      apply Hm in Em as (Hl & post & ->). exfalso. exact (H pre m post Hl E).
  - intros pre m ((post & E) & Hl & Hmin).
    apply re_search_Some. exists pre, (m ++ post). split; [exact E|].
    split; [apply Hm; eauto|].
    intros pre' suf' E' Hlen. destruct (match_at suf') as [m'|] eqn:Em; [|reflexivity].
    apply Hm in Em as (Hl' & post' & ->).
    specialize (Hmin pre' m' post' E' Hl'). lia.
  - intros m H. apply re_search_Some in H as (pre & suf & E & Hs & Hmin).
    apply Hm in Hs as (Hl & post & ->).
    exists pre. split; [eauto|]. split; [exact Hl|].
    intros pre' m' post' E' Hl'.
    destruct (le_lt_dec (List.length pre) (List.length pre')) as [L|L]; [exact L|].
    assert (Hs : match_at (m' ++ post') = Some m') by (apply Hm; eauto).
    rewrite (Hmin pre' (m' ++ post') E' L) in Hs. discriminate.
Qed.

(** X3. The grade tag of a product name is the grade word that occurs at
    the leftmost position of the name, whatever its place in the pattern
    (so "특대과" is not cut down to "대과"); it is "기타" exactly when no
    grade word occurs in the name, and for a missing name. *)
Theorem grade_tag_leftmost :
  forall name : option pystr,
    (등급_of name = 기타 <->
     forall pre g post, In g grade_words -> str_of name <> pre ++ g ++ post) /\
    (forall pre g,
        leftmost (fun m => In m grade_words) (str_of name) pre g -> 등급_of name = g) /\
    (등급_of name <> 기타 ->
     exists pre, leftmost (fun m => In m grade_words) (str_of name) pre (등급_of name)).
Proof.
  intros name.
  destruct (re_search_leftmost (match_words grade_words) (fun m => In m grade_words)
              match_grade_iff (str_of name)) as (HN & HS & HE).
  unfold 등급_of, extract_option.
  destruct (re_search (match_words grade_words) (str_of name)) as [m|] eqn:E.
  - split; [|split].
    + split.
      * intros ->. destruct (HE _ eq_refl) as (pre & _ & Hin & _).
        exfalso. exact (기타_not_grade Hin).
      * intros H. apply HN in H. discriminate.
    + intros pre g Hl. apply HS in Hl. congruence.
    + intros _. apply HE. reflexivity.
  - split; [|split].
    + split; [intros _; now apply HN | reflexivity].
    + intros pre g Hl. apply HS in Hl. discriminate.
    + congruence.
Qed.

Lemma grade_tag_leftmost_witness :
  exists pre,
    leftmost (fun m => In m grade_words) (str_of (Some 감귤_특대과_2_5kg)) pre
             [53945; 45824; 44284]%N.
Proof.
  apply (proj2 (proj2 (grade_tag_leftmost (Some 감귤_특대과_2_5kg)))).
  vm_compute. discriminate.
Defined.

Lemma span_spec (p : N -> bool) (s a b : pystr) :
  span p s = (a, b) ->
  s = a ++ b /\ Forall (fun c => p c = true) a /\
  (b = [] \/ exists c r, b = c :: r /\ p c = false).
Proof.
  revert a b; induction s as [|c t IH]; simpl; intros a b H.
  - inversion H; subst. repeat split; auto.
  - destruct (p c) eqn:Ec.
    + destruct (span p t) as (a', b') eqn:Es. inversion H; subst.
      destruct (IH a' b eq_refl) as (-> & Ha & Hb). repeat split; auto.
    + inversion H; subst. repeat split; auto. right. eauto.
Qed.

Lemma span_app (p : N -> bool) (a b : pystr) :
  Forall (fun c => p c = true) a ->
  (b = [] \/ exists c r, b = c :: r /\ p c = false) ->
  span p (a ++ b) = (a, b).
Proof.
  induction 1 as [|c t Hc _ IH]; intros Hb; simpl.
  - destruct Hb as [->|(c & r & -> & Hc)]; simpl; [reflexivity | now rewrite Hc].
  - rewrite Hc, (IH Hb). reflexivity.
Qed.

Section Weight.
Variable is_decimal : N -> bool.
Hypothesis dot_not_decimal : is_decimal 46%N = false.
Hypothesis k_not_decimal : is_decimal 107%N = false.

Lemma match_weight_iff (suf m : pystr) :
  match_weight is_decimal suf = Some m <->
  weight_text is_decimal m /\ exists post, suf = m ++ post.
Proof.
  unfold match_weight. split.
  - destruct (span is_decimal suf) as (d1, r1) eqn:E1.
    apply span_spec in E1 as (-> & Hd1 & _).
    destruct d1 as [|x d1]; [discriminate|].
    set (dr := match r1 with
               | c :: t => if N.eqb c 46 then ([46%N], t) else ([], r1)
               | [] => ([], r1)
               end).
    assert (Hdr : r1 = fst dr ++ snd dr /\ (fst dr = [] \/ fst dr = [46%N])).
    { unfold dr. destruct r1 as [|c t]; [simpl; auto|].
      destruct (N.eqb c 46) eqn:Ec; [|simpl; auto].
      apply N.eqb_eq in Ec. subst c. simpl. auto. }
    destruct dr as (dot, r2). simpl in Hdr. destruct Hdr as (-> & Hdot).
    destruct (span is_decimal r2) as (d2, r3) eqn:E2.
    apply span_spec in E2 as (-> & Hd2 & _).
    destruct r3 as [|k [|g rest]]; try discriminate.
    destruct (N.eqb k 107 && N.eqb g 103)%bool eqn:Ekg; [|discriminate].
    apply andb_true_iff in Ekg as (Ek & Eg).
    apply N.eqb_eq in Ek, Eg. subst k g.
    intros H. inversion H; subst. split.
    + exists (x :: d1), dot, d2. repeat split; auto. discriminate.
    + exists rest. simpl. f_equal. rewrite <- ?app_assoc. simpl.
      rewrite <- ?app_assoc. reflexivity.
  - intros ((d1 & dot & d2 & -> & Hne & Hd1 & Hdot & Hd2) & post & ->).
    destruct Hdot as [-> | ->].
    + (* no dot: the digits form one run *)
      destruct d1 as [|x d1]; [congruence|].
      replace (((x :: d1) ++ [] ++ d2 ++ [107; 103]%N) ++ post)
        with ((x :: d1 ++ d2) ++ 107%N :: 103%N :: post)
        by (simpl; rewrite <- !app_assoc; reflexivity).
      rewrite (span_app is_decimal (x :: d1 ++ d2) (107%N :: 103%N :: post)).
      * cbn. rewrite k_not_decimal. cbn. rewrite <- !app_assoc. reflexivity.
      * inversion Hd1; subst. constructor; [assumption|]. apply Forall_app. auto.
      * right. eauto.
    + destruct d1 as [|x d1]; [congruence|].
      replace (((x :: d1) ++ [46%N] ++ d2 ++ [107; 103]%N) ++ post)
        with ((x :: d1) ++ 46%N :: d2 ++ 107%N :: 103%N :: post)
        by (simpl; rewrite <- !app_assoc; simpl; rewrite <- !app_assoc; reflexivity).
      rewrite (span_app is_decimal (x :: d1) (46%N :: d2 ++ 107%N :: 103%N :: post));
        [|exact Hd1 | right; eauto].
      cbn.
      rewrite (span_app is_decimal d2 (107%N :: 103%N :: post)); [|exact Hd2 | right; eauto].
      reflexivity.
Qed.

Lemma 기타_not_weight : ~ weight_text is_decimal 기타.
Proof.
  intros (d1 & dot & d2 & E & Hne & _).
  apply (f_equal (@List.length N)) in E. rewrite !length_app in E. simpl in E.
  destruct d1; [congruence | simpl in E; lia].
Qed.

(** X4. The weight tag of a product name is the leftmost text of the form
    digits, an optional point, digits, "kg" in the name; it is "기타"
    exactly when the name holds no such text. [is_decimal] is any class of
    decimal digits that holds neither "." nor "k". *)
Theorem weight_tag_leftmost :
  forall name : option pystr,
    (중량_of is_decimal name = 기타 <->
     forall pre m post, weight_text is_decimal m -> str_of name <> pre ++ m ++ post) /\
    (forall pre m,
        leftmost (weight_text is_decimal) (str_of name) pre m ->
        중량_of is_decimal name = m) /\
    (중량_of is_decimal name <> 기타 ->
     exists pre, leftmost (weight_text is_decimal) (str_of name) pre
                          (중량_of is_decimal name)).
Proof.
  intros name.
  destruct (re_search_leftmost (match_weight is_decimal) (weight_text is_decimal)
              match_weight_iff (str_of name)) as (HN & HS & HE).
  unfold 중량_of, extract_option.
  destruct (re_search (match_weight is_decimal) (str_of name)) as [m|] eqn:E.
  - split; [|split].
    + split.
      * intros ->. destruct (HE _ eq_refl) as (pre & _ & Hin & _).
        exfalso. exact (기타_not_weight Hin).
      * intros H. apply HN in H. discriminate.
    + intros pre g Hl. apply HS in Hl. congruence.
    + intros _. apply HE. reflexivity.
  - split; [|split].
    + split; [intros _; now apply HN | reflexivity].
    + intros pre g Hl. apply HS in Hl. discriminate.
    + congruence.
Qed.

End Weight.

Lemma weight_tag_leftmost_witness :
  exists pre,
    leftmost (weight_text ascii_digit) (str_of (Some 감귤_특대과_2_5kg)) pre
             [50; 46; 53; 107; 103]%N.
Proof.
  apply (proj2 (proj2 (weight_tag_leftmost ascii_digit eq_refl eq_refl
                         (Some 감귤_특대과_2_5kg)))).
  vm_compute. discriminate.
Defined.

(** ** Signs and bands of the derived days *)

Lemma StronglySorted_before {A : Type} (R : A -> A -> Prop) (s1 s2 : list A) (p q : A) :
  StronglySorted R (s1 ++ q :: s2) -> In p s1 -> R p q.
Proof.
  induction s1 as [|x t IH]; simpl; intros Hs Hin; [contradiction|].
  inversion Hs as [|? ? Hs' Hall]; subst.
  destruct Hin as [->|Hin]; [|now apply IH].
  rewrite Forall_forall in Hall. apply Hall. apply in_elt.
Qed.

Lemma days_nonneg (a b : Z) : b <= a -> 0 <= days (a - b).
Proof.
  intros H. unfold days, NS_PER_DAY. apply Z.div_pos; lia.
Qed.

Lemma with_index_nth (df : list Row) (i : nat) (r : Row) :
  nth_error df i = Some r -> In (i, r) (with_index df).
Proof.
  unfold with_index.
  assert (G : forall s, nth_error df i = Some r ->
                        In ((s + i)%nat, r) (combine (seq s (List.length df)) df)).
  { revert i. induction df as [|x t IH]; intros i s H; [destruct i; discriminate|].
    destruct i as [|i]; simpl in *.
    - inversion H; subst. left. f_equal. lia.
    - right. replace (s + S i)%nat with (S s + i)%nat by lia. now apply IH. }
  intros H. apply (G 0%nat H).
Qed.

Lemma 구매간격_column_length (df : list Row) :
  List.length (구매간격_column df) = List.length df.
Proof.
  unfold 구매간격_column, with_index.
  rewrite length_map, length_combine, length_seq. lia.
Qed.

(** X5. A purchase interval is never negative: the rows of a customer are
    taken in the order of their order dates, so each defined interval is a
    number of whole days >= 0. *)
Theorem purchase_interval_nonnegative :
  forall (df : list Row) (i : nat) (d : Z),
    구매간격_at df i = Some d -> 0 <= d.
Proof.
  intros df i d H.
  assert (Hi : (i < List.length df)%nat).
  { destruct (le_lt_dec (List.length df) i) as [L|L]; [|exact L].
    unfold 구매간격_at in H. rewrite nth_overflow in H; [discriminate|].
    now rewrite 구매간격_column_length. }
  destruct (nth_error df i) as [r|] eqn:Er; [|apply nth_error_None in Er; lia].
  pose proof (with_index_nth df i r Er) as Hin.
  apply (Permutation_in _ (Permutation_sym (sort_values_Permutation (with_index df)))) in Hin.
  apply in_split in Hin as (s1 & s2 & Hs).
  pose proof (interval_at_sorted df s1 s2 (i, r) Hs) as Hint.
  cbn [fst snd] in Hint. rewrite Hint in H. clear Hint.
  destruct (주문자연락처 r) as [c|] eqn:Ec; [|now rewrite days_between_NaT in H].
  destruct (find (same_customer c) (rev s1)) as [p|] eqn:Ef;
    [|now rewrite days_between_NaT in H].
  apply find_some in Ef as (Hp & Hc). apply in_rev in Hp.
  pose proof (sort_values_sorted (with_index df)) as Hsorted. rewrite Hs in Hsorted.
  pose proof (StronglySorted_before _ _ _ _ _ Hsorted Hp) as Hle.
  unfold sort_le, sort_cmp in Hle. cbn [snd] in Hle.
  rewrite (same_customer_Some c p Hc), Ec in Hle.
  assert (Hcc : cmp_na String.compare (Some c) (Some c) = Eq)
    by (apply cmp_na_eq; [apply string_compare_eq | reflexivity]).
  rewrite Hcc in Hle.
  destruct (주문일 r) as [dq|]; [|discriminate].
  destruct (주문일 (snd p)) as [dp|]; [|discriminate].
  simpl in H, Hle. inversion H; subst d. apply days_nonneg.
  destruct (dp ?= dq) eqn:E; try discriminate.
  - apply Z.compare_eq in E. rewrite E. apply Z.le_refl.
  - apply Z.compare_lt_iff in E. apply Z.lt_le_incl. exact E.
Qed.

Lemma purchase_interval_nonnegative_witness : 0 <= 20.
Proof.
  apply (purchase_interval_nonnegative sample_df 2 20).
  vm_compute. reflexivity.
Defined.

(** X6. Recency and idle days are the same number, and it is never
    negative: the last order of a customer is not after the latest order
    date of the table. *)
Theorem recency_nonnegative :
  forall (df : list Row) (c : string) (d : Z),
    Recency_of df c = Some d ->
    idle_days df c = Some d /\ 0 <= d.
Proof.
  intros df c d H. split; [exact H|].
  unfold Recency_of, days_between in H.
  destruct (max_date (map 주문일 df)) as [ref|] eqn:Er; [|discriminate].
  destruct (max_date (map 주문일 (group df c))) as [last|] eqn:El; [|discriminate].
  inversion H; subst d. apply days_nonneg.
  apply max_date_In in Er as (_ & Hmax). apply max_date_In in El as (Hin & _).
  apply Hmax. apply in_map_iff in Hin as (r & Hr & Hin).
  apply in_map_iff. exists r. split; [exact Hr|].
  unfold group in Hin. apply filter_In in Hin. tauto.
Qed.

Lemma recency_nonnegative_witness :
  idle_days sample_df "010-3333-4444" = Some 10 /\ 0 <= 10.
Proof.
  apply (recency_nonnegative sample_df "010-3333-4444" 10).
  vm_compute. reflexivity.
Defined.

Lemma sum_positive (l : list Z) :
  l <> [] -> Forall (fun d => 0 < d) l -> 0 < fold_right Z.add 0 l.
Proof.
  intros Hne H. induction H as [|x t Hx Ht IH]; [congruence|].
  simpl. destruct t as [|y t]; [simpl; lia|].
  assert (0 < fold_right Z.add 0 (y :: t)) by (apply IH; discriminate). lia.
Qed.

Lemma avg_cycle_positive (intervals : list (option Z)) : (0 < avg_cycle intervals)%Q.
Proof.
  unfold avg_cycle.
  destruct (filter (fun d => 0 <? d) (dropna intervals)) as [|x t] eqn:E; [reflexivity|].
  assert (Hpos : Forall (fun d => 0 < d) (x :: t)).
  { rewrite <- E. apply Forall_forall. intros d Hd.
    apply filter_In in Hd as (_ & Hd). now apply Z.ltb_lt. }
  pose proof (sum_positive (x :: t) ltac:(discriminate) Hpos) as Hs.
  unfold mean. apply Qlt_shift_div_l.
  - change 0%Q with (inject_Z 0). rewrite <- Zlt_Qlt. simpl List.length. lia.
  - rewrite Qmult_0_l. change 0%Q with (inject_Z 0). rewrite <- Zlt_Qlt. exact Hs.
Qed.

Lemma churn_labels_distinct :
  완전_이탈 <> 이탈_위험 /\ 완전_이탈 <> 주의_요망 /\ 완전_이탈 <> 활동_고객 /\
  이탈_위험 <> 주의_요망 /\ 이탈_위험 <> 활동_고객 /\ 주의_요망 <> 활동_고객.
Proof. repeat split; discriminate. Qed.

(** X7. The mean purchase interval of every table is strictly positive,
    so the churn thresholds are ordered and the four labels cut the idle
    days into consecutive bands: "활동 고객" up to the mean, "주의 요망" up to
    twice the mean, "이탈 위험" up to three times the mean, "완전 이탈"
    above. *)
Theorem churn_bands :
  forall (df : list Row) (idle : Z),
    let avg := avg_cycle (구매간격_column df) in
    let label := classify_churn avg (Some idle) in
    (0 < avg)%Q /\
    (label = "활동 고객"%string <-> (inject_Z idle <= avg)%Q) /\
    (label = "주의 요망"%string <-> (avg < inject_Z idle)%Q /\ (inject_Z idle <= avg * 2)%Q) /\
    (label = "이탈 위험"%string <->
       (avg * 2 < inject_Z idle)%Q /\ (inject_Z idle <= avg * 3)%Q) /\
    (label = "완전 이탈"%string <-> (avg * 3 < inject_Z idle)%Q).
Proof.
  intros df idle avg label.
  pose proof (avg_cycle_positive (구매간격_column df)) as Hpos. fold avg in Hpos.
  split; [exact Hpos|].
  assert (H12 : (avg < avg * 2)%Q).
  { unfold Qlt in *. simpl in *. nia. }
  assert (H23 : (avg * 2 < avg * 3)%Q).
  { unfold Qlt in *. simpl in *. nia. }
  unfold label, classify_churn, gt_na.
  destruct (Qltb (avg * 3) (inject_Z idle)) eqn:E3;
    destruct (Qltb (avg * 2) (inject_Z idle)) eqn:E2;
    destruct (Qltb avg (inject_Z idle)) eqn:E1;
    try apply Qltb_lt in E3; try apply Qltb_ge in E3;
    try apply Qltb_lt in E2; try apply Qltb_ge in E2;
    try apply Qltb_lt in E1; try apply Qltb_ge in E1;
    repeat split; intros; try discriminate; try reflexivity; try tauto;
    try (exfalso;
         repeat match goal with H : _ /\ _ |- _ => destruct H end;
         unfold Qlt, Qle in *; simpl in *; nia).
Qed.

(** ** Customers of the table *)

Lemma days_zero (x : Z) : days (x - x) = 0.
Proof. unfold days. rewrite Z.sub_diag. reflexivity. Qed.

Lemma classify_churn_recent (df : list Row) (idle : option Z) :
  idle = None \/ idle = Some 0 ->
  classify_churn (avg_cycle (구매간격_column df)) idle = 활동_고객.
Proof.
  intros [-> | ->]; [reflexivity|].
  pose proof (avg_cycle_positive (구매간격_column df)) as Hpos.
  unfold classify_churn, gt_na.
  assert (H : forall k : Q, (0 < k)%Q ->
               Qltb (avg_cycle (구매간격_column df) * k) (inject_Z 0) = false).
  { intros k Hk. apply Qltb_ge. apply Qlt_le_weak.
    change (inject_Z 0) with 0%Q.
    rewrite <- (Qmult_0_l k). apply Qmult_lt_compat_r; assumption. }
  rewrite (H 3%Q), (H 2%Q) by reflexivity.
  assert (H1 : Qltb (avg_cycle (구매간격_column df)) (inject_Z 0) = false).
  { apply Qltb_ge. now apply Qlt_le_weak. }
  rewrite H1. reflexivity.
Qed.

(** X8. A customer whose last order carries the latest order date of the
    table is labelled "활동 고객", whatever the other customers did. *)
Theorem latest_customer_active :
  forall (df : list Row) (c : string),
    In c (customers df) ->
    max_date (map 주문일 (group df c)) = max_date (map 주문일 df) ->
    merge_left lp_주문자연락처 lp_이탈위험도 (last_purchase df) (Some c)
    = Some "활동 고객"%string.
Proof.
  intros df c Hc Hlast. unfold merge_left, last_purchase.
  rewrite (find_last_purchase df _ c _ Hc).
  cbn [lp_이탈위험도 last_purchase_row]. rewrite Hlast. f_equal.
  apply classify_churn_recent.
  destruct (max_date (map 주문일 df)) as [ref|]; [right | left; reflexivity].
  simpl. now rewrite days_zero.
Qed.

Lemma latest_customer_active_witness :
  merge_left lp_주문자연락처 lp_이탈위험도 (last_purchase sample_df)
             (Some "010-1111-2222"%string)
  = Some "활동 고객"%string.
Proof.
  apply (latest_customer_active sample_df "010-1111-2222").
  - vm_compute. auto.
  - vm_compute. reflexivity.
Defined.

Lemma nodup_two {A : Type} (dec : forall x y : A, {x = y} + {x <> y}) (l : list A) :
  (1 < List.length (nodup dec l))%nat <-> exists x y, In x l /\ In y l /\ x <> y.
Proof.
  split.
  - intros H. pose proof (NoDup_nodup dec l) as Hnd.
    destruct (nodup dec l) as [|a [|b t]] eqn:E; simpl in H; try lia.
    exists a, b. split; [|split].
    + apply (nodup_In dec). rewrite E. now left.
    + apply (nodup_In dec). rewrite E. right. now left.
    + inversion Hnd as [|? ? Hnotin _]; subst. intros ->. apply Hnotin. now left.
  - intros (x & y & Hx & Hy & Hxy).
    apply (nodup_In dec) in Hx, Hy.
    destruct (nodup dec l) as [|a [|b t]].
    + destruct Hx.
    + destruct Hx as [<-|[]], Hy as [<-|[]]. congruence.
    + simpl. lia.
Qed.

Lemma group_In (df : list Row) (c : string) (r : Row) :
  In r (group df c) <-> In r df /\ 주문자연락처 r = Some c.
Proof.
  unfold group. rewrite filter_In. unfold opt_eqb.
  destruct (주문자연락처 r) as [s|].
  - rewrite String.eqb_eq. split; intros (H1 & H2); split; congruence.
  - split; intros (_ & H); discriminate.
Qed.

(** X9. A row is tagged "재구매고객" exactly when its customer has two lines
    with different order numbers in the table; several lines of one order
    do not make a repeat customer, and a row without a customer is tagged
    "신규고객". *)
Theorem repeat_customer_iff :
  forall (df : list Row) (r : Row),
    (고객유형_of df r = "재구매고객"%string <->
     exists c r1 r2,
       주문자연락처 r = Some c /\
       In r1 df /\ 주문자연락처 r1 = Some c /\
       In r2 df /\ 주문자연락처 r2 = Some c /\
       주문번호 r1 <> 주문번호 r2) /\
    (고객유형_of df r = "재구매고객"%string \/ 고객유형_of df r = "신규고객"%string).
Proof.
  intros df r. unfold 고객유형_of, 총주문횟수_of, np_where.
  destruct (주문자연락처 r) as [c|] eqn:Ec; simpl.
  - unfold nunique_orders.
    destruct (1 <? Z.of_nat (List.length (nodup string_dec (map 주문번호 (group df c)))))
      eqn:E.
    + split; [|now left]. split; [intros _|reflexivity].
      apply Z.ltb_lt in E.
      destruct (proj1 (nodup_two string_dec (map 주문번호 (group df c))) ltac:(lia))
        as (x & y & Hx & Hy & Hxy).
      apply in_map_iff in Hx as (r1 & <- & H1). apply in_map_iff in Hy as (r2 & <- & H2).
      apply group_In in H1 as (H1 & K1). apply group_In in H2 as (H2 & K2).
      exists c, r1, r2. repeat split; auto.
    + split; [|now right]. split; [discriminate|].
      intros (c' & r1 & r2 & Hc & H1 & K1 & H2 & K2 & Hne).
      inversion Hc; subst c'. apply Z.ltb_ge in E. exfalso.
      assert (Hlt : (1 < List.length (nodup string_dec (map 주문번호 (group df c))))%nat).
      { apply nodup_two. exists (주문번호 r1), (주문번호 r2).
        split; [|split; [|exact Hne]]; apply in_map; apply group_In; auto. }
      lia.
  - split; [|now right]. split; [discriminate|].
    intros (c & _ & _ & Hc & _). discriminate.
Qed.

(** ** The load as a whole *)

Lemma load_data_ingest (csv_files : list CsvFile) (raw : DataFrame) :
  ingest csv_files = Ok raw ->
  load_data csv_files =
  (regions <- Series_apply extract_region (map 주소 (map fill_amounts (rows raw))) ;;
   if has_주문자연락처 raw then
     rfm <- rfm_table (map fill_amounts (rows raw)) ;;
     Ok (map (enrich_customer (map fill_amounts (rows raw)) rfm
                (last_purchase (map fill_amounts (rows raw))))
             (combine (map fill_amounts (rows raw))
                      (combine regions (구매간격_column (map fill_amounts (rows raw))))))
   else Ok (map enrich_plain (combine (map fill_amounts (rows raw)) regions))).
Proof.
  intros H. unfold load_data. pose proof (ingest_nonempty _ _ H) as Hne.
  destruct csv_files as [|f fs]; [congruence|]. rewrite H. reflexivity.
Qed.

Lemma Series_apply_all_Ok {A B : Type} (f : A -> result B) (l : list A) :
  (forall a, In a l -> exists b, f a = Ok b) ->
  exists bs, Series_apply f l = Ok bs.
Proof.
  induction l as [|a t IH]; simpl; intros H; [eauto|].
  destruct (H a (or_introl eq_refl)) as (b & ->).
  destruct IH as (bs & ->); [intros x Hx; apply H; now right|].
  simpl. eauto.
Qed.

(** *** The encoding fallback *)








(** X10. With the column 주문자연락처 present and no customer in the table,
    in particular for files that hold a header and no row, [load_data]
    raises; it does not return an empty table as it does for an empty list
    of files. *)
Theorem load_without_customers_raises :
  forall (csv_files : list CsvFile) (raw : DataFrame),
    ingest csv_files = Ok raw ->
    has_주문자연락처 raw = true ->
    customers (rows raw) = [] ->
    (exists e, load_data csv_files = Raise e) /\ load_data [] = Ok [].
Proof.
  intros csv_files raw Hing Hcol Hnone. split; [|reflexivity].
  rewrite (load_data_ingest _ _ Hing), Hcol.
  destruct (Series_apply extract_region _) as [regions|e]; simpl; [|eauto].
  rewrite rfm_table_short; [simpl; eauto|].
  rewrite customers_fill_amounts, Hnone. simpl. lia.
Qed.

Lemma load_without_customers_raises_witness :
  (exists e, load_data [header_only_file] = Raise e) /\ load_data [] = Ok [].
Proof.
  apply (load_without_customers_raises [header_only_file] (mkFrame true [])).
  - vm_compute. reflexivity.
  - reflexivity.
  - reflexivity.
Defined.

(** X11. Without the column 주문자연락처 in any file the load degrades
    instead of failing: when no address is whitespace only, [load_data]
    returns one row per ingested row, each with 고객유형 "분석불가" and no
    segment, purchase interval, churn label or idle days. *)
Theorem load_without_contact_column :
  forall (csv_files : list CsvFile) (raw : DataFrame),
    ingest csv_files = Ok raw ->
    has_주문자연락처 raw = false ->
    (forall r a, In r (rows raw) -> 주소 r = Some a ->
                 a = [] \/ exists c, In c a /\ is_space c = false) ->
    exists out,
      load_data csv_files = Ok out /\
      List.length out = List.length (rows raw) /\
      forall x, In x out ->
        고객유형 x = "분석불가"%string /\ 고객세그먼트 x = None /\
        구매간격 x = None /\ 이탈위험도 x = None /\ 미구매기간 x = None.
Proof.
  intros csv_files raw Hing Hcol Haddr.
  rewrite (load_data_ingest _ _ Hing), Hcol.
  destruct (Series_apply_all_Ok extract_region (map 주소 (map fill_amounts (rows raw))))
    as (regions & Hreg).
  { intros a Ha. rewrite map_map in Ha. apply in_map_iff in Ha as (r & <- & Hr).
    simpl. destruct (주소 r) as [s|] eqn:Es; [|simpl; eauto].
    destruct (Haddr r s Hr Es) as [->|Hc]; [simpl; eauto|].
    destruct (first_token_exists s Hc) as (ws & tok & rest & E & Hws & Hne & Htok & Hrest).
    exists tok. now apply (extract_region_token s ws tok rest). }
  rewrite Hreg. simpl. eexists. split; [reflexivity|]. split.
  - apply Series_apply_length in Hreg.
    rewrite length_map, length_combine, Hreg, !length_map. lia.
  - intros x Hx. apply in_map_iff in Hx as (y & <- & _). simpl. auto.
Qed.

Lemma load_without_contact_column_witness :
  exists out,
    load_data [no_contact_file] = Ok out /\
    List.length out = 3%nat /\
    forall x, In x out ->
      고객유형 x = "분석불가"%string /\ 고객세그먼트 x = None /\
      구매간격 x = None /\ 이탈위험도 x = None /\ 미구매기간 x = None.
Proof.
  apply (load_without_contact_column [no_contact_file]
           (mkFrame false (map clear_주문자연락처
                             (map (set_source_file "no_contact.csv")
                                  [line_a1; line_b1; line_a2])))).
  - vm_compute. reflexivity.
  - reflexivity.
  - intros r a Hr Ha. simpl in Hr.
    destruct Hr as [<-|[<-|[<-|[]]]]; simpl in Ha; inversion Ha; subst; right.
    + exists 49436%N. split; [simpl; auto | reflexivity].
    + exists 51228%N. split; [simpl; auto | reflexivity].
Defined.

(** X12. Every row of the ingested table comes from a row that
    [pd.read_csv] returned for one of the files, under cp949 or utf-8,
    carries the base name of that file in _source_file, and has the cells
    of that row; the customer is blanked only for a file without the column
    주문자연락처. *)
Theorem ingest_provenance :
  forall (csv_files : list CsvFile) (raw : DataFrame) (r : Row),
    ingest csv_files = Ok raw -> In r (rows raw) ->
    exists (f : CsvFile) (enc : Encoding) (frame : DataFrame) (r0 : Row),
      In f csv_files /\ read_csv f enc = Ok frame /\ In r0 (rows frame) /\
      _source_file r = basename f /\
      key r = key r0 /\ 주문일 r = 주문일 r0 /\
      결제금액 r = 결제금액 r0 /\ 공급가 r = 공급가 r0 /\ 주소 r = 주소 r0 /\
      (주문자연락처 r = 주문자연락처 r0 \/
       (has_주문자연락처 frame = false /\ 주문자연락처 r = None)).
Proof.
  intros csv_files raw r Hing Hr. unfold ingest in Hing.
  apply bind_Ok in Hing as (ds & Hds & Hing).
  apply bind_Ok in Hing as (df & Hdf & Hing).
  inversion Hing; subst raw; clear Hing. simpl in Hr.
  apply drop_duplicates_In in Hr as (l1 & l2 & Hrows & _).
  assert (Hin : In r (rows df)) by (rewrite Hrows; apply in_elt).
  rewrite (concat_rows _ _ Hdf) in Hin.
  apply in_flat_map in Hin as (d & Hd & Hin).
  destruct (read_files_In _ _ _ Hds Hd) as (f & Hf & Hread).
  apply read_file_Ok in Hread as (enc & frame & Hcsv & ->).
  exists f, enc, frame. simpl in Hin.
  destruct (has_주문자연락처 frame) eqn:Hcol.
  - apply in_map_iff in Hin as (r0 & <- & H0).
    exists r0. repeat split; auto.
  - apply in_map_iff in Hin as (r1 & <- & H1).
    apply in_map_iff in H1 as (r0 & <- & H0).
    exists r0. repeat split; auto.
Qed.

Lemma ingest_provenance_witness :
  exists (f : CsvFile) (enc : Encoding) (frame : DataFrame) (r0 : Row),
    In f [sample_file] /\ read_csv f enc = Ok frame /\ In r0 (rows frame) /\
    _source_file (set_source_file "orders_2024.csv" line_a1) = basename f /\
    key (set_source_file "orders_2024.csv" line_a1) = key r0 /\
    주문일 (set_source_file "orders_2024.csv" line_a1) = 주문일 r0 /\
    결제금액 (set_source_file "orders_2024.csv" line_a1) = 결제금액 r0 /\
    공급가 (set_source_file "orders_2024.csv" line_a1) = 공급가 r0 /\
    주소 (set_source_file "orders_2024.csv" line_a1) = 주소 r0 /\
    (주문자연락처 (set_source_file "orders_2024.csv" line_a1) = 주문자연락처 r0 \/
     (has_주문자연락처 frame = false /\
      주문자연락처 (set_source_file "orders_2024.csv" line_a1) = None)).
Proof.
  apply (ingest_provenance [sample_file]
           (mkFrame true (map (set_source_file "orders_2024.csv")
                              [line_a1; line_b1; line_a2]))).
  - vm_compute. reflexivity.
  - simpl. auto.
Defined.

(** ** Weekday and weekend *)

Lemma dayofweek_range (t : Timestamp) : 0 <= dayofweek t < 7.
Proof. unfold dayofweek. apply Z.mod_pos_bound. lia. Qed.

Lemma dayofweek_cases (t : Timestamp) :
  dayofweek t = 0 \/ dayofweek t = 1 \/ dayofweek t = 2 \/ dayofweek t = 3 \/
  dayofweek t = 4 \/ dayofweek t = 5 \/ dayofweek t = 6.
Proof. pose proof (dayofweek_range t). lia. Qed.

Lemma hour_range (z : Z) : 0 <= hour z <= 23.
Proof.
  unfold hour, NS_PER_HOUR, NS_PER_DAY.
  pose proof (Z.mod_pos_bound z (86400 * 1000000000) ltac:(lia)) as Hm.
  assert (H0 : 0 <= z mod (86400 * 1000000000) / (3600 * 1000000000))
    by (apply Z.div_pos; lia).
  assert (H1 : z mod (86400 * 1000000000) / (3600 * 1000000000) < 24)
    by (apply Z.div_lt_upper_bound; lia).
  lia.
Qed.

(** X13. The weekend flag agrees with the weekday name: a row is "주말"
    exactly when its 주문요일 is Saturday or Sunday; every dated row has a
    weekday name and an hour from 0 to 23; a row without an order date has
    no weekday and is counted as "평일". *)
Theorem weekend_iff_day_name :
  forall d : option Timestamp,
    (주말여부_of d = "주말"%string <->
     주문요일_of d = Some "Saturday"%string \/ 주문요일_of d = Some "Sunday"%string) /\
    (주말여부_of d = "주말"%string \/ 주말여부_of d = "평일"%string) /\
    (forall t, d = Some t ->
       (exists name, 주문요일_of d = Some name /\ In name day_order) /\
       (exists h, 주문시_of d = Some h /\ 0 <= h <= 23)) /\
    (d = None -> 주문요일_of d = None /\ 주말여부_of d = "평일"%string).
Proof.
  intros [t|].
  - unfold 주말여부_of, 주문요일_of, 주문시_of, np_where, ge5, day_name. simpl option_map.
    split; [|split; [|split]].
    + destruct (dayofweek_cases t) as [E|[E|[E|[E|[E|[E|E]]]]]]; rewrite E; simpl;
        split; try discriminate; auto;
        intros [H|H]; discriminate.
    + destruct (5 <=? dayofweek t); auto.
    + intros t' Ht. inversion Ht; subst t'. split.
      * destruct (dayofweek_cases t) as [E|[E|[E|[E|[E|[E|E]]]]]]; rewrite E; simpl;
          eexists; (split; [reflexivity|]); simpl; auto 10.
      * exists (hour t). split; [reflexivity|]. apply hour_range.
    + discriminate.
  - simpl. repeat split; auto; try discriminate.
    intros [H|H]; discriminate.
Qed.

(** ** Lifetime value *)

Lemma min_date_In (l : list (option Timestamp)) (m : Timestamp) :
  min_date l = Some m -> forall d, In (Some d) l -> m <= d.
Proof.
  revert m; induction l as [|[x|] t IH]; simpl; intros m H d Hd.
  - contradiction.
  - destruct (min_date t) as [m'|] eqn:E.
    + inversion H; subst. destruct Hd as [Hd|Hd]; [inversion Hd; lia|].
      specialize (IH m' eq_refl d Hd). lia.
    + inversion H; subst. destruct Hd as [Hd|Hd]; [inversion Hd; lia|].
      exfalso. clear - E Hd. induction t as [|[y|] t IH]; simpl in *.
      * contradiction.
      * destruct (min_date t); discriminate.
      * destruct Hd as [Hd|Hd]; [discriminate | auto].
  - destruct Hd as [Hd|Hd]; [discriminate | eauto].
Qed.

Lemma dropna_all {A : Type} (l : list (option A)) :
  ~ In None l -> List.length (dropna l) = List.length l.
Proof.
  induction l as [|[a|] t IH]; simpl; intros H; [reflexivity | | tauto].
  f_equal. apply IH. tauto.
Qed.

Lemma nodup_length_le {A : Type} (dec : forall x y : A, {x = y} + {x <> y}) (l : list A) :
  (List.length (nodup dec l) <= List.length l)%nat.
Proof.
  apply NoDup_incl_length; [apply NoDup_nodup|].
  intros x Hx. exact (proj1 (nodup_In dec l x) Hx).
Qed.

(** X14. The lifetime columns of a customer: the lifespan in days is never
    negative, the cumulative revenue is the Monetary value of the RFM
    table, and the purchase count counts order lines, not orders: when
    every line of the customer is dated it is the number of lines, at least
    the number of distinct orders (Frequency). *)
Theorem lifetime_columns :
  forall (df : list Row) (c : string),
    (forall d, 수명일수_of df c = Some d -> 0 <= d) /\
    누적매출_of df c = Monetary_of df c /\
    ((forall r, In r (group df c) -> 주문일 r <> None) ->
     총구매건수_of df c = Z.of_nat (List.length (group df c)) /\
     Frequency_of df c <= 총구매건수_of df c).
Proof.
  intros df c. split; [|split; [reflexivity|]].
  - intros d H. unfold 수명일수_of, days_between in H.
    destruct (max_date (map 주문일 (group df c))) as [hi|] eqn:Eh; [|discriminate].
    destruct (min_date (map 주문일 (group df c))) as [lo|] eqn:El; [|discriminate].
    inversion H; subst d. apply days_nonneg.
    apply max_date_In in Eh as (Hin & _). exact (min_date_In _ _ El _ Hin).
  - intros Hdated.
    assert (E : 총구매건수_of df c = Z.of_nat (List.length (group df c))).
    { unfold 총구매건수_of. rewrite dropna_all, length_map; [reflexivity|].
      intros Hin. apply in_map_iff in Hin as (r & Hr & Hin). exact (Hdated r Hin Hr). }
    split; [exact E|]. rewrite E. unfold Frequency_of, nunique_orders.
    pose proof (nodup_length_le string_dec (map 주문번호 (group df c))) as H.
    rewrite length_map in H. lia.
Qed.

Lemma lifetime_columns_witness :
  수명일수_of sample_df "010-1111-2222" = Some 20 /\ 0 <= 20 /\
  총구매건수_of sample_df "010-1111-2222" = 2 /\
  Frequency_of sample_df "010-1111-2222" <= 총구매건수_of sample_df "010-1111-2222".
Proof.
  destruct (lifetime_columns sample_df "010-1111-2222") as (H1 & _ & H3).
  split; [vm_compute; reflexivity|].
  split; [apply H1; vm_compute; reflexivity|].
  destruct H3 as (H3 & H4).
  { intros r Hr. vm_compute in Hr.
    destruct Hr as [<-|[<-|[]]]; discriminate. }
  split; [rewrite H3; vm_compute; reflexivity | exact H4].
Defined.

(** ** The sidebar filter *)

Lemma append_cancel (p a b : string) : (p ++ a = p ++ b)%string -> a = b.
Proof.
  induction p as [|c p IH]; simpl; intros H; [exact H|].
  injection H as H. auto.
Qed.

Lemma option_key_inj (p a b : string) :
  (p ++ "_" ++ a = p ++ "_" ++ b)%string -> a = b.
Proof.
  intros H. apply append_cancel in H. simpl in H. now injection H.
Qed.

Lemma key_taken (key : string) (keys : list string) :
  existsb (String.eqb key) keys = true <-> In key keys.
Proof.
  rewrite existsb_exists. split.
  - intros (x & Hx & E). apply String.eqb_eq in E. now subst.
  - intros H. exists key. split; [exact H | apply String.eqb_refl].
Qed.

Lemma st_checkbox_inr (state : string -> bool) (key : string) (keys : list string)
      (b : bool) (keys' : list string) :
  st_checkbox state key keys = inr (b, keys') <->
  ~ In key keys /\ b = state key /\ keys' = key :: keys.
Proof.
  unfold st_checkbox. destruct (existsb (String.eqb key) keys) eqn:E.
  - apply key_taken in E. split; [discriminate | tauto].
  - assert (Hn : ~ In key keys) by (rewrite <- key_taken, E; discriminate).
    split.
    + intros H. injection H as <- <-. auto.
    + intros (_ & -> & ->). reflexivity.
Qed.

(** The loop of boxes runs through exactly when the options are distinct
    and none of their keys is taken; it then selects the checked options,
    all of them under "select all", and registers their keys. *)
Lemma option_boxes_inr (a : bool) (state : string -> bool) (p : string)
      (options keys : list string) (selected keys' : list string) :
  option_boxes a state p options keys = inr (selected, keys') <->
  NoDup options /\
  (forall opt, In opt options -> ~ In (p ++ "_" ++ opt)%string keys) /\
  selected = filter (fun opt => (a || state (p ++ "_" ++ opt)%string)%bool) options /\
  keys' = rev (map (fun opt => (p ++ "_" ++ opt)%string) options) ++ keys.
Proof.
  revert keys selected keys'.
  induction options as [|opt rest IH]; intros keys selected keys';
    cbn [option_boxes filter map rev In].
  - split.
    + intros H. injection H as <- <-. repeat split; [constructor | tauto].
    + intros (_ & _ & -> & ->). reflexivity.
  - destruct (st_checkbox state (p ++ "_" ++ opt)%string keys) as [e|[b keys1]] eqn:E1;
      cbv beta iota.
    + split; [discriminate|]. intros (_ & Hfree & _). exfalso.
      unfold st_checkbox in E1.
      destruct (existsb _ keys) eqn:E; [|discriminate].
      apply key_taken in E. apply (Hfree opt); auto.
    + apply st_checkbox_inr in E1 as (Hfree1 & -> & ->).
      destruct (option_boxes a state p rest ((p ++ "_" ++ opt)%string :: keys))
        as [e|[sel keys2]] eqn:E2; cbv beta iota.
      * split; [discriminate|]. intros (Hnd & Hfree & _). exfalso.
        inversion Hnd as [|? ? Hnotin Hnd']; subst.
        assert (H : option_boxes a state p rest ((p ++ "_" ++ opt)%string :: keys)
                    = inr (filter (fun o => (a || state (p ++ "_" ++ o)%string)%bool) rest,
                           rev (map (fun o => (p ++ "_" ++ o)%string) rest)
                           ++ (p ++ "_" ++ opt)%string :: keys)).
        { apply IH. repeat split; [exact Hnd'|].
          intros o Ho [Heq|Hin].
          - apply option_key_inj in Heq. subst. contradiction.
          - apply (Hfree o); auto. }
        congruence.
      * apply IH in E2 as (Hnd & Hfree & -> & ->). split.
        -- intros H. injection H as <- <-. split; [|split; [|split]].
           ++ constructor; [|exact Hnd]. intros Hin.
              apply (Hfree opt Hin). now left.
           ++ intros o [<-|Ho]; [exact Hfree1|].
              intros Hin. apply (Hfree o Ho). now right.
           ++ reflexivity.
           ++ first [apply (app_assoc _ [_] keys) | symmetry; apply (app_assoc _ [_] keys)].
        -- intros (_ & _ & -> & ->). apply f_equal. apply f_equal2; [reflexivity|].
           apply (app_assoc _ [_] keys).
Qed.

Lemma filter_all {A : Type} (f : A -> bool) (l : list A) :
  (forall a, In a l -> f a = true) -> filter f l = l.
Proof.
  induction l as [|a t IH]; simpl; intros H; [reflexivity|].
  rewrite (H a (or_introl eq_refl)). f_equal. apply IH. intros b Hb. apply H. now right.
Qed.

(** X15. [checkbox_filter] returns a selection exactly when no key is used
    twice: the key of "select all" is not taken, the options are distinct,
    none of them is "all" (its key would be that of "select all") and none
    of their keys is taken; otherwise Streamlit raises. When it returns,
    the selection is never empty for a non-empty list of options: with
    "select all" checked, or with no box checked, it is all the options;
    otherwise the checked options in their order. Every returned item is
    an option. *)
Theorem checkbox_filter_selection :
  forall (state : string -> bool) (options : list string)
         (key_prefix : string) (keys : list string),
    let all_key := (key_prefix ++ "_all")%string in
    let key_of := fun opt => (key_prefix ++ "_" ++ opt)%string in
    let checked := fun opt => state (key_of opt) in
    ((exists selection keys',
         checkbox_filter state options key_prefix keys = inr (selection, keys')) <->
     (~ In all_key keys /\ NoDup options /\ ~ In "all"%string options /\
      forall opt, In opt options -> ~ In (key_of opt) keys)) /\
    (In "all"%string options ->
     checkbox_filter state options key_prefix keys = inl DuplicateWidgetID) /\
    (forall selection keys',
        checkbox_filter state options key_prefix keys = inr (selection, keys') ->
        incl selection options /\
        (options <> [] -> selection <> []) /\
        (state all_key = true -> selection = options) /\
        (state all_key = false ->
         (forall opt, In opt options -> checked opt = false) -> selection = options) /\
        (state all_key = false ->
         (exists opt, In opt options /\ checked opt = true) ->
         selection = filter checked options)).
Proof.
  intros state options key_prefix keys all_key key_of checked.
  assert (Hall : forall opt, key_of opt = all_key <-> opt = "all"%string).
  { intros opt. unfold key_of, all_key. split.
    - intros H. change (key_prefix ++ "_all")%string
        with (key_prefix ++ "_" ++ "all")%string in H.
      now apply option_key_inj in H.
    - intros ->. reflexivity. }
  assert (Hrun : forall selection keys',
             checkbox_filter state options key_prefix keys = inr (selection, keys') ->
             ~ In all_key keys /\ NoDup options /\
             (forall opt, In opt options -> ~ In (key_of opt) (all_key :: keys)) /\
             selection = match filter (fun opt => (state all_key || checked opt)%bool) options with
                         | [] => options
                         | sel => sel
                         end).
  { intros selection keys' H. unfold checkbox_filter in H. fold all_key in H.
    destruct (st_checkbox state all_key keys) as [e|[a keys1]] eqn:E1; [discriminate|].
    apply st_checkbox_inr in E1 as (Hfree & -> & ->).
    destruct (option_boxes (state all_key) state key_prefix options (all_key :: keys))
      as [e|[sel keys2]] eqn:E2; [discriminate|].
    apply option_boxes_inr in E2 as (Hnd & Hfree2 & Hsel & _).
    split; [exact Hfree|]. split; [exact Hnd|]. split; [exact Hfree2|].
    unfold checked, key_of. rewrite <- Hsel.
    destruct sel; injection H as <- _; reflexivity. }
  assert (Hok : ~ In all_key keys -> NoDup options ->
                (forall opt, In opt options -> ~ In (key_of opt) (all_key :: keys)) ->
                exists selection keys',
                  checkbox_filter state options key_prefix keys = inr (selection, keys')).
  { intros Hfree Hnd Hfree2. unfold checkbox_filter. fold all_key.
    rewrite (proj2 (st_checkbox_inr state all_key keys (state all_key) (all_key :: keys)))
      by auto.
    rewrite (proj2 (option_boxes_inr (state all_key) state key_prefix options
                      (all_key :: keys) _ _)
                   (conj Hnd (conj Hfree2 (conj eq_refl eq_refl)))).
    destruct (filter _ options); eauto. }
  split; [|split].
  - split.
    + intros (selection & keys' & H).
      destruct (Hrun _ _ H) as (Hfree & Hnd & Hfree2 & _).
      split; [exact Hfree|]. split; [exact Hnd|]. split.
      * intros Hin. apply (Hfree2 "all"%string Hin). left. symmetry. now apply Hall.
      * intros opt Hin Hk. apply (Hfree2 opt Hin). now right.
    + intros (Hfree & Hnd & Hnoall & Hfree2). apply Hok; [exact Hfree | exact Hnd|].
      intros opt Hin [Heq|Hk].
      * symmetry in Heq. apply Hall in Heq. subst. contradiction.
      * now apply (Hfree2 opt Hin).
  - intros Hin.
    destruct (checkbox_filter state options key_prefix keys) as [[]|[sel keys']] eqn:E;
      [reflexivity|]. exfalso.
    destruct (Hrun _ _ eq_refl) as (_ & _ & Hfree2 & _).
    apply (Hfree2 "all"%string Hin). left. symmetry. now apply Hall.
  - intros selection keys' H. destruct (Hrun _ _ H) as (_ & _ & _ & ->). clear H Hrun Hok.
    destruct (state all_key) eqn:Ea.
    + assert (E : filter (fun opt => (true || checked opt)%bool) options = options)
        by (apply filter_all; reflexivity).
      rewrite E. destruct options as [|o t].
      * repeat split; auto; try discriminate. intros x Hx; exact Hx.
      * repeat split; auto; try discriminate. intros x Hx; exact Hx.
    + assert (E : filter (fun opt => (false || checked opt)%bool) options
                  = filter checked options) by (apply filter_ext; reflexivity).
      rewrite E. destruct (filter checked options) as [|s t] eqn:Ef.
      * repeat split; auto; try discriminate.
        -- intros x Hx; exact Hx.
        -- intros _ (opt & Hin & Hc).
           assert (Hf : In opt (filter checked options)) by (apply filter_In; auto).
           rewrite Ef in Hf. contradiction.
      * repeat split; auto; try discriminate.
        -- intros x Hx. rewrite <- Ef in Hx. apply filter_In in Hx. tauto.
        -- intros _ Hnone.
           assert (Hf : In s (filter checked options)) by (rewrite Ef; now left).
           apply filter_In in Hf as (Hin & Hc). rewrite (Hnone s Hin) in Hc. discriminate.
Qed.


(** ** Price bands *)

Lemma uint_str_digits (u : Decimal.uint) :
  Forall (fun c => (48 <= c <= 57)%N) (uint_str u).
Proof.
  induction u; simpl; constructor; auto; lia.
Qed.

Lemma commas_rev_filter (ds : pystr) :
  Forall (fun c => c <> 44%N) ds ->
  filter (fun c => negb (N.eqb c 44)) (commas_rev ds) = ds.
Proof.
  assert (G : forall n (l : pystr), (List.length l <= n)%nat ->
                Forall (fun c => c <> 44%N) l ->
                filter (fun c => negb (N.eqb c 44)) (commas_rev l) = l).
  { assert (K : forall l : pystr, Forall (fun c => c <> 44%N) l ->
                  filter (fun c => negb (N.eqb c 44)) l = l).
    { induction 1 as [|c t Hc _ IH]; simpl; [reflexivity|].
      apply N.eqb_neq in Hc. rewrite Hc. simpl. now f_equal. }
    induction n as [|n IH]; intros l Hlen Hl.
    - destruct l; [reflexivity | simpl in Hlen; lia].
    - destruct l as [|a [|b [|c [|d rest]]]]; try (apply K; exact Hl).
      change (commas_rev (a :: b :: c :: d :: rest))
        with (a :: b :: c :: 44%N :: commas_rev (d :: rest)).
      inversion Hl as [|? ? Ha Hl1]; subst. inversion Hl1 as [|? ? Hb Hl2]; subst.
      inversion Hl2 as [|? ? Hc Hl3]; subst.
      apply N.eqb_neq in Ha, Hb, Hc.
      cbn [filter]. rewrite Ha, Hb, Hc, N.eqb_refl. cbn [negb].
      rewrite IH; [reflexivity | simpl in *; lia | exact Hl3]. }
  intros H. apply (G (List.length ds)); auto.
Qed.

Lemma format_digits_filter (u : Decimal.uint) :
  filter (fun c => negb (N.eqb c 44)) (rev (commas_rev (rev (uint_str u))))
  = uint_str u.
Proof.
  rewrite filter_rev, commas_rev_filter, rev_involutive; [reflexivity|].
  apply Forall_rev. eapply Forall_impl; [|apply uint_str_digits].
  intros c Hc. simpl in Hc. lia.
Qed.

Lemma to_uint_str_nonempty (n : N) : uint_str (N.to_uint n) <> [].
Proof.
  destruct n as [|p]; [discriminate|].
  simpl. pose proof (DecimalPos.Unsigned.to_uint_nonnil p) as H.
  destruct (Pos.to_uint p); try discriminate. congruence.
Qed.

Lemma re_search_head (match_at : pystr -> option pystr) (s m : pystr) :
  match_at s = Some m -> re_search match_at s = Some m.
Proof.
  intros H. destruct s; simpl; [exact H | now rewrite H].
Qed.

Section PriceVal.
Variable is_decimal : N -> bool.
Variable digit_value : N -> N.
Hypothesis ascii_decimal :
  forall c, (48 <= c <= 57)%N -> is_decimal c = true /\ digit_value c = (c - 48)%N.
Hypothesis minus_not_decimal : is_decimal 45%N = false.
Hypothesis 원_not_decimal : is_decimal 50896%N = false.

Lemma int_of_uint_str (u : Decimal.uint) :
  int_of_digits digit_value (uint_str u) = N.of_uint u.
Proof.
  unfold int_of_digits, N.of_uint.
  remember (fun acc c => (10 * acc + digit_value c)%N) as step eqn:Es.
  assert (Hstep : forall acc c, (48 <= c <= 57)%N -> step acc c = (10 * acc + (c - 48))%N).
  { intros acc c Hc. subst step. now rewrite (proj2 (ascii_decimal c Hc)). }
  clear Es.
  assert (A : forall v acc,
             fold_left step (uint_str v) (N.pos acc) = N.pos (Pos.of_uint_acc v acc)).
  { induction v; intros acc; cbn [uint_str fold_left Pos.of_uint_acc];
      [reflexivity|..];
      rewrite Hstep by lia; rewrite <- IHv; f_equal; lia. }
  induction u; cbn [uint_str fold_left Pos.of_uint]; try reflexivity;
    rewrite Hstep by lia; try (rewrite <- A; f_equal; lia).
  exact IHu.
Qed.

Lemma price_val_format (x : Z) :
  price_val is_decimal digit_value (format_thousands x ++ 원대) = Ok (Z.abs x).
Proof.
  unfold price_val, format_thousands.
  rewrite !filter_app, format_digits_filter.
  set (ds := uint_str (N.to_uint (Z.abs_N x))).
  assert (Hds : Forall (fun c => is_decimal c = true) ds).
  { eapply Forall_impl; [|apply uint_str_digits].
    intros c Hc. exact (proj1 (ascii_decimal c Hc)). }
  assert (Hm : match_digits is_decimal (ds ++ 원대) = Some ds).
  { unfold match_digits. rewrite (span_app is_decimal ds 원대 Hds).
    - simpl. destruct ds eqn:E; [|reflexivity].
      exfalso. exact (to_uint_str_nonempty _ E).
    - right. exists 50896%N, [45824%N]. split; [reflexivity | exact 원_not_decimal]. }
  assert (Hv : Z.of_N (int_of_digits digit_value ds) = Z.abs x).
  { unfold ds. rewrite int_of_uint_str, DecimalN.Unsigned.of_to. lia. }
  change (filter (fun c => negb (N.eqb c 44)) 원대) with 원대.
  destruct (x <? 0); simpl filter; simpl app.
  - assert (H0 : match_digits is_decimal (45%N :: ds ++ 원대) = None).
    { unfold match_digits. simpl. now rewrite minus_not_decimal. }
    simpl re_search. rewrite H0, (re_search_head _ _ _ Hm), Hv. reflexivity.
  - rewrite (re_search_head _ _ _ Hm), Hv. reflexivity.
Qed.

End PriceVal.

Lemma band_of_floor (q : Q) :
  (inject_Z (band_of q) <= q)%Q /\ (q < inject_Z (band_of q + 10000))%Q /\
  band_of q mod 10000 = 0.
Proof.
  unfold band_of.
  pose proof (Qfloor_le (q / 10000)) as Hlo.
  pose proof (Qlt_floor (q / 10000)) as Hhi.
  set (f := Qfloor (q / 10000)) in *.
  assert (Hq : (q == q / 10000 * 10000)%Q) by (field; discriminate).
  split; [|split].
  - apply (Qle_trans _ (q / 10000 * 10000)); [|rewrite <- Hq; apply Qle_refl].
    rewrite inject_Z_mult.
    apply Qmult_le_compat_r; [exact Hlo | discriminate].
  - replace (f * 10000 + 10000) with ((f + 1) * 10000) by lia.
    apply (Qle_lt_trans _ (q / 10000 * 10000)); [rewrite <- Hq; apply Qle_refl|].
    rewrite inject_Z_mult.
    apply Qmult_lt_compat_r; [reflexivity | exact Hhi].
  - apply Z.mod_mul. lia.
Qed.

(** X16. The price band of a line with a defined net revenue never raises:
    the unit price is revenue / quantity for a positive quantity and 0
    otherwise, its band is the multiple of 10000 just below or at it, and
    the label is that number grouped by thousands followed by "원대". The
    sort key read back from the label (line 887) is the absolute value of
    the band: the band itself when it is not negative, without the sign
    when it is. *)
Theorem price_band_round_trip :
  forall (is_decimal : N -> bool) (digit_value : N -> N),
    (forall c, (48 <= c <= 57)%N -> is_decimal c = true /\ digit_value c = (c - 48)%N) ->
    is_decimal 45%N = false ->
    is_decimal 50896%N = false ->
    forall (revenue : Z) (주문수량 : option Z),
    exists (unit_price : Q) (band : Z),
      단가_of (Some revenue) 주문수량 = Fin unit_price /\
      (forall qty, 주문수량 = Some qty -> 0 < qty ->
                   unit_price = (inject_Z revenue / inject_Z qty)%Q) /\
      (~ (exists qty, 주문수량 = Some qty /\ 0 < qty) -> unit_price = 0%Q) /\
      (inject_Z band <= unit_price)%Q /\ (unit_price < inject_Z (band + 10000))%Q /\
      band mod 10000 = 0 /\
      가격대_of (Fin unit_price) = Ok (format_thousands band ++ 원대) /\
      price_val is_decimal digit_value (format_thousands band ++ 원대) = Ok (Z.abs band).
Proof.
  intros is_decimal digit_value Hdec Hminus Hwon revenue qty.
  assert (Hu : exists u, 단가_of (Some revenue) qty = Fin u /\
                 (forall q, qty = Some q -> 0 < q -> u = (inject_Z revenue / inject_Z q)%Q) /\
                 (~ (exists q, qty = Some q /\ 0 < q) -> u = 0%Q)).
  { unfold 단가_of, np_where, gt0, truediv. destruct qty as [q|].
    - destruct (0 <? q) eqn:E.
      + apply Z.ltb_lt in E.
        destruct (q =? 0) eqn:E0; [apply Z.eqb_eq in E0; lia|].
        eexists. split; [reflexivity|]. split.
        * intros q' Hq _. now inversion Hq.
        * intros Hn. exfalso. apply Hn. eauto.
      + apply Z.ltb_ge in E. eexists. split; [reflexivity|]. split.
        * intros q' Hq Hpos. inversion Hq; subst. lia.
        * reflexivity.
    - eexists. split; [reflexivity|]. split; [discriminate | reflexivity]. }
  destruct Hu as (u & Hu & Hpos & Hzero).
  exists u, (band_of u).
  destruct (band_of_floor u) as (B1 & B2 & B3).
  repeat split; auto.
  now apply price_val_format.
Qed.

Lemma price_band_round_trip_witness :
  exists (unit_price : Q) (band : Z),
    단가_of (Some (-45000)) (Some 2) = Fin unit_price /\
    (forall qty, Some 2 = Some qty -> 0 < qty ->
                 unit_price = (inject_Z (-45000) / inject_Z qty)%Q) /\
    (~ (exists qty, Some 2 = Some qty /\ 0 < qty) -> unit_price = 0%Q) /\
    (inject_Z band <= unit_price)%Q /\ (unit_price < inject_Z (band + 10000))%Q /\
    band mod 10000 = 0 /\
    가격대_of (Fin unit_price) = Ok (format_thousands band ++ 원대) /\
    price_val ascii_digit ascii_digit_value (format_thousands band ++ 원대)
    = Ok (Z.abs band).
Proof.
  apply (price_band_round_trip ascii_digit ascii_digit_value).
  - intros c Hc. split; [|reflexivity].
    unfold ascii_digit. apply andb_true_iff. split; apply N.leb_le; lia.
  - reflexivity.
  - reflexivity.
Defined.

(** ** Discounts *)

(** X17. The discount of a line is the coupon amount plus the point
    amount, a missing discount column and a cell that does not parse
    counting as 0. For amounts that are not negative and below 2^61 (so
    that no int64 sum wraps), the discount rate of a line with a positive
    paid amount is discount / (paid + discount), a number in [0, 1) taken
    as the exact quotient; it is 0 when nothing was paid. *)
Theorem discount_rate_range :
  forall (has_coupon has_point : bool) (coupon point paid : option Z),
    (forall c, coupon = Some c -> 0 <= c < 2 ^ 61) ->
    (forall p, point = Some p -> 0 <= p < 2 ^ 61) ->
    (forall x, paid = Some x -> x < 2 ^ 61) ->
    let c := match coupon with Some v => if has_coupon then v else 0 | None => 0 end in
    let p := match point with Some v => if has_point then v else 0 | None => 0 end in
    let rate := 개별할인율_of paid (총할인액_of (discount_cell has_coupon coupon)
                                                (discount_cell has_point point)) in
    총할인액_of (discount_cell has_coupon coupon) (discount_cell has_point point)
    = Some (c + p) /\
    (forall x, paid = Some x -> 0 < x ->
       rate = Fin (inject_Z (c + p) / inject_Z (x + (c + p))) /\
       (0 <= inject_Z (c + p) / inject_Z (x + (c + p)))%Q /\
       (inject_Z (c + p) / inject_Z (x + (c + p)) < 1)%Q) /\
    (forall x, paid = Some x -> x <= 0 -> rate = Fin 0) /\
    (paid = None -> rate = Fin 0).
Proof.
  intros has_coupon has_point coupon point paid Hcoupon Hpoint Hpaid c p rate.
  assert (Hc : discount_cell has_coupon coupon = Some c /\ 0 <= c < 2 ^ 61).
  { unfold discount_cell, fillna0, c. destruct has_coupon, coupon as [v|];
      (split; [reflexivity|]); try (now apply Hcoupon); lia. }
  assert (Hp : discount_cell has_point point = Some p /\ 0 <= p < 2 ^ 61).
  { unfold discount_cell, fillna0, p. destruct has_point, point as [v|];
      (split; [reflexivity|]); try (now apply Hpoint); lia. }
  destruct Hc as (Ec & Hc). destruct Hp as (Ep & Hp).
  assert (Etotal : 총할인액_of (discount_cell has_coupon coupon)
                               (discount_cell has_point point) = Some (c + p)).
  { rewrite Ec, Ep. unfold 총할인액_of, add_na. f_equal. apply int64_exact. lia. }
  unfold rate. rewrite Etotal. clear rate Etotal Ec Ep.
  remember (c + p) as d eqn:Ed.
  assert (Hd : 0 <= d < 2 ^ 62) by lia. clear Ed Hc Hp c p Hcoupon Hpoint.
  split; [reflexivity|]. unfold 개별할인율_of, np_where, gt0, truediv, add_na.
  split; [|split].
  - intros x -> Hx. specialize (Hpaid x eq_refl).
    destruct (0 <? x) eqn:E; [|apply Z.ltb_ge in E; lia].
    rewrite (int64_exact (x + d)) by lia.
    destruct (x + d =? 0) eqn:E0; [apply Z.eqb_eq in E0; lia|].
    split; [reflexivity|]. split.
    + apply Qle_shift_div_l.
      * change 0%Q with (inject_Z 0). rewrite <- Zlt_Qlt. lia.
      * rewrite Qmult_0_l. change 0%Q with (inject_Z 0). rewrite <- Zle_Qle. lia.
    + apply Qlt_shift_div_r.
      * change 0%Q with (inject_Z 0). rewrite <- Zlt_Qlt. lia.
      * rewrite Qmult_1_l. rewrite <- Zlt_Qlt. lia.
  - intros x -> Hx.
    destruct (0 <? x) eqn:E; [apply Z.ltb_lt in E; lia | reflexivity].
  - intros ->. reflexivity.
Qed.

Lemma discount_rate_range_witness :
  let rate := 개별할인율_of (Some 9000)
                (총할인액_of (discount_cell true (Some 1000))
                             (discount_cell false (Some 500))) in
  총할인액_of (discount_cell true (Some 1000)) (discount_cell false (Some 500))
  = Some (1000 + 0) /\
  (forall x, Some 9000 = Some x -> 0 < x ->
     rate = Fin (inject_Z (1000 + 0) / inject_Z (x + (1000 + 0))) /\
     (0 <= inject_Z (1000 + 0) / inject_Z (x + (1000 + 0)))%Q /\
     (inject_Z (1000 + 0) / inject_Z (x + (1000 + 0)) < 1)%Q) /\
  (forall x, Some 9000 = Some x -> x <= 0 -> rate = Fin 0) /\
  (Some 9000 = None -> rate = Fin 0).
Proof.
  apply (discount_rate_range true false (Some 1000) (Some 500) (Some 9000)).
  - intros c Hc. injection Hc as <-. lia.
  - intros p Hp. injection Hp as <-. lia.
  - intros x Hx. injection Hx as <-. lia.
Defined.


(** ** Growth matrix *)

Lemma max_element (l : list Z) :
  l <> [] -> exists m, In m l /\ fold_right Z.add 0 l <= Z.of_nat (List.length l) * m.
Proof.
  intros Hne.
  assert (G : exists m, In m l /\ forall x, In x l -> x <= m).
  { induction l as [|a t IH]; [congruence|].
    destruct t as [|b t].
    - exists a. split; [now left|]. intros x [<-|[]]. lia.
    - destruct IH as (m & Hin & Hmax); [discriminate|].
      destruct (Z_le_gt_dec a m).
      + exists m. split; [now right|]. intros x [<-|Hx]; [lia | auto].
      + exists a. split; [now left|]. intros x [<-|Hx]; [lia|].
        specialize (Hmax x Hx). lia. }
  destruct G as (m & Hin & Hmax). exists m. split; [exact Hin|].
  clear Hin Hne. induction l as [|a t IH]; [simpl; lia|].
  assert (a <= m) by (apply Hmax; now left).
  assert (fold_right Z.add 0 t <= Z.of_nat (List.length t) * m)
    by (apply IH; intros x Hx; apply Hmax; now right).
  simpl fold_right. simpl List.length. lia.
Qed.

(** Comparing a value with the mean of a non-empty column is comparing
    the value times the number of cells with the sum of the column. *)
Lemma mean_le (l : list Z) (v : Z) :
  l <> [] ->
  Qle_bool (mean l) (inject_Z v) = true <->
  fold_right Z.add 0 l <= Z.of_nat (List.length l) * v.
Proof.
  intros Hne. rewrite Qle_bool_iff. unfold mean.
  assert (Hn : (0 < inject_Z (Z.of_nat (List.length l)))%Q).
  { change 0%Q with (inject_Z 0). rewrite <- Zlt_Qlt.
    destruct l; [congruence | simpl List.length; lia]. }
  split; intros H.
  - apply (Qmult_le_l _ _ _ Hn) in H. rewrite Qmult_div_r in H.
    + rewrite <- inject_Z_mult, <- Zle_Qle in H. exact H.
    + intros E. rewrite E in Hn. discriminate Hn.
  - apply Qle_shift_div_r; [exact Hn|].
    rewrite <- inject_Z_mult, <- Zle_Qle. lia.
Qed.

Lemma mean_gt (l : list Z) (v : Z) :
  l <> [] ->
  Qltb (inject_Z v) (mean l) = true <->
  Z.of_nat (List.length l) * v < fold_right Z.add 0 l.
Proof.
  intros Hne. unfold Qltb. rewrite negb_true_iff.
  pose proof (mean_le l v Hne) as H.
  destruct (Qle_bool (mean l) (inject_Z v)); split; intros H'; try discriminate.
  - assert (fold_right Z.add 0 l <= Z.of_nat (List.length l) * v) by (now apply H). lia.
  - destruct (Z_le_gt_dec (fold_right Z.add 0 l) (Z.of_nat (List.length l) * v))
      as [Hle|Hgt]; [|lia].
    apply H in Hle. discriminate.
  - reflexivity.
Qed.

(** X18. The growth label of a product compares its revenue and its
    quantity with the means of the product table, that is, each times the
    number of products with the column total: "Star" when both are at or
    above the mean, "Cash Cow" when only the revenue is, "Wild Card" when
    only the quantity is, "Dog" when both are below. A table that is not
    empty always has a product at or above the mean revenue, labelled
    "Star" or "Cash Cow", and one at or above the mean quantity, labelled
    "Star" or "Wild Card": the products are never all "Dog". *)
Theorem growth_matrix_not_all_dog :
  forall prod_growth : list (Z * Z),
    prod_growth <> [] ->
    let n := Z.of_nat (List.length prod_growth) in
    let total_sales := fold_right Z.add 0 (map fst prod_growth) in
    let total_qty := fold_right Z.add 0 (map snd prod_growth) in
    List.length (성장단계_column prod_growth) = List.length prod_growth /\
    (forall (i : nat) (sales qty : Z),
        nth_error prod_growth i = Some (sales, qty) ->
        exists label : string,
          nth_error (성장단계_column prod_growth) i = Some label /\
          (total_sales <= n * sales -> total_qty <= n * qty ->
           label = "Star (주력성장)"%string) /\
          (total_sales <= n * sales -> n * qty < total_qty ->
           label = "Cash Cow (수익효자)"%string) /\
          (n * sales < total_sales -> total_qty <= n * qty ->
           label = "Wild Card (박리다매)"%string) /\
          (n * sales < total_sales -> n * qty < total_qty ->
           label = "Dog (관리대상)"%string)) /\
    (exists (i : nat) (sales qty : Z) (label : string),
        nth_error prod_growth i = Some (sales, qty) /\
        nth_error (성장단계_column prod_growth) i = Some label /\
        total_sales <= n * sales /\
        (label = "Star (주력성장)"%string \/ label = "Cash Cow (수익효자)"%string)) /\
    (exists (i : nat) (sales qty : Z) (label : string),
        nth_error prod_growth i = Some (sales, qty) /\
        nth_error (성장단계_column prod_growth) i = Some label /\
        total_qty <= n * qty /\
        (label = "Star (주력성장)"%string \/ label = "Wild Card (박리다매)"%string)).
Proof.
  intros rows Hne n total_sales total_qty.
  assert (Hs : map fst rows <> []) by (destruct rows; [congruence | discriminate]).
  assert (Hq : map snd rows <> []) by (destruct rows; [congruence | discriminate]).
  assert (Hlabel : forall i sales qty,
             nth_error rows i = Some (sales, qty) ->
             nth_error (성장단계_column rows) i
             = Some (classify_growth (mean (map fst rows)) (mean (map snd rows))
                                     (sales, qty))).
  { intros i sales qty H. unfold 성장단계_column.
    rewrite nth_error_map, H. reflexivity. }
  assert (Hcases : forall sales qty,
             let label := classify_growth (mean (map fst rows)) (mean (map snd rows))
                                          (sales, qty) in
             (total_sales <= n * sales -> total_qty <= n * qty ->
              label = "Star (주력성장)"%string) /\
             (total_sales <= n * sales -> n * qty < total_qty ->
              label = "Cash Cow (수익효자)"%string) /\
             (n * sales < total_sales -> total_qty <= n * qty ->
              label = "Wild Card (박리다매)"%string) /\
             (n * sales < total_sales -> n * qty < total_qty ->
              label = "Dog (관리대상)"%string)).
  { intros sales qty label. unfold label, classify_growth. cbn [fst snd].
    pose proof (mean_le (map fst rows) sales Hs) as Hsle.
    pose proof (mean_le (map snd rows) qty Hq) as Hqle.
    pose proof (mean_gt (map fst rows) sales Hs) as Hsgt.
    pose proof (mean_gt (map snd rows) qty Hq) as Hqgt.
    rewrite length_map in Hsle, Hqle, Hsgt, Hqgt.
    fold n total_sales in Hsle, Hsgt. fold n total_qty in Hqle, Hqgt.
    destruct (Qle_bool (mean (map fst rows)) (inject_Z sales)) eqn:E1;
      destruct (Qle_bool (mean (map snd rows)) (inject_Z qty)) eqn:E2;
      destruct (Qltb (inject_Z sales) (mean (map fst rows))) eqn:E3;
      destruct (Qltb (inject_Z qty) (mean (map snd rows))) eqn:E4;
      cbn [andb];
      repeat match goal with
             | H : true = true <-> _ |- _ => pose proof (proj1 H eq_refl); clear H
             | H : false = true <-> _ |- _ =>
                 assert (~ _) by (intros X; apply H in X; discriminate X); clear H
             end;
      repeat split; intros; try reflexivity; exfalso; lia. }
  split; [apply length_map|]. split; [|split].
  - intros i sales qty H. eexists. split; [exact (Hlabel i sales qty H)|].
    apply Hcases.
  - destruct (max_element (map fst rows) Hs) as (m & Hin & Hsum).
    apply in_map_iff in Hin as ((sales & qty) & Hm & Hrow). simpl in Hm. subst m.
    apply In_nth_error in Hrow as (i & Hi).
    rewrite length_map in Hsum. fold n total_sales in Hsum.
    exists i, sales, qty. eexists. split; [exact Hi|].
    split; [exact (Hlabel i sales qty Hi)|]. split; [exact Hsum|].
    destruct (Hcases sales qty) as (H1 & H2 & _).
    destruct (Z_le_gt_dec total_qty (n * qty)); [left; apply H1 | right; apply H2]; lia.
  - destruct (max_element (map snd rows) Hq) as (m & Hin & Hsum).
    apply in_map_iff in Hin as ((sales & qty) & Hm & Hrow). simpl in Hm. subst m.
    apply In_nth_error in Hrow as (i & Hi).
    rewrite length_map in Hsum. fold n total_qty in Hsum.
    exists i, sales, qty. eexists. split; [exact Hi|].
    split; [exact (Hlabel i sales qty Hi)|]. split; [exact Hsum|].
    destruct (Hcases sales qty) as (H1 & _ & H3 & _).
    destruct (Z_le_gt_dec total_sales (n * sales)); [left; apply H1 | right; apply H3]; lia.
Qed.
Lemma growth_matrix_not_all_dog_witness :
  let sample_products := [(30000, 2); (10000, 5); (5000, 1)] in
    let n := Z.of_nat (List.length sample_products) in
    let total_sales := fold_right Z.add 0 (map fst sample_products) in
    let total_qty := fold_right Z.add 0 (map snd sample_products) in
    List.length (성장단계_column sample_products) = List.length sample_products /\
    (forall (i : nat) (sales qty : Z),
        nth_error sample_products i = Some (sales, qty) ->
        exists label : string,
          nth_error (성장단계_column sample_products) i = Some label /\
          (total_sales <= n * sales -> total_qty <= n * qty ->
           label = "Star (주력성장)"%string) /\
          (total_sales <= n * sales -> n * qty < total_qty ->
           label = "Cash Cow (수익효자)"%string) /\
          (n * sales < total_sales -> total_qty <= n * qty ->
           label = "Wild Card (박리다매)"%string) /\
          (n * sales < total_sales -> n * qty < total_qty ->
           label = "Dog (관리대상)"%string)) /\
    (exists (i : nat) (sales qty : Z) (label : string),
        nth_error sample_products i = Some (sales, qty) /\
        nth_error (성장단계_column sample_products) i = Some label /\
        total_sales <= n * sales /\
        (label = "Star (주력성장)"%string \/ label = "Cash Cow (수익효자)"%string)) /\
    (exists (i : nat) (sales qty : Z) (label : string),
        nth_error sample_products i = Some (sales, qty) /\
        nth_error (성장단계_column sample_products) i = Some label /\
        total_qty <= n * qty /\
        (label = "Star (주력성장)"%string \/ label = "Wild Card (박리다매)"%string)).
Proof.
  apply (growth_matrix_not_all_dog [(30000, 2); (10000, 5); (5000, 1)]).
  discriminate.
Defined.


(** ** ABC analysis *)

Lemma truediv_nonzero (s total : Z) :
  total <> 0 ->
  truediv (Some s) (Some total) = Fin (inject_Z s / inject_Z total).
Proof.
  intros Ht. unfold truediv.
  destruct (total =? 0) eqn:E; [apply Z.eqb_eq in E; contradiction | reflexivity].
Qed.

Lemma cumsum_running (total : Z) (l : list Z) (acc : Q) :
  total <> 0 ->
  cumsum_from (Fin acc)
    (map (fun s => truediv (Some s) (Some total)) l)
  = map Fin (running total acc l).
Proof.
  intros Ht. revert acc. induction l as [|s t IH]; intros acc; [reflexivity|].
  cbn [map]. rewrite truediv_nonzero by exact Ht.
  cbn [cumsum_from fadd running map]. f_equal. apply IH.
Qed.

Lemma last_cons_default {A : Type} (x : A) (l : list A) (d : A) :
  last (x :: l) d = last l x.
Proof.
  revert x d. induction l as [|y t IH]; intros x d; [reflexivity|].
  change (last (x :: y :: t) d) with (last (y :: t) d).
  now rewrite (IH y d), (IH y x).
Qed.

Lemma running_app (total : Z) (l1 l2 : list Z) (acc : Q) :
  running total acc (l1 ++ l2)
  = running total acc l1 ++ running total (last (running total acc l1) acc) l2.
Proof.
  revert acc. induction l1 as [|s t IH]; intros acc; [reflexivity|].
  cbn [app running]. rewrite IH, last_cons_default. reflexivity.
Qed.

Lemma running_last (total : Z) (l : list Z) (acc : Q) :
  0 < total ->
  (last (running total acc l) acc ==
   acc + inject_Z (fold_right Z.add 0%Z l) / inject_Z total)%Q.
Proof.
  intros Ht. revert acc. induction l as [|s t IH]; intros acc.
  - simpl. unfold Qdiv. rewrite Qmult_0_l, Qplus_0_r. reflexivity.
  - simpl running. simpl fold_right.
    transitivity (last (running total (acc + inject_Z s / inject_Z total)%Q t)
                       (acc + inject_Z s / inject_Z total)%Q).
    + rewrite last_cons_default. reflexivity.
    + rewrite IH. rewrite inject_Z_plus. field.
      change 0%Q with (inject_Z 0). rewrite inject_Z_injective. lia.
Qed.

Lemma running_ge (total : Z) (l : list Z) (acc : Q) :
  0 < total -> Forall (fun s => 0 <= s) l ->
  Forall (Qle acc) (running total acc l).
Proof.
  intros Ht Hl. revert acc. induction Hl as [|s t Hs _ IH]; intros acc;
    [constructor|].
  assert (Hstep : (acc <= acc + inject_Z s / inject_Z total)%Q).
  { rewrite <- (Qplus_0_r acc) at 1. apply Qplus_le_r.
    apply Qle_shift_div_l.
    - change 0%Q with (inject_Z 0). rewrite <- Zlt_Qlt. exact Ht.
    - rewrite Qmult_0_l. change 0%Q with (inject_Z 0). rewrite <- Zle_Qle. exact Hs. }
  simpl. constructor; [exact Hstep|].
  eapply Forall_impl; [|apply IH]. intros q Hq. eapply Qle_trans; eassumption.
Qed.

Lemma running_sorted (total : Z) (l : list Z) (acc : Q) :
  0 < total -> Forall (fun s => 0 <= s) l ->
  StronglySorted Qle (running total acc l).
Proof.
  intros Ht Hl. revert acc. induction Hl as [|s t Hs Hl IH]; intros acc;
    [constructor|].
  simpl. constructor; [apply IH|]. now apply running_ge.
Qed.

Lemma classify_abc_Fin (q : Q) :
  (classify_abc (Fin q) = grade_A /\ (q <= 7 # 10)%Q) \/
  (classify_abc (Fin q) = grade_B /\ (7 # 10 < q)%Q /\ (q <= 9 # 10)%Q) \/
  (classify_abc (Fin q) = grade_C /\ (9 # 10 < q)%Q).
Proof.
  unfold classify_abc, fle.
  destruct (Qle_bool q (7 # 10)) eqn:E7.
  - left. split; [reflexivity | now apply Qle_bool_iff].
  - assert (H7 : (7 # 10 < q)%Q).
    { apply Qnot_le_lt. intros H. apply Qle_bool_iff in H. congruence. }
    destruct (Qle_bool q (9 # 10)) eqn:E9.
    + right; left. split; [reflexivity|]. split; [exact H7 | now apply Qle_bool_iff].
    + right; right. split; [reflexivity|].
      apply Qnot_le_lt. intros H. apply Qle_bool_iff in H. congruence.
Qed.

Lemma abc_grades_distinct :
  grade_A <> grade_B /\ grade_A <> grade_C /\ grade_B <> grade_C.
Proof. repeat split; discriminate. Qed.

Lemma grades_in_order (qs : list Q) :
  StronglySorted Qle qs ->
  exists a b c : nat,
    map classify_abc (map Fin qs)
    = repeat grade_A a ++ repeat grade_B b ++ repeat grade_C c.
Proof.
  induction 1 as [|x t Hs IH Hx].
  - exists 0%nat, 0%nat, 0%nat. reflexivity.
  - destruct IH as (a & b & c & IH). simpl map. rewrite IH.
    destruct (classify_abc_Fin x) as [[-> _] | [(-> & H7 & _) | [-> H9]]].
    + exists (S a), b, c. reflexivity.
    + assert (a = 0%nat) as ->.
      { destruct a as [|a]; [reflexivity|]. exfalso.
        destruct t as [|y t]; [discriminate|].
        simpl in IH. injection IH as Hy _.
        apply Forall_inv in Hx.
        destruct (classify_abc_Fin y) as [[_ Hy7] | [(E & _) | [E _]]].
        * apply (Qlt_irrefl x). eapply Qle_lt_trans; [exact Hx|].
          eapply Qle_lt_trans; [exact Hy7 | exact H7].
        * rewrite E in Hy. discriminate.
        * rewrite E in Hy. discriminate. }
      exists 0%nat, (S b), c. reflexivity.
    + assert (Hno : forall y, In y t -> classify_abc (Fin y) = grade_C).
      { intros y Hy. rewrite Forall_forall in Hx. specialize (Hx y Hy).
        destruct (classify_abc_Fin y) as [[_ Hy7] | [(_ & _ & Hy9) | [E _]]];
          [exfalso | exfalso | exact E].
        - apply (Qlt_irrefl x). eapply Qle_lt_trans; [exact Hx|].
          eapply Qle_lt_trans; [exact Hy7|]. eapply Qlt_trans; [|exact H9].
          reflexivity.
        - apply (Qlt_irrefl x). eapply Qle_lt_trans; [exact Hx|].
          eapply Qle_lt_trans; [exact Hy9 | exact H9]. }
      exists 0%nat, 0%nat, (S (List.length t)). simpl. f_equal.
      rewrite <- IH. clear IH Hs Hx. induction t as [|y t IHt]; [reflexivity|].
      simpl. rewrite (Hno y (or_introl eq_refl)). f_equal.
      apply IHt. intros z Hz. apply Hno. now right.
Qed.

Lemma sort_desc_Permutation (l : list Z) : Permutation (sort_desc l) l.
Proof.
  unfold sort_desc. rewrite <- Permutation_rev. apply sort_Z_Permutation.
Qed.

Lemma sum_Permutation (l l' : list Z) :
  Permutation l l' -> fold_right Z.add 0 l = fold_right Z.add 0 l'.
Proof.
  induction 1; simpl; lia.
Qed.

(** X19. When no product has a negative revenue and the total is positive,
    the ABC grades run down the table, sorted by falling revenue, as a block
    of "A", then a block of "B", then a block of "C"; every product has a
    grade, and the block of "C" is never empty: the last product of the
    table is always graded "C", so a single product that makes all of the
    revenue is graded "C". *)
Theorem abc_grades_in_blocks :
  forall sales : list Z,
    Forall (fun s => 0 <= s) sales ->
    0 < fold_right Z.add 0 sales ->
    exists a b c : nat,
      ABC등급_column sales
      = repeat "A (핵심)"%string a ++ repeat "B (전략)"%string b
        ++ repeat "C (관리)"%string (S c) /\
      (a + b + S c = List.length sales)%nat.
Proof.
  intros sales Hnn Hpos.
  assert (Hperm := sort_desc_Permutation sales).
  assert (Hnn' : Forall (fun s => 0 <= s) (sort_desc sales)).
  { rewrite Forall_forall in *. intros s Hs. apply Hnn.
    eapply Permutation_in; eassumption. }
  assert (Hsum := sum_Permutation _ _ Hperm).
  assert (Hlen := Permutation_length Hperm).
  unfold ABC등급_column, 매출비중_column, cumsum.
  remember (sort_desc sales) as ss eqn:Ess. clear Ess Hperm Hnn.
  rewrite Hsum. remember (fold_right Z.add 0 sales) as total eqn:Et.
  clear Et. rewrite cumsum_running by lia.
  destruct (exists_last (l := ss)) as (front & z & ->).
  { intros ->. simpl in Hsum. lia. }
  rewrite running_app. simpl running at 2.
  rewrite !map_app. simpl map at 3.
  apply Forall_app in Hnn' as [Hfront Hz].
  destruct (grades_in_order (running total 0 front)) as (a & b & c & Hg).
  { now apply running_sorted. }
  assert (Hl : (a + b + c = List.length front)%nat).
  { apply (f_equal (@List.length string)) in Hg.
    rewrite !length_map, !length_app, !repeat_length in Hg.
    assert (Hr : forall q, List.length (running total q front) = List.length front).
    { clear. induction front as [|s t IH]; intros q; simpl; [reflexivity|].
      now rewrite IH. }
    rewrite Hr in Hg. lia. }
  rewrite Hg.
  assert (Hone : (last (running total 0 front) 0%Q
                  + inject_Z z / inject_Z total == 1)%Q).
  { rewrite running_last by exact Hpos.
    assert (E : fold_right Z.add 0 front = total - z).
    { rewrite fold_right_app in Hsum. simpl in Hsum. rewrite <- Hsum.
      clear. induction front; simpl; lia. }
    rewrite E. unfold Z.sub. rewrite inject_Z_plus, inject_Z_opp. field.
    change 0%Q with (inject_Z 0). rewrite inject_Z_injective. lia. }
  assert (Hlast : classify_abc
                    (Fin (last (running total 0 front) 0%Q
                          + inject_Z z / inject_Z total)%Q) = grade_C).
  { destruct (classify_abc_Fin (last (running total 0 front) 0%Q
                                + inject_Z z / inject_Z total)%Q)
      as [[_ H7] | [(_ & _ & H9) | [E _]]]; [exfalso | exfalso | exact E].
    - rewrite Hone in H7. revert H7. unfold Qle. simpl. lia.
    - rewrite Hone in H9. revert H9. unfold Qle. simpl. lia. }
  rewrite Hlast. exists a, b, c. split.
  - rewrite <- !app_assoc. f_equal. f_equal.
    change [grade_C] with (repeat grade_C 1). rewrite <- repeat_app.
    f_equal. lia.
  - rewrite <- Hlen, length_app. simpl List.length. lia.
Qed.

Lemma abc_grades_in_blocks_witness :
  exists a b c : nat,
    ABC등급_column [5000; 60000; 25000; 10000]
    = repeat "A (핵심)"%string a ++ repeat "B (전략)"%string b
      ++ repeat "C (관리)"%string (S c) /\
    (a + b + S c)%nat = List.length [5000; 60000; 25000; 10000].
Proof.
  apply (abc_grades_in_blocks [5000; 60000; 25000; 10000]).
  - repeat constructor; lia.
  - simpl. lia.
Defined.
